(** * The inspection panel of botmaker-to-chatwoot (src/web/app.js)

    A shallow embedding of the browser script that loads the exported
    contacts, chats and messages and shows them: the log buffer, the
    tolerant NDJSON reader, the prefix loader, the state store, the table
    renderer and the self-test call, with the properties of the
    specification proved about them. *)

From Stdlib Require Import NArith ZArith Bool String Ascii Lia Arith.
From Stdlib Require Import DecimalString Sorted Permutation List.
Import ListNotations.

Set Implicit Arguments.

(** ** Text

    A JavaScript string is a sequence of UTF-16 code units.  [lit] turns a
    literal of this file (UTF-8 bytes, code points of the basic plane) into
    code units, so that the messages of the script can be written as they
    are in the source. *)

Definition char16 := N.
Definition jsstring := list char16.

Fixpoint utf8_units (bytes : list N) : jsstring :=
  match bytes with
  | [] => []
  | b :: rest =>
      if (b <? 128)%N then b :: utf8_units rest
      else if (b <? 224)%N then
        match rest with
        | b1 :: rest1 => ((b - 192) * 64 + (b1 - 128))%N :: utf8_units rest1
        | [] => []
        end
      else
        match rest with
        | b1 :: b2 :: rest2 =>
            ((b - 224) * 4096 + (b1 - 128) * 64 + (b2 - 128))%N :: utf8_units rest2
        | _ => []
        end
  end.

Definition lit (s : string) : jsstring :=
  utf8_units (map N_of_ascii (list_ascii_of_string s)).

Definition dquote : char16 := 34%N.
Definition squote : char16 := 39%N.
Definition amp : char16 := 38%N.
Definition lt_sign : char16 := 60%N.
Definition gt_sign : char16 := 62%N.

Fixpoint str_eqb (a b : jsstring) : bool :=
  match a, b with
  | [], [] => true
  | x :: a', y :: b' => (x =? y)%N && str_eqb a' b'
  | _, _ => false
  end.

(** [parts.join(sep)] *)
Fixpoint join (sep : jsstring) (parts : list jsstring) : jsstring :=
  match parts with
  | [] => []
  | [p] => p
  | p :: rest => p ++ sep ++ join sep rest
  end.

(** Decimal text of a count ([String(n)] for a non-negative integer). *)
Definition dec (n : nat) : jsstring :=
  lit (NilZero.string_of_uint (Nat.to_uint n)).

(** [n] written with exactly [width] decimal digits. *)
Fixpoint fixed_digits (width : nat) (n : Z) : jsstring :=
  match width with
  | O => []
  | S w => fixed_digits w (n / 10) ++ [Z.to_N (48 + n mod 10)]
  end.

(** ** Values

    What [JSON.parse] can return.  A number is kept as the text that
    [Number::toString] gives for it (["1.5"], ["100"], ["Infinity"]): the
    script never computes with the numbers of a record, it only prints
    them.  The fields of an object are its own enumerable properties in
    enumeration order. *)

#[warnings="-register-all"]
Inductive Json : Type :=
| JNull
| JBool (b : bool)
| JNum (repr : jsstring)
| JStr (s : jsstring)
| JArr (items : list Json)
| JObj (fields : list (jsstring * Json)).

(** The further values a property read or a caller can hand to the
    formatter: [undefined], a built-in function (found on a prototype), a
    [Date] (its time value in milliseconds, [None] for an invalid date) and
    the wrapper objects that are the prototypes of the primitives. *)
Inductive JsVal : Type :=
| VUndefined
| VJson (j : Json)
| VFun (name : jsstring)
| VDate (tv : option Z)
| VBoxed (prim : Json).

Record JsError : Type := mkError {
  err_name : jsstring;
  err_message : jsstring;
  err_stack : option jsstring   (* [err.stack]; [None] when the engine has none *)
}.

(** How a call ends: with a value, or with a thrown error. *)
Inductive Completion (A : Type) : Type :=
| Normal (a : A)
| Throw (e : JsError).
Arguments Normal {A} a.
Arguments Throw {A} e.

(** The parts of the browser the script relies on and that differ from one
    engine or one moment to the next. *)
Record Host : Type := mkHost {
  JSON_parse : jsstring -> Completion Json;
  (* [new Date().toLocaleTimeString('pt-BR', ...)] at the n-th log call *)
  now : nat -> jsstring;
  (* the stack text a new error object of this name and message gets *)
  capture_stack : jsstring -> jsstring -> option jsstring;
  (* [Date.prototype.toString] of a valid date: local time text *)
  Date_toString : Z -> jsstring;
  (* the TypeError of reading the named property of [null] *)
  null_read_error : jsstring -> JsError;
  (* the RangeError of [toISOString] on an invalid date *)
  invalid_time_error : JsError;
  (* the TypeError of turning into text an object that has no usable
     [toString] and [valueOf] *)
  to_primitive_error : JsError
}.

Definition new_Error (H : Host) (message : jsstring) : JsError :=
  mkError (lit "Error") message (capture_stack H (lit "Error") message).

(** ** Coercions of the language *)

Definition nonfinite (repr : jsstring) : bool :=
  str_eqb repr (lit "NaN") || str_eqb repr (lit "Infinity")
  || str_eqb repr (lit "-Infinity").

(** [Boolean(v)] *)
Definition truthy_json (j : Json) : bool :=
  match j with
  | JNull => false
  | JBool b => b
  | JNum r => negb (str_eqb r (lit "0") || str_eqb r (lit "NaN"))
  | JStr s => match s with [] => false | _ => true end
  | JArr _ | JObj _ => true
  end.

Definition truthy (v : JsVal) : bool :=
  match v with
  | VUndefined => false
  | VJson j => truthy_json j
  | VFun _ | VDate _ | VBoxed _ => true
  end.

Definition truthy_text (t : option jsstring) : bool :=
  match t with
  | Some (_ :: _) => true
  | _ => false
  end.

(** The value of an own property of an object, if it has one of that
    name. *)
Fixpoint assoc (k : jsstring) (fields : list (jsstring * Json)) : option Json :=
  match fields with
  | [] => None
  | (k', v) :: rest => if str_eqb k k' then Some v else assoc k rest
  end.

(** All the results, or the first error. *)
Fixpoint allC {A} (l : list (Completion A)) : Completion (list A) :=
  match l with
  | [] => Normal []
  | Throw e :: _ => Throw e
  | Normal a :: rest =>
      match allC rest with
      | Normal rest' => Normal (a :: rest')
      | Throw e => Throw e
      end
  end.

(** [String(v)] and [`${v}`] of a JSON value.  An object turns into text
    through its [toString] and then its [valueOf]: a plain object inherits
    those of [Object.prototype], which give [[object Object]]; when it has
    a [toString] of its own, which coming from JSON is not a function, its
    [valueOf], own or inherited, gives no primitive value either and the
    conversion throws.  An array joins the texts of its elements with
    commas, [null] elements giving the empty text, and throws when an
    element does. *)
Fixpoint Json_toString (H : Host) (j : Json) : Completion jsstring :=
  match j with
  | JNull => Normal (lit "null")
  | JBool true => Normal (lit "true")
  | JBool false => Normal (lit "false")
  | JNum r => Normal r
  | JStr s => Normal s
  | JArr items =>
      match allC (map (fun x => match x with
                                | JNull => Normal []
                                | _ => Json_toString H x
                                end) items) with
      | Normal parts => Normal (join (lit ",") parts)
      | Throw e => Throw e
      end
  | JObj fields =>
      match assoc (lit "toString") fields with
      | Some _ => Throw (to_primitive_error H)
      | None => Normal (lit "[object Object]")
      end
  end.

Definition native_source (name : jsstring) : jsstring :=
  lit "function " ++ name ++ lit "() { [native code] }".

Definition String_ (H : Host) (v : JsVal) : Completion jsstring :=
  match v with
  | VUndefined => Normal (lit "undefined")
  | VJson j => Json_toString H j
  | VFun name => Normal (native_source name)
  | VDate (Some t) => Normal (Date_toString H t)
  | VDate None => Normal (lit "Invalid Date")
  | VBoxed p => Json_toString H p
  end.

Inductive TypeTag : Type :=
| TUndefined | TObject | TBoolean | TNumber | TString | TFunction.

(** [typeof v] *)
Definition typeof (v : JsVal) : TypeTag :=
  match v with
  | VUndefined => TUndefined
  | VJson JNull => TObject
  | VJson (JBool _) => TBoolean
  | VJson (JNum _) => TNumber
  | VJson (JStr _) => TString
  | VJson (JArr _) | VJson (JObj _) => TObject
  | VFun _ => TFunction
  | VDate _ | VBoxed _ => TObject
  end.

Definition is_object_tag (t : TypeTag) : bool :=
  match t with TObject => true | _ => false end.

Definition is_boolean_tag (t : TypeTag) : bool :=
  match t with TBoolean => true | _ => false end.

(** [Array.isArray(v)] *)
Definition isArray (v : JsVal) : bool :=
  match v with VJson (JArr _) => true | _ => false end.

(** ** [JSON.stringify]

    [QuoteJSONString]: the quote, the backslash and the control characters
    are escaped, and so is a surrogate that is not part of a pair. *)

Definition hex_digit (n : N) : char16 :=
  if (n <? 10)%N then (48 + n)%N else (87 + n)%N.

Definition unicode_escape (c : char16) : jsstring :=
  lit "\u" ++ [hex_digit (c / 4096); hex_digit ((c / 256) mod 16);
               hex_digit ((c / 16) mod 16); hex_digit (c mod 16)].

Definition is_high_surrogate (c : char16) : bool :=
  (55296 <=? c)%N && (c <=? 56319)%N.
Definition is_low_surrogate (c : char16) : bool :=
  (56320 <=? c)%N && (c <=? 57343)%N.

Definition quote_unit (c : char16) : jsstring :=
  if (c =? 8)%N then lit "\b"
  else if (c =? 9)%N then lit "\t"
  else if (c =? 10)%N then lit "\n"
  else if (c =? 12)%N then lit "\f"
  else if (c =? 13)%N then lit "\r"
  else if (c =? 34)%N then [92; 34]%N
  else if (c =? 92)%N then [92; 92]%N
  else if (c <? 32)%N then unicode_escape c
  else if is_low_surrogate c then unicode_escape c
  else [c].

Fixpoint quote_units (s : jsstring) : jsstring :=
  match s with
  | [] => []
  | c :: rest =>
      if is_high_surrogate c then
        match rest with
        | d :: rest' =>
            if is_low_surrogate d then c :: d :: quote_units rest'
            else unicode_escape c ++ quote_units rest
        | [] => unicode_escape c
        end
      else quote_unit c ++ quote_units rest
  end.

Definition QuoteJSONString (s : jsstring) : jsstring :=
  dquote :: quote_units s ++ [dquote].

(** [SerializeJSONProperty] with the gap of the third argument ([[]] for
    the compact form) and the current indentation. *)
Fixpoint stringify (gap indent : jsstring) (j : Json) : jsstring :=
  let inner := indent ++ gap in
  let wrap (opening closing : jsstring) (members : list jsstring) :=
    match members with
    | [] => opening ++ closing
    | _ =>
        match gap with
        | [] => opening ++ join (lit ",") members ++ closing
        | _ =>
            opening ++ [10%N] ++ inner
              ++ join (lit "," ++ [10%N] ++ inner) members
              ++ [10%N] ++ indent ++ closing
        end
    end in
  match j with
  | JNull => lit "null"
  | JBool true => lit "true"
  | JBool false => lit "false"
  | JNum r => if nonfinite r then lit "null" else r
  | JStr s => QuoteJSONString s
  | JArr items => wrap (lit "[") (lit "]") (map (stringify gap inner) items)
  | JObj fields =>
      wrap (lit "{") (lit "}")
        (map (fun kv =>
                QuoteJSONString (fst kv) ++ lit ":"
                  ++ match gap with [] => [] | _ => lit " " end
                  ++ stringify gap inner (snd kv))
             fields)
  end.

(** [Date.prototype.toISOString] of a time value: the civil date of the day
    number, then the time of day; years outside 0..9999 take a sign and
    six digits. *)
Local Open Scope Z_scope.

Definition ms_per_day : Z := 86400000.

Definition civil_from_days (days : Z) : Z * Z * Z :=
  let z := days + 719468 in
  let era := z / 146097 in
  let doe := z - era * 146097 in
  let yoe := (doe - doe / 1460 + doe / 36524 - doe / 146096) / 365 in
  let doy := doe - (365 * yoe + yoe / 4 - yoe / 100) in
  let mp := (5 * doy + 2) / 153 in
  let d := doy - (153 * mp + 2) / 5 + 1 in
  let m := if mp <? 10 then mp + 3 else mp - 9 in
  let y := yoe + era * 400 + (if m <=? 2 then 1 else 0) in
  (y, m, d).

Definition iso_year (y : Z) : jsstring :=
  if (0 <=? y) && (y <=? 9999) then fixed_digits 4 y
  else if y <? 0 then lit "-" ++ fixed_digits 6 (- y)
  else lit "+" ++ fixed_digits 6 y.

Definition toISOString (t : Z) : jsstring :=
  let '(y, m, d) := civil_from_days (t / ms_per_day) in
  let ms := t mod ms_per_day in
  iso_year y ++ lit "-" ++ fixed_digits 2 m ++ lit "-" ++ fixed_digits 2 d
    ++ lit "T" ++ fixed_digits 2 (ms / 3600000)
    ++ lit ":" ++ fixed_digits 2 ((ms / 60000) mod 60)
    ++ lit ":" ++ fixed_digits 2 ((ms / 1000) mod 60)
    ++ lit "." ++ fixed_digits 3 (ms mod 1000) ++ lit "Z".

Local Close Scope Z_scope.

(** [JSON.stringify(v)]: [None] is [undefined].  A date serialises through
    [toJSON], the quoted ISO text, or [null] when it is invalid.  None of
    these values has a cycle or a BigInt, so the call never throws. *)
Definition JSON_stringify (gap : jsstring) (v : JsVal) : Completion (option jsstring) :=
  match v with
  | VUndefined | VFun _ => Normal None
  | VJson j => Normal (Some (stringify gap [] j))
  | VDate (Some t) => Normal (Some (QuoteJSONString (toISOString t)))
  | VDate None => Normal (Some (lit "null"))
  | VBoxed p => Normal (Some (stringify gap [] p))
  end.

(** The gap of [JSON.stringify(v, null, 2)] *)
Definition two_spaces : jsstring := lit "  ".

(** ** Property reads

    [o[k]] looks at the own properties of the value first and then along
    its prototype chain.  The prototypes are those of ECMAScript 2023 with
    its Annex B: a method reads as a built-in function, [constructor] as the
    constructor function and [__proto__] as the prototype object. *)

Definition words (names : list string) : list jsstring := map lit names.

Definition mem_str (k : jsstring) (l : list jsstring) : bool :=
  existsb (str_eqb k) l.

Definition Object_prototype_methods : list jsstring :=
  words ["__defineGetter__"; "__defineSetter__"; "__lookupGetter__";
         "__lookupSetter__"; "hasOwnProperty"; "isPrototypeOf";
         "propertyIsEnumerable"; "toLocaleString"; "toString";
         "valueOf"]%string.

Definition Array_prototype_methods : list jsstring :=
  words ["at"; "concat"; "copyWithin"; "entries"; "every"; "fill"; "filter";
         "find"; "findIndex"; "findLast"; "findLastIndex"; "flat"; "flatMap";
         "forEach"; "includes"; "indexOf"; "join"; "keys"; "lastIndexOf";
         "map"; "pop"; "push"; "reduce"; "reduceRight"; "reverse"; "shift";
         "slice"; "some"; "sort"; "splice"; "toLocaleString"; "toReversed";
         "toSorted"; "toSpliced"; "toString"; "unshift"; "values";
         "with"]%string.

Definition String_prototype_methods : list jsstring :=
  words ["anchor"; "at"; "big"; "blink"; "bold"; "charAt"; "charCodeAt";
         "codePointAt"; "concat"; "endsWith"; "fixed"; "fontcolor";
         "fontsize"; "includes"; "indexOf"; "isWellFormed"; "italics";
         "lastIndexOf"; "link"; "localeCompare"; "match"; "matchAll";
         "normalize"; "padEnd"; "padStart"; "repeat"; "replace";
         "replaceAll"; "search"; "slice"; "small"; "split"; "startsWith";
         "strike"; "sub"; "substr"; "substring"; "sup"; "toLocaleLowerCase";
         "toLocaleUpperCase"; "toLowerCase"; "toString"; "toUpperCase";
         "toWellFormed"; "trim"; "trimEnd"; "trimLeft"; "trimRight";
         "trimStart"; "valueOf"]%string.

Definition Number_prototype_methods : list jsstring :=
  words ["toExponential"; "toFixed"; "toLocaleString"; "toPrecision";
         "toString"; "valueOf"]%string.

Definition Boolean_prototype_methods : list jsstring :=
  words ["toString"; "valueOf"]%string.

(** A property found on a prototype: [own_methods] are the methods of the
    first prototype of the chain, [ctor] the name of its constructor and
    [proto] the prototype object itself; [Object.prototype] ends the chain. *)
(** The name of the built-in function found under a method name:
    [trimLeft] and [trimRight] are the functions [trimStart] and
    [trimEnd]. *)
Definition method_name (k : jsstring) : jsstring :=
  if str_eqb k (lit "trimLeft") then lit "trimStart"
  else if str_eqb k (lit "trimRight") then lit "trimEnd"
  else k.

Definition inherited (own_methods : list jsstring) (ctor : string)
    (proto : JsVal) (k : jsstring) : JsVal :=
  if mem_str k own_methods then VFun (method_name k)
  else if str_eqb k (lit "constructor") then VFun (lit ctor)
  else if str_eqb k (lit "__proto__") then proto
  else if mem_str k Object_prototype_methods then VFun k
  else VUndefined.

(** The number a canonical array index denotes: decimal digits without a
    leading zero. *)
Definition is_digit (c : char16) : bool := (48 <=? c)%N && (c <=? 57)%N.

Definition digits_value (k : jsstring) : nat :=
  fold_left (fun acc c => 10 * acc + N.to_nat (c - 48)) k 0.

Definition array_index (k : jsstring) : option nat :=
  match k with
  | [] => None
  | [c] => if is_digit c then Some (N.to_nat (c - 48)) else None
  | c :: _ =>
      if forallb is_digit k && negb (c =? 48)%N then Some (digits_value k)
      else None
  end.

(** [o[k]] for a value [o] that is not [null] (reading from [null] throws,
    see [get]). *)
Definition get_property (o : Json) (k : jsstring) : JsVal :=
  match o with
  | JNull => VUndefined
  | JObj fields =>
      match assoc k fields with
      | Some v => VJson v
      | None => inherited [] "Object" (VJson (JObj [])) k
      end
  | JArr items =>
      match array_index k with
      | Some i =>
          match nth_error items i with
          | Some v => VJson v
          | None => VUndefined
          end
      | None =>
          if str_eqb k (lit "length") then VJson (JNum (dec (length items)))
          else inherited Array_prototype_methods "Array" (VJson (JArr [])) k
      end
  | JStr s =>
      match array_index k with
      | Some i =>
          match nth_error s i with
          | Some c => VJson (JStr [c])
          | None => VUndefined
          end
      | None =>
          if str_eqb k (lit "length") then VJson (JNum (dec (length s)))
          else inherited String_prototype_methods "String"
                 (VBoxed (JStr [])) k
      end
  | JNum _ =>
      inherited Number_prototype_methods "Number" (VBoxed (JNum (lit "0"))) k
  | JBool _ =>
      inherited Boolean_prototype_methods "Boolean" (VBoxed (JBool false)) k
  end.

(** [o[k]], throwing the engine's TypeError when [o] is [null]. *)
Definition get (H : Host) (o : Json) (k : jsstring) : Completion JsVal :=
  match o with
  | JNull => Throw (null_read_error H k)
  | _ => Normal (get_property o k)
  end.

(** [o?.[k]] *)
Definition get_optional (o : Json) (k : jsstring) : JsVal :=
  match o with
  | JNull => VUndefined
  | _ => get_property o k
  end.

(** ** escapeHtml and formatValue (app.js, lines 44-71) *)

(** [s.replace(/c/g, by)] for a pattern that is one character. *)
Definition replace_all (c : char16) (by_text : jsstring) (s : jsstring) : jsstring :=
  flat_map (fun x => if (x =? c)%N then by_text else [x]) s.

Definition escape_text (s : jsstring) : jsstring :=
  replace_all squote (lit "&#39;")
    (replace_all dquote (lit "&quot;")
       (replace_all gt_sign (lit "&gt;")
          (replace_all lt_sign (lit "&lt;")
             (replace_all amp (lit "&amp;") s)))).

Definition escapeHtml (H : Host) (value : JsVal) : Completion jsstring :=
  match String_ H value with
  | Normal text => Normal (escape_text text)
  | Throw e => Throw e
  end.

(** The argument [JSON.stringify] hands to [escapeHtml]. *)
Definition text_value (t : option jsstring) : JsVal :=
  match t with
  | Some s => VJson (JStr s)
  | None => VUndefined
  end.

Definition placeholder : jsstring :=
  lit "<span class=" ++ [dquote] ++ lit "muted" ++ [dquote]
    ++ lit ">—</span>".

Definition is_nullish (v : JsVal) : bool :=
  match v with
  | VUndefined | VJson JNull => true
  | _ => false
  end.

(** [d.toISOString()] *)
Definition Date_toISOString (H : Host) (tv : option Z) : Completion jsstring :=
  match tv with
  | Some t => Normal (toISOString t)
  | None => Throw (invalid_time_error H)
  end.

(** [escapeHtml(String(value))] *)
Definition escaped_String (H : Host) (value : JsVal) : Completion jsstring :=
  match String_ H value with
  | Normal text => escapeHtml H (VJson (JStr text))
  | Throw e => Throw e
  end.

Definition in_code (html : Completion jsstring) : Completion jsstring :=
  match html with
  | Normal e => Normal (lit "<code>" ++ e ++ lit "</code>")
  | Throw e => Throw e
  end.

Definition formatValue (H : Host) (value : JsVal) : Completion jsstring :=
  if is_nullish value then Normal placeholder
  else if is_object_tag (typeof value) then
    match match JSON_stringify [] value with
          | Normal text => in_code (escapeHtml H (text_value text))
          | Throw e => Throw e
          end with
    | Normal html => Normal html
    | Throw _ => in_code (escaped_String H value)
    end
  else if is_boolean_tag (typeof value) then
    Normal (if truthy value then lit "true" else lit "false")
  else
    match value with
    | VDate tv =>                       (* value instanceof Date *)
        match Date_toISOString H tv with
        | Normal iso => escapeHtml H (VJson (JStr iso))
        | Throw e => Throw e
        end
    | _ => escaped_String H value
    end.

(** ** The page, the store and the log *)

Inductive DatasetKey : Type := Contacts | Chats | Messages.

Record DatasetMeta : Type := mkMeta { key : DatasetKey; label : jsstring }.

Definition DATASETS : list DatasetMeta :=
  [ mkMeta Contacts (lit "Contatos");
    mkMeta Chats (lit "Conversas");
    mkMeta Messages (lit "Mensagens") ].

Definition key_text (k : DatasetKey) : jsstring :=
  match k with
  | Contacts => lit "contacts"
  | Chats => lit "chats"
  | Messages => lit "messages"
  end.

Definition key_eqb (a b : DatasetKey) : bool :=
  match a, b with
  | Contacts, Contacts | Chats, Chats | Messages, Messages => true
  | _, _ => false
  end.

(** The [state] object.  [dataset] only ever receives a key of [DATASETS]
    (its initial value, the fallback of [applyData], the key checked by
    [setActiveDataset]), so it is kept as a [DatasetKey]. *)
Record State : Type := mkState {
  summary : JsVal;
  contacts : list Json;
  chats : list Json;
  messages : list Json;
  dataset : DatasetKey
}.

Definition initial_state : State := mkState (VJson JNull) [] [] [] Contacts.

(** [state[key]] for a dataset key *)
Definition records_of (s : State) (k : DatasetKey) : list Json :=
  match k with
  | Contacts => contacts s
  | Chats => chats s
  | Messages => messages s
  end.

Inductive Level : Type := info | warn | error | success.

(** [level.toUpperCase()] *)
Definition level_upper (l : Level) : jsstring :=
  match l with
  | info => lit "INFO"
  | warn => lit "WARN"
  | error => lit "ERROR"
  | success => lit "SUCCESS"
  end.

Record LogCall : Type := mkLogCall { log_level : Level; log_line : jsstring }.

Record StatusLine : Type := mkStatus {
  status_text : jsstring;
  status_classes : list jsstring
}.

Record TestButton : Type := mkTestButton { disabled : bool; is_loading : bool }.

Record ToggleButton : Type := mkToggle {
  data_dataset : jsstring;
  toggle_text : jsstring;
  toggle_active : bool;
  toggle_empty : bool
}.

Record SummaryCard : Type := mkSummaryCard {
  summary_hidden : bool;
  summary_pre : option jsstring     (* the text of the [pre], if there is one *)
}.

Record MetricsCard : Type := mkMetricsCard {
  stats_hidden : bool;
  metrics_html : jsstring
}.

Record SamplesCard : Type := mkSamplesCard {
  samples_hidden : bool;
  sampleContacts : jsstring;
  sampleChats : jsstring;
  sampleMessages : jsstring
}.

Record TableCard : Type := mkTableCard {
  card_hidden : bool;
  empty_hidden : bool;
  empty_text : jsstring;
  table_hidden : bool;
  thead_html : jsstring;
  tbody_html : jsstring
}.

(** The elements of the host page that the script writes to.  The page is
    taken to have all of them. *)
Record Page : Type := mkPage {
  logOutput : jsstring;
  testStatus : StatusLine;
  btnTestRun : TestButton;
  toggles : list ToggleButton;
  summaryCard : SummaryCard;
  statsCard : MetricsCard;
  samplesCard : SamplesCard;
  tableCard : TableCard
}.

Inductive Method : Type := GET | POST.

(** Everything the script can change: its two variables [state] and
    [logLines], the page, the alerts shown and the requests sent.
    [logged] is a ghost trace of every [pushLog] call. *)
Record World : Type := mkWorld {
  state : State;
  logLines : list jsstring;
  logged : list LogCall;
  page : Page;
  alerts : list jsstring;
  requests : list (Method * jsstring)
}.

Definition initial_world (p : Page) : World :=
  mkWorld initial_state [] [] p [] [].

Definition set_state (f : State -> State) (w : World) : World :=
  mkWorld (f (state w)) (logLines w) (logged w) (page w) (alerts w) (requests w).

Definition set_page (f : Page -> Page) (w : World) : World :=
  mkWorld (state w) (logLines w) (logged w) (f (page w)) (alerts w) (requests w).

Definition set_testStatus (s : StatusLine) (p : Page) : Page :=
  mkPage (logOutput p) s (btnTestRun p) (toggles p) (summaryCard p)
    (statsCard p) (samplesCard p) (tableCard p).

Definition set_btnTestRun (b : TestButton) (p : Page) : Page :=
  mkPage (logOutput p) (testStatus p) b (toggles p) (summaryCard p)
    (statsCard p) (samplesCard p) (tableCard p).

Definition set_toggles (t : list ToggleButton) (p : Page) : Page :=
  mkPage (logOutput p) (testStatus p) (btnTestRun p) t (summaryCard p)
    (statsCard p) (samplesCard p) (tableCard p).

Definition set_summaryCard (c : SummaryCard) (p : Page) : Page :=
  mkPage (logOutput p) (testStatus p) (btnTestRun p) (toggles p) c
    (statsCard p) (samplesCard p) (tableCard p).

Definition set_statsCard (c : MetricsCard) (p : Page) : Page :=
  mkPage (logOutput p) (testStatus p) (btnTestRun p) (toggles p)
    (summaryCard p) c (samplesCard p) (tableCard p).

Definition set_samplesCard (c : SamplesCard) (p : Page) : Page :=
  mkPage (logOutput p) (testStatus p) (btnTestRun p) (toggles p)
    (summaryCard p) (statsCard p) c (tableCard p).

Definition set_tableCard (c : TableCard) (p : Page) : Page :=
  mkPage (logOutput p) (testStatus p) (btnTestRun p) (toggles p)
    (summaryCard p) (statsCard p) (samplesCard p) c.

(** ** Running the script: state and exceptions *)

Definition M (A : Type) : Type := World -> Completion A * World.

Definition ret {A} (a : A) : M A := fun w => (Normal a, w).

Definition bind {A B} (c : M A) (k : A -> M B) : M B :=
  fun w =>
    match c w with
    | (Normal a, w') => k a w'
    | (Throw e, w') => (Throw e, w')
    end.

Definition throw {A} (e : JsError) : M A := fun w => (Throw e, w).

(** [try { c } catch (err) { handler err }] *)
Definition try_catch {A} (c : M A) (handler : JsError -> M A) : M A :=
  fun w =>
    match c w with
    | (Normal a, w') => (Normal a, w')
    | (Throw e, w') => handler e w'
    end.

(** [try { c } finally { f }], for an [f] that does not throw *)
Definition finally {A} (c : M A) (f : World -> World) : M A :=
  fun w => let '(r, w') := c w in (r, f w').

Definition lift {A} (c : Completion A) : M A := fun w => (c, w).

Definition modify (f : World -> World) : M unit := fun w => (Normal tt, f w).

Definition read {A} (f : World -> A) : M A := fun w => (Normal (f w), w).

Declare Scope js_scope.
Delimit Scope js_scope with js.
Notation "x <- c ;; k" := (bind c (fun x => k))
  (at level 61, c at next level, right associativity) : js_scope.
Notation "c ;; k" := (bind c (fun _ => k))
  (at level 61, right associativity) : js_scope.
Local Open Scope js_scope.

(** ** pushLog (lines 20-37) *)

Definition LOG_LIMIT : nat := 400.

Definition log_line_text (H : Host) (n : nat) (message : jsstring)
    (level : Level) (details : option jsstring) : jsstring :=
  let line := lit "[" ++ now H n ++ lit "] [" ++ level_upper level ++ lit "] "
              ++ message in
  match details with
  | Some (c :: d) => line ++ [10%N] ++ c :: d
  | _ => line
  end.

(** [logLines.push(line); if (logLines.length > 400) logLines.shift();] *)
Definition push_shift (lines : list jsstring) (line : jsstring) : list jsstring :=
  let pushed := lines ++ [line] in
  if LOG_LIMIT <? length pushed then tl pushed else pushed.

Definition pushLog (H : Host) (message : jsstring) (level : Level)
    (details : option jsstring) : M unit :=
  fun w =>
    let line := log_line_text H (length (logged w)) message level details in
    let lines := push_shift (logLines w) line in
    let p := page w in
    (Normal tt,
     mkWorld (state w) lines (logged w ++ [mkLogCall level line])
       (mkPage (join [10%N; 10%N] lines) (testStatus p) (btnTestRun p)
          (toggles p) (summaryCard p) (statsCard p) (samplesCard p)
          (tableCard p))
       (alerts w) (requests w)).

(** ** fetchJSON, fetchText (lines 73-93) *)

Inductive FetchOutcome : Type :=
| NetworkError (e : JsError)
| Response (ok : bool) (body : Completion jsstring).

(** What the network answers to a request. *)
Definition Net : Type := Method -> jsstring -> FetchOutcome.

Record Resp : Type := mkResp { resp_ok : bool; resp_body : Completion jsstring }.

Definition fetch (net : Net) (m : Method) (url : jsstring) : M Resp :=
  fun w =>
    let w' := mkWorld (state w) (logLines w) (logged w) (page w) (alerts w)
                (requests w ++ [(m, url)]) in
    match net m url with
    | NetworkError e => (Throw e, w')
    | Response ok body => (Normal (mkResp ok body), w')
    end.

(** [res.json()] *)
Definition resp_json (H : Host) (r : Resp) : Completion Json :=
  match resp_body r with
  | Normal text => JSON_parse H text
  | Throw e => Throw e
  end.

Definition fetchJSON (H : Host) (net : Net) (url : jsstring) : M Json :=
  try_catch
    (res <- fetch net GET url ;;
     if negb (resp_ok res) then ret JNull
     else lift (resp_json H res))
    (fun e =>
       pushLog H (lit "Falha ao buscar JSON em " ++ url) warn
         (Some (err_message e)) ;;
       ret JNull).

(** The result is [None] for [null]. *)
Definition fetchText (H : Host) (net : Net) (url : jsstring) : M (option jsstring) :=
  try_catch
    (res <- fetch net GET url ;;
     if negb (resp_ok res) then ret None
     else text <- lift (resp_body res) ;; ret (Some text))
    (fun e =>
       pushLog H (lit "Falha ao buscar texto em " ++ url) warn
         (Some (err_message e)) ;;
       ret None).

(** ** parseNDJSON (lines 95-113) *)

(** [text.split(/\r?\n/)] *)
Fixpoint split_lines (s : jsstring) : list jsstring :=
  match s with
  | [] => [[]]
  | c :: rest =>
      let keep :=
        match split_lines rest with
        | l :: ls => (c :: l) :: ls
        | [] => [[c]]
        end in
      if (c =? 10)%N then [] :: split_lines rest
      else if (c =? 13)%N then
        match rest with
        | d :: rest' => if (d =? 10)%N then [] :: split_lines rest' else keep
        | [] => keep
        end
      else keep
  end.

(** White space and line terminators, what [trim] removes. *)
Definition is_space (c : char16) : bool :=
  existsb (N.eqb c)
    [9; 10; 11; 12; 13; 32; 160; 5760; 8232; 8233; 8239; 8287; 12288; 65279]%N
  || ((8192 <=? c)%N && (c <=? 8202)%N).

Fixpoint trim_start (s : jsstring) : jsstring :=
  match s with
  | [] => []
  | c :: rest => if is_space c then trim_start rest else s
  end.

Definition trim (s : jsstring) : jsstring :=
  rev (trim_start (rev (trim_start s))).

(** The body of [lines.forEach((line, index) => ...)], from [index] on. *)
Fixpoint parse_lines (H : Host) (sourceLabel : option jsstring)
    (lines : list jsstring) (index : nat) (out : list Json) : M (list Json) :=
  match lines with
  | [] => ret out
  | line :: rest =>
      let trimmed := trim line in
      match trimmed with
      | [] => parse_lines H sourceLabel rest (S index) out
      | _ =>
          match JSON_parse H trimmed with
          | Normal v => parse_lines H sourceLabel rest (S index) (out ++ [v])
          | Throw err =>
              pushLog H
                (lit "Não foi possível interpretar uma linha em "
                   ++ (if truthy_text sourceLabel
                       then match sourceLabel with Some l => l | None => [] end
                       else lit "NDJSON"))
                error
                (Some (lit "Linha " ++ dec (index + 1) ++ lit ": "
                         ++ err_message err)) ;;
              parse_lines H sourceLabel rest (S index) out
          end
      end
  end.

Definition parseNDJSON (H : Host) (text : option jsstring)
    (sourceLabel : option jsstring) : M (list Json) :=
  if negb (truthy_text text) then ret []
  else
    match text with
    | Some t => parse_lines H sourceLabel (split_lines t) 0 []
    | None => ret []
    end.

(** ** The views (lines 124-286) *)

Fixpoint mapC {A B} (f : A -> Completion B) (l : list A) : Completion (list B) :=
  match l with
  | [] => Normal []
  | x :: rest =>
      match f x with
      | Throw e => Throw e
      | Normal y =>
          match mapC f rest with
          | Throw e => Throw e
          | Normal ys => Normal (y :: ys)
          end
      end
  end.

Definition updateStatus (text : jsstring) (statusClass : option jsstring) : M unit :=
  modify (set_page (set_testStatus
    (mkStatus text
       (lit "status-text"
          :: (if truthy_text statusClass
              then match statusClass with Some c => [c] | None => [] end
              else []))))).

(** [DATASETS.some((d) => state[d.key].length > 0)] *)
Definition hasRecords (s : State) : bool :=
  existsb (fun d => 0 <? length (records_of s (key d))) DATASETS.

Definition update_button (s : State) (btn : ToggleButton) : ToggleButton :=
  match find (fun d => str_eqb (key_text (key d)) (data_dataset btn)) DATASETS with
  | None => btn
  | Some meta =>
      let count := length (records_of s (key meta)) in
      mkToggle (data_dataset btn)
        (label meta ++ lit " (" ++ dec count ++ lit ")")
        (str_eqb (key_text (dataset s)) (data_dataset btn))
        (count =? 0)
  end.

Definition updateDatasetButtons : M unit :=
  modify (fun w =>
    set_page (fun p => set_toggles (map (update_button (state w)) (toggles p)) p) w).

Definition no_summary_notice : Json :=
  JObj [(lit "info",
         JStr (lit "Sem summary carregado. Use o teste rápido ou faça upload dos arquivos."))].

Definition updateSummaryCard : M unit :=
  s <- read state ;;
  let hasSummary := truthy (summary s) in
  if negb hasSummary && negb (hasRecords s) then
    modify (set_page (set_summaryCard (mkSummaryCard true None)))
  else
    let summaryData := if truthy (summary s) then summary s
                       else VJson no_summary_notice in
    text <- lift (JSON_stringify two_spaces summaryData) ;;
    modify (set_page (set_summaryCard
      (mkSummaryCard false
         (Some match text with Some t => t | None => [] end)))).

(** [v === true] *)
Definition is_true (v : JsVal) : bool :=
  match v with VJson (JBool true) => true | _ => false end.

(** [items.filter((item) => item.exported_to_chatwoot === true).length] *)
Fixpoint count_exported (H : Host) (items : list Json) : Completion nat :=
  match items with
  | [] => Normal 0
  | item :: rest =>
      match get H item (lit "exported_to_chatwoot") with
      | Throw e => Throw e
      | Normal v =>
          match count_exported H rest with
          | Throw e => Throw e
          | Normal n => Normal (if is_true v then S n else n)
          end
      end
  end.

Definition metric_item (name : jsstring) (count : nat) (word : jsstring)
    (exported : nat) : jsstring :=
  lit "<li><strong>" ++ name ++ lit "</strong>: " ++ dec count ++ lit " ("
    ++ word ++ lit ": " ++ dec exported ++ lit ")</li>".

Definition updateMetricsCard (H : Host) : M unit :=
  s <- read state ;;
  let any := existsb (fun value => 0 <? value)
               [length (contacts s); length (chats s); length (messages s)] in
  if negb any then
    modify (set_page (set_statsCard (mkMetricsCard true [])))
  else
    modify (set_page (fun p =>
      set_statsCard (mkMetricsCard false (metrics_html (statsCard p))) p)) ;;
    exportedContacts <- lift (count_exported H (contacts s)) ;;
    exportedChats <- lift (count_exported H (chats s)) ;;
    exportedMessages <- lift (count_exported H (messages s)) ;;
    modify (set_page (set_statsCard
      (mkMetricsCard false
         (metric_item (lit "Contatos") (length (contacts s)) (lit "exportados")
            exportedContacts
          ++ metric_item (lit "Conversas") (length (chats s)) (lit "exportadas")
               exportedChats
          ++ metric_item (lit "Mensagens") (length (messages s))
               (lit "exportadas") exportedMessages)))).

Definition sample_text (records : list Json) : jsstring :=
  match records with
  | [] => lit "Sem dados carregados."
  | _ => stringify two_spaces [] (JArr (firstn 5 records))
  end.

Definition updateSamplesCard : M unit :=
  s <- read state ;;
  if negb (hasRecords s) then
    modify (set_page (fun p =>
      let c := samplesCard p in
      set_samplesCard
        (mkSamplesCard true (sampleContacts c) (sampleChats c) (sampleMessages c))
        p))
  else
    modify (set_page (set_samplesCard
      (mkSamplesCard false (sample_text (contacts s)) (sample_text (chats s))
         (sample_text (messages s))))).

(** *** updateDataTable (lines 221-278) *)

(** [record && typeof record === 'object' && !Array.isArray(record)] *)
Definition is_plain_object (record : Json) : bool :=
  truthy_json record && is_object_tag (typeof (VJson record))
  && negb (isArray (VJson record)).

(** [Object.keys(o)] *)
Definition Object_keys (o : Json) : list jsstring :=
  match o with
  | JObj fields => map fst fields
  | JArr items => map dec (seq 0 (length items))
  | JStr s => map dec (seq 0 (length s))
  | _ => []
  end.

(** [columns.add(key)] on a [Set], kept in insertion order *)
Definition set_add (columns : list jsstring) (k : jsstring) : list jsstring :=
  if mem_str k columns then columns else columns ++ [k].

(** The body of [records.forEach((record) => ...)] *)
Definition add_record_columns (columns : list jsstring) (record : Json)
  : list jsstring :=
  if is_plain_object record
  then fold_left set_add (Object_keys record) columns
  else columns.

Definition collect_columns (records : list Json) : list jsstring :=
  fold_left add_record_columns records [].

(** The order of [Array.prototype.sort()] without a comparator: strings
    compared code unit by code unit. *)
Fixpoint str_leb (a b : jsstring) : bool :=
  match a, b with
  | [], _ => true
  | _ :: _, [] => false
  | x :: a', y :: b' =>
      if (x <? y)%N then true
      else if (x =? y)%N then str_leb a' b'
      else false
  end.

Fixpoint insert_sorted (x : jsstring) (l : list jsstring) : list jsstring :=
  match l with
  | [] => [x]
  | y :: rest => if str_leb x y then x :: l else y :: insert_sorted x rest
  end.

Definition sort_strings (l : list jsstring) : list jsstring :=
  fold_right insert_sorted [] l.

(** [Array.from(columns).sort()] *)
Definition columnList_of (records : list Json) : list jsstring :=
  sort_strings (collect_columns records).

(** [`<th>${escapeHtml(col)}</th>`] *)
Definition header_cell (H : Host) (col : jsstring) : Completion jsstring :=
  match escapeHtml H (VJson (JStr col)) with
  | Normal text => Normal (lit "<th>" ++ text ++ lit "</th>")
  | Throw e => Throw e
  end.

Definition header_cells (H : Host) (columnList : list jsstring)
  : Completion (list jsstring) :=
  mapC (header_cell H) columnList.

Definition thead_of (H : Host) (columnList : list jsstring) : Completion jsstring :=
  match header_cells H columnList with
  | Normal cells => Normal (lit "<tr>" ++ join [] cells ++ lit "</tr>")
  | Throw e => Throw e
  end.

(** [record ? record[col] : undefined] *)
Definition cell_value (record : Json) (col : jsstring) : JsVal :=
  if truthy_json record then get_property record col else VUndefined.

(** [`<td>${formatValue(value)}</td>`] *)
Definition cell_html (H : Host) (record : Json) (col : jsstring) : Completion jsstring :=
  match formatValue H (cell_value record col) with
  | Normal html => Normal (lit "<td>" ++ html ++ lit "</td>")
  | Throw e => Throw e
  end.

Definition row_cells (H : Host) (columnList : list jsstring) (record : Json)
  : Completion (list jsstring) :=
  mapC (cell_html H record) columnList.

Definition row_html (H : Host) (columnList : list jsstring) (record : Json)
  : Completion jsstring :=
  match row_cells H columnList record with
  | Normal cells => Normal (lit "<tr>" ++ join [] cells ++ lit "</tr>")
  | Throw e => Throw e
  end.

Definition rowsHtml (H : Host) (columnList : list jsstring) (records : list Json)
  : Completion (list jsstring) :=
  mapC (row_html H columnList) records.

Definition updateDataTable (H : Host) : M unit :=
  s <- read state ;;
  if negb (hasRecords s) then
    modify (set_page (set_tableCard
      (mkTableCard true false
         (lit "Carregue dados para visualizar os campos aqui.") true [] [])))
  else
    modify (set_page (fun p =>
      let c := tableCard p in
      set_tableCard
        (mkTableCard false (empty_hidden c) (empty_text c) (table_hidden c)
           (thead_html c) (tbody_html c)) p)) ;;
    let activeMeta :=
      match find (fun d => key_eqb (key d) (dataset s)) DATASETS with
      | Some d => d
      | None => mkMeta Contacts (lit "Contatos")
      end in
    let records := records_of s (key activeMeta) in
    updateDatasetButtons ;;
    match records with
    | [] =>
        modify (set_page (set_tableCard
          (mkTableCard false false
             (lit "Nenhum registro carregado para " ++ label activeMeta ++ lit ".")
             true [] [])))
    | _ =>
        modify (set_page (fun p =>
          let c := tableCard p in
          set_tableCard
            (mkTableCard false true (empty_text c) false (thead_html c)
               (tbody_html c)) p)) ;;
        let columnList := columnList_of records in
        thead <- lift (thead_of H columnList) ;;
        modify (set_page (fun p =>
          let c := tableCard p in
          set_tableCard
            (mkTableCard (card_hidden c) (empty_hidden c) (empty_text c)
               (table_hidden c) thead (tbody_html c)) p)) ;;
        rows <- lift (rowsHtml H columnList records) ;;
        modify (set_page (fun p =>
          let c := tableCard p in
          set_tableCard
            (mkTableCard (card_hidden c) (empty_hidden c) (empty_text c)
               (table_hidden c) (thead_html c) (join [] rows)) p))
    end.

Definition refreshUI (H : Host) : M unit :=
  updateDatasetButtons ;;
  updateSummaryCard ;;
  updateMetricsCard H ;;
  updateDataTable H ;;
  updateSamplesCard.

(** ** applyData (lines 288-308) *)

(** [v ?? fallback] *)
Definition nullish_or (v fallback : JsVal) : JsVal :=
  if is_nullish v then fallback else v.

(** [Array.isArray(v) ? v : []] *)
Definition array_or_empty (v : JsVal) : list Json :=
  if isArray v then
    match v with
    | VJson (JArr items) => items
    | _ => []
    end
  else [].

Definition counts_text (s : State) : jsstring :=
  join (lit " | ")
    (map (fun d => label d ++ lit ": " ++ dec (length (records_of s (key d))))
       DATASETS).

(** Lines 289-297: the four fields are taken from the payload. *)
Definition replace_snapshot (payload : Json) (s : State) : State :=
  let summary' := nullish_or (get_optional payload (lit "summary")) (VJson JNull) in
  let contacts' := array_or_empty (get_optional payload (lit "contacts")) in
  let chats' := array_or_empty (get_optional payload (lit "chats")) in
  let messages' := array_or_empty (get_optional payload (lit "messages")) in
  mkState summary' contacts' chats' messages' (dataset s).

(** Lines 299-302: an active dataset without records gives way to the
    first dataset that has some. *)
Definition reselect_dataset (s : State) : State :=
  match records_of s (dataset s) with
  | [] =>
      let fallback := find (fun d => 0 <? length (records_of s (key d))) DATASETS in
      mkState (summary s) (contacts s) (chats s) (messages s)
        match fallback with
        | Some d => key d
        | None => Contacts
        end
  | _ => s
  end.

Definition applyData (H : Host) (payload : Json) (sourceLabel : jsstring) : M unit :=
  modify (set_state (replace_snapshot payload)) ;;
  modify (set_state reselect_dataset) ;;
  refreshUI H ;;
  s <- read state ;;
  pushLog H (sourceLabel ++ lit ": dados atualizados") success (Some (counts_text s)).

(** ** loadByPrefix (lines 310-345) *)

Definition alert (message : jsstring) : M unit :=
  modify (fun w =>
    mkWorld (state w) (logLines w) (logged w) (page w) (alerts w ++ [message])
      (requests w)).

(** [String(err)] of an error object *)
Definition Error_toString (e : JsError) : jsstring :=
  match err_name e, err_message e with
  | [], m => m
  | n, [] => n
  | n, m => n ++ lit ": " ++ m
  end.

(** [err.stack || String(err)] *)
Definition stack_or_text (e : JsError) : jsstring :=
  if truthy_text (err_stack e)
  then match err_stack e with Some s => s | None => [] end
  else Error_toString e.

(** [a || b] on two fetched texts *)
Definition or_text (a : option jsstring) (b : M (option jsstring)) : M (option jsstring) :=
  if truthy_text a then ret a else b.

Definition loadByPrefix (H : Host) (net : Net) (prefix : jsstring) : M unit :=
  let trimmed := trim prefix in
  match trimmed with
  | [] => alert (lit "Informe um prefixo")
  | _ =>
      pushLog H (lit "Carregando dados a partir do prefixo " ++ trimmed) info None ;;
      let base := lit "../data/" ++ trimmed in
      try_catch
        (summary0 <- fetchJSON H net (base ++ lit "/summary.json") ;;
         summary1 <- (if negb (truthy_json summary0)
                      then fetchJSON H net (base ++ lit "/load_summary.json")
                      else ret summary0) ;;
         c0 <- fetchText H net (base ++ lit "/contacts_export_status.ndjson") ;;
         contactsText <- or_text c0 (fetchText H net (base ++ lit "/contacts.ndjson")) ;;
         h0 <- fetchText H net (base ++ lit "/chats_export_status.ndjson") ;;
         chatsText <- or_text h0 (fetchText H net (base ++ lit "/chats.ndjson")) ;;
         m0 <- fetchText H net (base ++ lit "/messages_export_status.ndjson") ;;
         messagesText <- or_text m0 (fetchText H net (base ++ lit "/messages.ndjson")) ;;
         (if negb (truthy_json summary1) && negb (truthy_text contactsText)
             && negb (truthy_text chatsText) && negb (truthy_text messagesText)
          then pushLog H (lit "Nenhum arquivo encontrado em " ++ base) warn None
          else ret tt) ;;
         contacts' <- parseNDJSON H contactsText (Some (lit "Contatos (prefixo)")) ;;
         chats' <- parseNDJSON H chatsText (Some (lit "Conversas (prefixo)")) ;;
         messages' <- parseNDJSON H messagesText (Some (lit "Mensagens (prefixo)")) ;;
         applyData H
           (JObj [(lit "summary", summary1); (lit "contacts", JArr contacts');
                  (lit "chats", JArr chats'); (lit "messages", JArr messages')])
           (lit "Prefixo " ++ trimmed))
        (fun err =>
           pushLog H (lit "Erro ao carregar prefixo " ++ trimmed) error
             (Some (stack_or_text err)) ;;
           alert (lit "Falha ao carregar prefixo: " ++ err_message err))
  end.

(** ** loadFromFiles (lines 347-397)

    A selected file is given by the outcome of reading it as text; [None]
    is an input without a file. *)

Definition read_dataset_file (H : Host) (file : option (Completion jsstring))
    (sourceLabel failure : jsstring) : M (list Json) :=
  match file with
  | Some content =>
      try_catch
        (text <- lift content ;; parseNDJSON H (Some text) (Some sourceLabel))
        (fun err => pushLog H failure error (Some (err_message err)) ;; ret [])
  | None => ret []
  end.

Definition loadFromFiles (H : Host)
    (summaryFile contactsFile chatsFile messagesFile : option (Completion jsstring))
  : M unit :=
  match summaryFile, contactsFile, chatsFile, messagesFile with
  | None, None, None, None =>
      alert (lit "Selecione ao menos um arquivo para carregar.")
  | _, _, _, _ =>
      pushLog H (lit "Carregando arquivos locais selecionados") info None ;;
      summary' <- match summaryFile with
                  | Some content =>
                      try_catch
                        (text <- lift content ;; lift (JSON_parse H text))
                        (fun err =>
                           pushLog H (lit "Não foi possível ler o arquivo de resumo")
                             error (Some (err_message err)) ;;
                           ret JNull)
                  | None => ret JNull
                  end ;;
      contacts' <- read_dataset_file H contactsFile
                     (lit "Contatos (arquivo local)")
                     (lit "Falha ao ler contatos locais") ;;
      chats' <- read_dataset_file H chatsFile
                  (lit "Conversas (arquivo local)")
                  (lit "Falha ao ler conversas locais") ;;
      messages' <- read_dataset_file H messagesFile
                     (lit "Mensagens (arquivo local)")
                     (lit "Falha ao ler mensagens locais") ;;
      applyData H
        (JObj [(lit "summary", summary'); (lit "contacts", JArr contacts');
               (lit "chats", JArr chats'); (lit "messages", JArr messages')])
        (lit "Arquivos locais")
  end.

(** ** setActiveDataset (lines 399-404) *)

Definition setActiveDataset (H : Host) (k : jsstring) : M unit :=
  match k with
  | [] => ret tt
  | _ =>
      match find (fun d => str_eqb (key_text (key d)) k) DATASETS with
      | None => ret tt
      | Some d =>
          modify (set_state (fun s =>
            mkState (summary s) (contacts s) (chats s) (messages s) (key d))) ;;
          pushLog H (lit "Visualização alterada para " ++ k) info None ;;
          updateDataTable H
      end
  end.

(** ** runTest (lines 406-449) *)

(** [v?.[k]] for the value of a property read.  The script applies it to
    [payload.contacts], [payload.chats] and [payload.messages] only, which
    are [undefined] or JSON values (see [data_key_read]). *)
Definition get_optional_val (v : JsVal) (k : jsstring) : JsVal :=
  match v with
  | VJson j => get_optional j k
  | _ => VUndefined
  end.

Definition test_endpoint : jsstring := lit "/.netlify/functions/test_run".

(** [payload.key?.length ?? 0], as text *)
Definition length_text (H : Host) (payload : Json) (k : jsstring) : Completion jsstring :=
  match get H payload k with
  | Throw e => Throw e
  | Normal v =>
      String_ H (nullish_or (get_optional_val v (lit "length"))
                   (VJson (JNum (lit "0"))))
  end.

(** The [try] block of [runTest] (lines 417-441). *)
Definition runTest_attempt (H : Host) (net : Net) : M unit :=
  response <- fetch net POST test_endpoint ;;
  text <- lift (resp_body response) ;;
  payload <- try_catch
               (lift (JSON_parse H match text with [] => lit "{}" | _ => text end))
               (fun _ => throw (new_Error H
                  (lit "Resposta inválida da função (JSON malformado)."))) ;;
  (if negb (resp_ok response) then
     error_field <- lift (get H payload (lit "error")) ;;
     let errorMessage :=
       if truthy error_field then error_field
       else VJson (JStr (lit "Falha na função serverless")) in
     hint_field <- lift (get H payload (lit "hint")) ;;
     hint <- (if truthy hint_field
              then hint_text <- lift (String_ H hint_field) ;;
                   ret ([10%N] ++ lit "Dica: " ++ hint_text)
              else ret []) ;;
     message <- lift (String_ H errorMessage) ;;
     throw (new_Error H (message ++ hint))
   else ret tt) ;;
  applyData H payload (lit "Teste rápido") ;;
  updateStatus (lit "Teste concluído com sucesso.") (Some (lit "success")) ;;
  nc <- lift (length_text H payload (lit "contacts")) ;;
  nh <- lift (length_text H payload (lit "chats")) ;;
  nm <- lift (length_text H payload (lit "messages")) ;;
  pushLog H (lit "Teste rápido concluído") success
    (Some (lit "Contatos: " ++ nc ++ lit " | Conversas: " ++ nh
             ++ lit " | Mensagens: " ++ nm)).

Definition runTest (H : Host) (net : Net) : M unit :=
  modify (set_page (set_btnTestRun (mkTestButton true true))) ;;
  updateStatus (lit "Executando teste rápido…") (Some (lit "loading")) ;;
  pushLog H (lit "Executando teste rápido na função serverless…") info None ;;
  finally
    (try_catch
       (runTest_attempt H net)
       (fun err =>
          updateStatus (lit "Erro: " ++ err_message err) (Some (lit "error")) ;;
          pushLog H (lit "Erro ao executar teste rápido") error
            (Some (stack_or_text err))))
    (set_page (set_btnTestRun (mkTestButton false false))).

(** ** A reference host

    An instance of [Host] for running the script on concrete inputs.  Its
    decoder follows the JSON grammar and the property order of the language
    (integer keys first, in ascending order, then the others as they come; a
    repeated key keeps its place and takes the last value).  Numerals are
    limited to integers of at most 15 digits, whose printed form is the
    numeral itself; any other numeral is refused, which [JSON.parse] would
    not do.  The theorems below hold for every host and do not depend on
    this instance. *)

Module Reference.

Definition is_json_space (c : char16) : bool :=
  (c =? 32)%N || (c =? 9)%N || (c =? 10)%N || (c =? 13)%N.

Fixpoint skip_ws (s : jsstring) : jsstring :=
  match s with
  | c :: rest => if is_json_space c then skip_ws rest else s
  | [] => []
  end.

Fixpoint expect (word s : jsstring) : option jsstring :=
  match word, s with
  | [], _ => Some s
  | w :: word', c :: s' => if (w =? c)%N then expect word' s' else None
  | _ :: _, [] => None
  end.

Definition hex_value (c : char16) : option N :=
  if is_digit c then Some (c - 48)%N
  else if (97 <=? c)%N && (c <=? 102)%N then Some (c - 87)%N
  else if (65 <=? c)%N && (c <=? 70)%N then Some (c - 55)%N
  else None.

Definition simple_escape (c : char16) : option char16 :=
  if (c =? 34)%N then Some 34%N
  else if (c =? 92)%N then Some 92%N
  else if (c =? 47)%N then Some 47%N
  else if (c =? 98)%N then Some 8%N
  else if (c =? 102)%N then Some 12%N
  else if (c =? 110)%N then Some 10%N
  else if (c =? 114)%N then Some 13%N
  else if (c =? 116)%N then Some 9%N
  else None.

(** The characters of a string literal after its opening quote. *)
Fixpoint string_body (s acc : jsstring) : option (jsstring * jsstring) :=
  match s with
  | [] => None
  | c :: rest =>
      if (c =? 34)%N then Some (acc, rest)
      else if (c =? 92)%N then
        match rest with
        | [] => None
        | e :: rest1 =>
            if (e =? 117)%N then
              match rest1 with
              | h1 :: h2 :: h3 :: h4 :: rest2 =>
                  match hex_value h1, hex_value h2, hex_value h3, hex_value h4 with
                  | Some a, Some b, Some c', Some d =>
                      string_body rest2 (acc ++ [a * 4096 + b * 256 + c' * 16 + d])%N
                  | _, _, _, _ => None
                  end
              | _ => None
              end
            else
              match simple_escape e with
              | Some ch => string_body rest1 (acc ++ [ch])
              | None => None
              end
        end
      else if (c <? 32)%N then None
      else string_body rest (acc ++ [c])
  end.

Fixpoint take_digits (s acc : jsstring) : jsstring * jsstring :=
  match s with
  | c :: rest => if is_digit c then take_digits rest (acc ++ [c]) else (acc, s)
  | [] => (acc, [])
  end.

Definition starts_fraction (s : jsstring) : bool :=
  match s with
  | c :: _ => (c =? 46)%N || (c =? 101)%N || (c =? 69)%N
  | [] => false
  end.

Definition number_literal (s : jsstring) : option (Json * jsstring) :=
  let '(negative, s1) :=
    match s with
    | c :: rest => if (c =? 45)%N then (true, rest) else (false, s)
    | [] => (false, s)
    end in
  let '(digits, rest) := take_digits s1 [] in
  match digits with
  | [] => None
  | d :: more =>
      if (d =? 48)%N && negb (match more with [] => true | _ => false end) then None
      else if starts_fraction rest then None
      else if 15 <? length digits then None
      else if (d =? 48)%N then Some (JNum (lit "0"), rest)
      else Some (JNum ((if negative then lit "-" else []) ++ digits), rest)
  end.

(** [CreateDataProperty]: a key seen before keeps its place. *)
Fixpoint define_property (fields : list (jsstring * Json)) (k : jsstring) (v : Json)
  : list (jsstring * Json) :=
  match fields with
  | [] => [(k, v)]
  | (k', v') :: rest =>
      if str_eqb k k' then (k, v) :: rest
      else (k', v') :: define_property rest k v
  end.

Fixpoint insert_index (i : nat) (kv : jsstring * Json)
    (l : list (nat * (jsstring * Json))) : list (nat * (jsstring * Json)) :=
  match l with
  | [] => [(i, kv)]
  | (j, kv') :: rest =>
      if i <=? j then (i, kv) :: l else (j, kv') :: insert_index i kv rest
  end.

Definition enumeration_order (fields : list (jsstring * Json))
  : list (jsstring * Json) :=
  let indexed :=
    fold_right
      (fun kv acc =>
         match array_index (fst kv) with
         | Some i => insert_index i kv acc
         | None => acc
         end)
      [] fields in
  map snd indexed
    ++ filter (fun kv => match array_index (fst kv) with
                         | Some _ => false
                         | None => true
                         end) fields.

Fixpoint value (fuel : nat) (s : jsstring) : option (Json * jsstring) :=
  match fuel with
  | O => None
  | S fuel' =>
      match skip_ws s with
      | [] => None
      | c :: rest =>
          if (c =? 110)%N then option_map (pair JNull) (expect (lit "ull") rest)
          else if (c =? 116)%N then
            option_map (pair (JBool true)) (expect (lit "rue") rest)
          else if (c =? 102)%N then
            option_map (pair (JBool false)) (expect (lit "alse") rest)
          else if (c =? 34)%N then
            match string_body rest [] with
            | Some (str, rest') => Some (JStr str, rest')
            | None => None
            end
          else if (c =? 91)%N then
            match skip_ws rest with
            | d :: rest' =>
                if (d =? 93)%N then Some (JArr [], rest')
                else elements fuel' rest []
            | [] => None
            end
          else if (c =? 123)%N then
            match skip_ws rest with
            | d :: rest' =>
                if (d =? 125)%N then Some (JObj [], rest')
                else members fuel' rest []
            | [] => None
            end
          else number_literal (c :: rest)
      end
  end

with elements (fuel : nat) (s : jsstring) (acc : list Json)
  : option (Json * jsstring) :=
  match fuel with
  | O => None
  | S fuel' =>
      match value fuel' s with
      | None => None
      | Some (v, rest) =>
          match skip_ws rest with
          | c :: rest' =>
              if (c =? 44)%N then elements fuel' rest' (acc ++ [v])
              else if (c =? 93)%N then Some (JArr (acc ++ [v]), rest')
              else None
          | [] => None
          end
      end
  end

with members (fuel : nat) (s : jsstring) (acc : list (jsstring * Json))
  : option (Json * jsstring) :=
  match fuel with
  | O => None
  | S fuel' =>
      match skip_ws s with
      | q :: after_quote =>
          if (q =? 34)%N then
            match string_body after_quote [] with
            | None => None
            | Some (k, rest) =>
                match skip_ws rest with
                | colon :: rest1 =>
                    if (colon =? 58)%N then
                      match value fuel' rest1 with
                      | None => None
                      | Some (v, rest2) =>
                          let acc' := define_property acc k v in
                          match skip_ws rest2 with
                          | c :: rest3 =>
                              if (c =? 44)%N then members fuel' rest3 acc'
                              else if (c =? 125)%N
                              then Some (JObj (enumeration_order acc'), rest3)
                              else None
                          | [] => None
                          end
                      end
                    else None
                | [] => None
                end
            end
          else None
      | [] => None
      end
  end.

Definition syntax_error : JsError :=
  mkError (lit "SyntaxError") (lit "Unexpected token in JSON")
    (Some (lit "SyntaxError: Unexpected token in JSON")).

Definition parse (s : jsstring) : Completion Json :=
  match value (2 * length s + 2) s with
  | Some (v, rest) =>
      match skip_ws rest with
      | [] => Normal v
      | _ => Throw syntax_error
      end
  | None => Throw syntax_error
  end.

Local Open Scope Z_scope.

Definition nth_name (names : list string) (i : Z) : jsstring :=
  lit (nth (Z.to_nat i) names EmptyString).

(** The text of a date for a browser whose time zone is UTC. *)
Definition utc_text (t : Z) : jsstring :=
  let days := t / ms_per_day in
  let ms := t mod ms_per_day in
  let '(y, m, d) := civil_from_days days in
  nth_name ["Thu"; "Fri"; "Sat"; "Sun"; "Mon"; "Tue"; "Wed"]%string (days mod 7)
    ++ lit " "
    ++ nth_name ["Jan"; "Feb"; "Mar"; "Apr"; "May"; "Jun"; "Jul"; "Aug"; "Sep";
                 "Oct"; "Nov"; "Dec"]%string (m - 1)
    ++ lit " " ++ fixed_digits 2 d ++ lit " "
    ++ (if y <? 0 then lit "-" ++ fixed_digits 6 (- y) else fixed_digits 4 y)
    ++ lit " " ++ fixed_digits 2 (ms / 3600000)
    ++ lit ":" ++ fixed_digits 2 ((ms / 60000) mod 60)
    ++ lit ":" ++ fixed_digits 2 ((ms / 1000) mod 60)
    ++ lit " GMT+0000 (Coordinated Universal Time)".

Local Close Scope Z_scope.

Definition host : Host :=
  mkHost parse
    (fun _ => lit "12:00:00")
    (fun name message =>
       Some (name ++ lit ": " ++ message ++ [10%N] ++ lit "    at runTest (app.js)"))
    utc_text
    (fun k =>
       let message := lit "Cannot read properties of null (reading '" ++ k ++ lit "')" in
       mkError (lit "TypeError") message (Some (lit "TypeError: " ++ message)))
    (mkError (lit "RangeError") (lit "Invalid time value")
       (Some (lit "RangeError: Invalid time value")))
    (mkError (lit "TypeError") (lit "Cannot convert object to primitive value")
       (Some (lit "TypeError: Cannot convert object to primitive value"))).

(** A page with the three dataset buttons and nothing shown yet. *)
Definition blank_page : Page :=
  mkPage [] (mkStatus [] []) (mkTestButton false false)
    (map (fun d => mkToggle (key_text (key d)) (label d) false false) DATASETS)
    (mkSummaryCard true None) (mkMetricsCard true [])
    (mkSamplesCard true [] [] []) (mkTableCard true true [] true [] []).

Definition start : World := initial_world blank_page.

Definition world_of (s : State) : World := mkWorld s [] [] blank_page [] [].

(** A literal in which the apostrophe stands for the double quote, for
    writing JSON text. *)
Definition json (s : string) : jsstring :=
  map (fun c => if (c =? squote)%N then dquote else c) (lit s).

End Reference.

(** * Vocabulary of the specification *)

(** ** Escaped text

    A fragment is safe to insert as markup when it has no angle bracket and
    no quote, and every ampersand in it opens one of the five references
    that [escapeHtml] writes. *)

Fixpoint starts_with (prefix s : jsstring) : bool :=
  match prefix, s with
  | [], _ => true
  | p :: prefix', c :: s' => (p =? c)%N && starts_with prefix' s'
  | _ :: _, [] => false
  end.

Definition is_markup_char (c : char16) : bool :=
  (c =? lt_sign)%N || (c =? gt_sign)%N || (c =? dquote)%N || (c =? squote)%N.

Definition opens_reference (s : jsstring) : bool :=
  starts_with (lit "amp;") s || starts_with (lit "lt;") s
  || starts_with (lit "gt;") s || starts_with (lit "quot;") s
  || starts_with (lit "#39;") s.

Fixpoint markup_safe (s : jsstring) : bool :=
  match s with
  | [] => true
  | c :: rest =>
      (if (c =? amp)%N then opens_reference rest else negb (is_markup_char c))
      && markup_safe rest
  end.

(** What one character becomes under [escapeHtml]. *)
Definition escape_char (c : char16) : jsstring :=
  if (c =? amp)%N then lit "&amp;"
  else if (c =? lt_sign)%N then lit "&lt;"
  else if (c =? gt_sign)%N then lit "&gt;"
  else if (c =? dquote)%N then lit "&quot;"
  else if (c =? squote)%N then lit "&#39;"
  else [c].

(** Reading the five references back, as a browser does when it shows the
    fragment as text.  [skip] counts the characters of a reference still to
    pass over. *)
Definition reference_at (s : jsstring) : option (char16 * nat) :=
  if starts_with (lit "amp;") s then Some (amp, 4)
  else if starts_with (lit "lt;") s then Some (lt_sign, 3)
  else if starts_with (lit "gt;") s then Some (gt_sign, 3)
  else if starts_with (lit "quot;") s then Some (dquote, 5)
  else if starts_with (lit "#39;") s then Some (squote, 4)
  else None.

Fixpoint shown_from (skip : nat) (s : jsstring) : jsstring :=
  match s with
  | [] => []
  | c :: rest =>
      match skip with
      | S k => shown_from k rest
      | O =>
          if (c =? amp)%N then
            match reference_at rest with
            | Some (ch, n) => ch :: shown_from n rest
            | None => c :: shown_from 0 rest
            end
          else c :: shown_from 0 rest
      end
  end.

Definition shown_text (s : jsstring) : jsstring := shown_from 0 s.

(** A fragment written by [escapeHtml]. *)
Definition escaped_fragment (html : jsstring) : Prop :=
  exists t, html = escape_text t.

(** ** The formatting rules

    The rules of the specification for the value of a cell, in its order of
    priority: nothing gives the placeholder; an object or an array gives its
    compact JSON text as code; a boolean gives [true] or [false]; a date
    gives its ISO-8601 text; anything else gives its text.  A date is
    formatted by the rule for dates, not by the rule for objects. *)


(** ** The order of the columns *)

Definition str_le (a b : jsstring) : Prop := str_leb a b = true.

(** Strictly before, in the order of the code units. *)
Definition str_lt (a b : jsstring) : Prop := str_leb a b = true /\ a <> b.

Definition placeholder_cell : jsstring := lit "<td>" ++ placeholder ++ lit "</td>".

(** The names every object inherits from [Object.prototype]. *)
Definition Object_prototype_keys : list jsstring :=
  lit "constructor" :: lit "__proto__" :: Object_prototype_methods.

(** The record has no value of its own for the column: it is not a plain
    object, or it is one without that key. *)
Definition lacks_column (record : Json) (col : jsstring) : Prop :=
  match record with
  | JObj fields => assoc col fields = None
  | _ => True
  end.

(** ** Runs of the log *)

Record LogRequest : Type := mkLogRequest {
  req_message : jsstring;
  req_level : Level;
  req_details : option jsstring
}.

(** The calls [pushLog(message, level, details)] of a list, one after the
    other. *)
Definition push_all (H : Host) (calls : list LogRequest) (w : World) : World :=
  fold_left
    (fun w c => snd (pushLog H (req_message c) (req_level c) (req_details c) w))
    calls w.

(** The lines these calls write when [k] lines were written before. *)
Fixpoint lines_from (H : Host) (k : nat) (calls : list LogRequest) : list jsstring :=
  match calls with
  | [] => []
  | c :: rest =>
      log_line_text H k (req_message c) (req_level c) (req_details c)
        :: lines_from H (S k) rest
  end.

(** The last [n] elements of a list. *)
Definition last_n {A} (n : nat) (l : list A) : list A := skipn (length l - n) l.

(** The buffer of the script holds the last 400 of the lines ever
    written. *)
Definition log_consistent (w : World) : Prop :=
  logLines w = last_n LOG_LIMIT (map log_line (logged w)).

(** ** Lines of a text *)

(** A line with nothing but white space. *)
Definition is_blank (line : jsstring) : bool := forallb is_space line.

Definition non_blank (lines : list jsstring) : list jsstring :=
  filter (fun line => negb (is_blank line)) lines.

(** The value of a line, when it is not blank and decodes. *)
Definition decode_line (H : Host) (line : jsstring) : list Json :=
  match trim line with
  | [] => []
  | c :: t =>
      match JSON_parse H (c :: t) with
      | Normal v => [v]
      | Throw _ => []
      end
  end.

(** The records of a text: the values of its lines that decode, in order. *)
Definition parsed_records (H : Host) (text : option jsstring) : list Json :=
  match text with
  | Some t => flat_map (decode_line H) (split_lines t)
  | None => []
  end.

(** ** Payloads *)

(** The value a payload has of its own under a key. *)
Definition own_field (payload : Json) (k : jsstring) : option Json :=
  match payload with
  | JObj fields => assoc k fields
  | _ => None
  end.

(** The keys the script reads by name. *)
Definition data_keys : list jsstring :=
  words ["summary"; "contacts"; "chats"; "messages"; "error"; "hint";
         "exported_to_chatwoot"]%string.

(** The array a payload has under a key, empty when there is none. *)
Definition payload_array (payload : Json) (k : jsstring) : list Json :=
  match own_field payload k with
  | Some (JArr items) => items
  | _ => []
  end.

(** A computation that leaves one part of the world as it was. *)
Definition keeps {X A} (proj : World -> X) (c : M A) : Prop :=
  forall w, proj (snd (c w)) = proj w.

(** ** Resources of a prefix *)

(** The text of a resource: [None] when the request fails, the answer is
    not a success, or its body cannot be read. *)
Definition fetched (net : Net) (url : jsstring) : option jsstring :=
  match net GET url with
  | Response true (Normal text) => Some text
  | _ => None
  end.

Definition export_status_url (base : jsstring) (k : DatasetKey) : jsstring :=
  base ++ lit "/" ++ key_text k ++ lit "_export_status.ndjson".

Definition raw_url (base : jsstring) (k : DatasetKey) : jsstring :=
  base ++ lit "/" ++ key_text k ++ lit ".ndjson".

(** The value of a JSON resource: [null] when the request fails, the
    answer is not a success, or its body does not decode. *)
Definition fetched_json (H : Host) (net : Net) (url : jsstring) : Json :=
  match fetched net url with
  | Some text =>
      match JSON_parse H text with
      | Normal j => j
      | Throw _ => JNull
      end
  | None => JNull
  end.

(** The text the loader parses for a dataset. *)
Definition chosen_text (net : Net) (base : jsstring) (k : DatasetKey)
  : option jsstring :=
  if truthy_text (fetched net (export_status_url base k))
  then fetched net (export_status_url base k)
  else fetched net (raw_url base k).

(** The requests the loader sends for a dataset. *)
Definition dataset_requests (net : Net) (base : jsstring) (k : DatasetKey)
  : list (Method * jsstring) :=
  (GET, export_status_url base k)
    :: (if truthy_text (fetched net (export_status_url base k))
        then []
        else [(GET, raw_url base k)]).

(** The summary of a prefix and the requests sent for it. *)
Definition chosen_summary (H : Host) (net : Net) (base : jsstring) : Json :=
  if truthy_json (fetched_json H net (base ++ lit "/summary.json"))
  then fetched_json H net (base ++ lit "/summary.json")
  else fetched_json H net (base ++ lit "/load_summary.json").

Definition summary_requests (H : Host) (net : Net) (base : jsstring)
  : list (Method * jsstring) :=
  (GET, base ++ lit "/summary.json")
    :: (if truthy_json (fetched_json H net (base ++ lit "/summary.json"))
        then []
        else [(GET, base ++ lit "/load_summary.json")]).

(** The payload a prefix load hands to [applyData]. *)
Definition prefix_payload (H : Host) (net : Net) (base : jsstring) : Json :=
  JObj [(lit "summary", chosen_summary H net base);
        (lit "contacts", JArr (parsed_records H (chosen_text net base Contacts)));
        (lit "chats", JArr (parsed_records H (chosen_text net base Chats)));
        (lit "messages", JArr (parsed_records H (chosen_text net base Messages)))].

(** C8 as the claim has it: an export-status text that is not [null] is the
    one parsed, and the raw resource is not requested. *)
Definition export_status_wins (H : Host) (net : Net) (prefix : jsstring)
    (w : World) (k : DatasetKey) : Prop :=
  let base := lit "../data/" ++ trim prefix in
  let w' := snd (loadByPrefix H net prefix w) in
  forall text,
    fetched net (export_status_url base k) = Some text ->
    records_of (state w') k = parsed_records H (Some text)
    /\ ~ In (GET, raw_url base k) (requests w').

(** A prefix [p] with an export-status file and a raw file of the
    contacts, one record each; nothing else exists. *)
Definition export_net : Net :=
  fun _ url =>
    if str_eqb url (lit "../data/p/contacts_export_status.ndjson")
    then Response true (Normal (Reference.json "{'e':1}"))
    else if str_eqb url (lit "../data/p/contacts.ndjson")
    then Response true (Normal (Reference.json "{'r':1}"))
    else Response false (Normal (lit "Not Found")).

(** A prefix [p] whose export-status file of the contacts exists and is
    empty, next to a raw file with one record; nothing else exists. *)
Definition empty_export_net : Net :=
  fun _ url =>
    if str_eqb url (lit "../data/p/contacts_export_status.ndjson")
    then Response true (Normal [])
    else if str_eqb url (lit "../data/p/contacts.ndjson")
    then Response true (Normal (Reference.json "{'a':1}"))
    else Response false (Normal (lit "Not Found")).

(** ** The self-test *)

(** [text || '{}'] *)
Definition text_or_braces (text : jsstring) : jsstring :=
  match text with
  | [] => lit "{}"
  | _ => text
  end.

(** A field of the body as it stands in a message: the text of a value
    that is truthy, [None] for a field that is absent or falsy, and the
    error of a value that cannot be turned into text. *)
Definition field_text (H : Host) (payload : Json) (k : jsstring)
  : Completion (option jsstring) :=
  match own_field payload k with
  | Some v =>
      if truthy_json v then
        match Json_toString H v with
        | Normal text => Normal (Some text)
        | Throw e => Throw e
        end
      else Normal None
  | None => Normal None
  end.

(** The message of a refused self-test: the [error] of the body (or a
    default text), then the [hint] of the body when it has one.  The hint
    is turned into text first. *)
Definition failure_message (H : Host) (payload : Json) : Completion jsstring :=
  match field_text H payload (lit "hint") with
  | Throw e => Throw e
  | Normal hint =>
      match field_text H payload (lit "error") with
      | Throw e => Throw e
      | Normal message =>
          Normal (match message with
                  | Some text => text
                  | None => lit "Falha na função serverless"
                  end
                  ++ match hint with
                     | Some text => [10%N] ++ lit "Dica: " ++ text
                     | None => []
                     end)
      end
  end.

(** The error of a self-test answered with a status that is not a success
    and a body that decodes to [payload]: reading from [null] throws, a
    field that cannot be turned into text throws, and otherwise the error
    carries the message. *)
Definition refusal (H : Host) (payload : Json) : JsError :=
  match payload with
  | JNull => null_read_error H (lit "error")
  | _ =>
      match failure_message H payload with
      | Normal message => new_Error H message
      | Throw e => e
      end
  end.

Definition includes (needle hay : jsstring) : Prop :=
  exists before after, hay = before ++ needle ++ after.

(** What a failed self-test leaves: the store as it was, the error message
    in the status line, two more lines in the log (the start of the test and
    the error, with the stack of the error or else its text), the button
    usable again, and one request sent. *)
Definition failure_report (H : Host) (w w' : World) (err : JsError) : Prop :=
  state w' = state w
  /\ testStatus (page w')
     = mkStatus (lit "Erro: " ++ err_message err) [lit "status-text"; lit "error"]
  /\ logged w'
     = logged w
       ++ [mkLogCall info
             (log_line_text H (length (logged w))
                (lit "Executando teste rápido na função serverless…") info None);
           mkLogCall error
             (log_line_text H (S (length (logged w)))
                (lit "Erro ao executar teste rápido") error
                (Some (stack_or_text err)))]
  /\ btnTestRun (page w') = mkTestButton false false
  /\ requests w' = requests w ++ [(POST, test_endpoint)].

(** A network that cannot be reached, and one that answers the self-test
    with text that is not JSON. *)
Definition offline_net : Net :=
  fun _ _ => NetworkError (mkError (lit "TypeError") (lit "Failed to fetch") None).

Definition garbled_net : Net :=
  fun _ _ => Response true (Normal (lit "<html>oops</html>")).

(** A self-test refused with status 500 and the body of the third scenario
    of the specification. *)
Definition refusing_net : Net :=
  fun _ _ =>
    Response false
      (Normal (Reference.json "{'error':'auth failed','hint':'rotate token'}")).

(** A self-test refused with a body whose [error] is an object that has a
    [toString] of its own. *)
Definition opaque_error_net : Net :=
  fun _ _ =>
    Response false
      (Normal (Reference.json "{'error':{'toString':1},'hint':'rotate token'}")).

(** ** Records and the metrics *)

(** The record carries the literal [true] under [exported_to_chatwoot]. *)
Definition marked_exported (record : Json) : bool :=
  match own_field record (lit "exported_to_chatwoot") with
  | Some (JBool true) => true
  | _ => false
  end.

(** All the records of a store, in the order the metrics read them. *)
Definition all_records (s : State) : list Json :=
  contacts s ++ chats s ++ messages s.

(** The TypeError of reading [exported_to_chatwoot] from a [null] record. *)
Definition null_record_error (H : Host) : JsError :=
  null_read_error H (lit "exported_to_chatwoot").

Definition is_null (record : Json) : bool :=
  match record with
  | JNull => true
  | _ => false
  end.

(** ** Failures of a request *)

(** The error that fetching a text resource runs into, if any: the request
    fails, or the body of a successful answer cannot be read. *)
Definition fetch_failure (net : Net) (url : jsstring) : option JsError :=
  match net GET url with
  | NetworkError e => Some e
  | Response true (Throw e) => Some e
  | _ => None
  end.

(** The same for a JSON resource, whose body must decode as well. *)
Definition json_failure (H : Host) (net : Net) (url : jsstring) : option JsError :=
  match net GET url with
  | NetworkError e => Some e
  | Response true (Throw e) => Some e
  | Response true (Normal text) =>
      match JSON_parse H text with
      | Throw e => Some e
      | Normal _ => None
      end
  | _ => None
  end.

(** The warning written for a failed request. *)
Definition fetch_warning (H : Host) (w : World) (what url : jsstring)
    (failure : option JsError) : list LogCall :=
  match failure with
  | Some e =>
      [mkLogCall warn
         (log_line_text H (length (logged w)) (what ++ url) warn
            (Some (err_message e)))]
  | None => []
  end.

(** ** Line endings *)

(** A line without a final carriage return. *)
Fixpoint chomp_cr (line : jsstring) : jsstring :=
  match line with
  | [] => []
  | [c] => if (c =? 13)%N then [] else [c]
  | c :: rest => c :: chomp_cr rest
  end.

(** ** The earlier reader (app.js, lines 519-528)

    The file keeps an earlier version of the script, whose [parseNDJSON]
    drops a line that does not decode without logging it. *)
Definition legacy_parseNDJSON (H : Host) (text : option jsstring) : list Json :=
  if negb (truthy_text text) then []
  else
    match text with
    | Some t =>
        fold_left
          (fun out line =>
             let trimmed := trim line in
             match trimmed with
             | [] => out
             | _ =>
                 match JSON_parse H trimmed with
                 | Normal v => out ++ [v]
                 | Throw _ => out
                 end
             end)
          (split_lines t) []
    | None => []
    end.

(** ** Local files *)

(** The text of a selected file that could be read. *)
Definition file_text (file : option (Completion jsstring)) : option jsstring :=
  match file with
  | Some (Normal text) => Some text
  | _ => None
  end.

(** The summary a summary file gives: its decoded text, or [null]. *)
Definition file_summary (H : Host) (file : option (Completion jsstring)) : Json :=
  match file_text file with
  | Some text =>
      match JSON_parse H text with
      | Normal j => j
      | Throw _ => JNull
      end
  | None => JNull
  end.

(** What the selected files give [applyData]: a file that is missing or
    cannot be read counts as no summary, or as no records. *)
Definition files_payload (H : Host)
    (summaryFile contactsFile chatsFile messagesFile : option (Completion jsstring))
  : Json :=
  JObj [(lit "summary", file_summary H summaryFile);
        (lit "contacts", JArr (parsed_records H (file_text contactsFile)));
        (lit "chats", JArr (parsed_records H (file_text chatsFile)));
        (lit "messages", JArr (parsed_records H (file_text messagesFile)))].

Definition no_file_selected
    (summaryFile contactsFile chatsFile messagesFile : option (Completion jsstring))
  : bool :=
  match summaryFile, contactsFile, chatsFile, messagesFile with
  | None, None, None, None => true
  | _, _, _, _ => false
  end.

(** * Properties *)

(** ** Text and the order of strings *)

Lemma str_eqb_spec a b : reflect (a = b) (str_eqb a b).
Proof.
  revert b; induction a as [|x a IH]; intros [|y b]; simpl;
    try (constructor; congruence).
  destruct (N.eqb_spec x y) as [->|Hxy]; simpl.
  - destruct (IH b) as [->|Hab]; constructor; congruence.
  - constructor; congruence.
Qed.

Lemma str_eqb_refl a : str_eqb a a = true.
Proof. destruct (str_eqb_spec a a); congruence. Qed.


(** ** escapeHtml *)

Lemma replace_all_app c b x y :
  replace_all c b (x ++ y) = replace_all c b x ++ replace_all c b y.
Proof. apply flat_map_app. Qed.

Lemma escape_text_app x y : escape_text (x ++ y) = escape_text x ++ escape_text y.
Proof. unfold escape_text. now rewrite !replace_all_app. Qed.

Lemma escape_text_one c : escape_text [c] = escape_char c.
Proof.
  unfold escape_char.
  destruct (N.eqb_spec c amp) as [->|Ha]; [reflexivity|].
  destruct (N.eqb_spec c lt_sign) as [->|Hl]; [reflexivity|].
  destruct (N.eqb_spec c gt_sign) as [->|Hg]; [reflexivity|].
  destruct (N.eqb_spec c dquote) as [->|Hd]; [reflexivity|].
  destruct (N.eqb_spec c squote) as [->|Hs]; [reflexivity|].
  unfold escape_text, replace_all; simpl.
  apply N.eqb_neq in Ha, Hl, Hg, Hd, Hs.
  now rewrite Ha; simpl; rewrite Hl; simpl; rewrite Hg; simpl; rewrite Hd; simpl;
    rewrite Hs.
Qed.

(** The five passes of [escapeHtml] amount to one pass over the text. *)
Lemma escape_text_cons c s : escape_text (c :: s) = escape_char c ++ escape_text s.
Proof. now rewrite <- escape_text_one, <- escape_text_app. Qed.

Lemma escape_text_flat s : escape_text s = flat_map escape_char s.
Proof.
  induction s as [|c s IH]; [reflexivity|].
  now rewrite escape_text_cons, IH.
Qed.

Lemma markup_safe_escape_char c rest :
  markup_safe rest = true -> markup_safe (escape_char c ++ rest) = true.
Proof.
  intros Hrest. unfold escape_char.
  destruct (N.eqb_spec c amp) as [->|Ha]; [exact Hrest|].
  destruct (N.eqb_spec c lt_sign) as [->|Hl]; [exact Hrest|].
  destruct (N.eqb_spec c gt_sign) as [->|Hg]; [exact Hrest|].
  destruct (N.eqb_spec c dquote) as [->|Hd]; [exact Hrest|].
  destruct (N.eqb_spec c squote) as [->|Hs]; [exact Hrest|].
  simpl. unfold is_markup_char.
  apply N.eqb_neq in Ha, Hl, Hg, Hd, Hs.
  now rewrite Ha, Hl, Hg, Hd, Hs.
Qed.

Lemma markup_safe_escape s : markup_safe (escape_text s) = true.
Proof.
  induction s as [|c s IH]; [reflexivity|].
  rewrite escape_text_cons. now apply markup_safe_escape_char.
Qed.

Lemma shown_escape_char c rest :
  shown_from 0 (escape_char c ++ rest) = c :: shown_from 0 rest.
Proof.
  unfold escape_char.
  destruct (N.eqb_spec c amp) as [->|Ha]; [reflexivity|].
  destruct (N.eqb_spec c lt_sign) as [->|Hl]; [reflexivity|].
  destruct (N.eqb_spec c gt_sign) as [->|Hg]; [reflexivity|].
  destruct (N.eqb_spec c dquote) as [->|Hd]; [reflexivity|].
  destruct (N.eqb_spec c squote) as [->|Hs]; [reflexivity|].
  simpl. apply N.eqb_neq in Ha. now rewrite Ha.
Qed.

Lemma shown_escape s : shown_text (escape_text s) = s.
Proof.
  unfold shown_text.
  induction s as [|c s IH]; [reflexivity|].
  now rewrite escape_text_cons, shown_escape_char, IH.
Qed.

(** ** formatValue *)

Lemma escaped_fragment_safe html : escaped_fragment html -> markup_safe html = true.
Proof. intros [t ->]. apply markup_safe_escape. Qed.

Lemma formatValue_cases (H : Host) (v : JsVal) :
  exists html,
    formatValue H v = Normal html
    /\ (html = placeholder
        \/ escaped_fragment html
        \/ exists e, escaped_fragment e /\ html = lit "<code>" ++ e ++ lit "</code>").
Proof.
  destruct v as [|j|name|tv|p].
  - exists placeholder. split; [reflexivity | now left].
  - destruct j as [|b|r|s|items|fields].
    + exists placeholder. split; [reflexivity | now left].
    + destruct b; eexists; (split; [reflexivity|]); right; left.
      * now exists (lit "true").
      * now exists (lit "false").
    + eexists; split; [reflexivity|]. right; left. now exists r.
    + eexists; split; [reflexivity|]. right; left. now exists s.
    + eexists; split; [reflexivity|]. right; right.
      eexists; split; [eexists; reflexivity | reflexivity].
    + eexists; split; [reflexivity|]. right; right.
      eexists; split; [eexists; reflexivity | reflexivity].
  - eexists; split; [reflexivity|]. right; left. now exists (native_source name).
  - destruct tv as [t|]; (eexists; split; [reflexivity|]); right; right;
      (eexists; split; [eexists; reflexivity | reflexivity]).
  - eexists; split; [reflexivity|]. right; right.
    eexists; split; [eexists; reflexivity | reflexivity].
Qed.

(** [formatValue] always returns. *)
Lemma formatValue_returns (H : Host) (v : JsVal) :
  exists html, formatValue H v = Normal html.
Proof. destruct (formatValue_cases H v) as (html & E & _). now exists html. Qed.

Lemma mapC_Forall2 {A B} (f : A -> Completion B) (R : A -> B -> Prop) l :
  (forall x, In x l -> exists y, f x = Normal y /\ R x y) ->
  exists ys, mapC f l = Normal ys /\ Forall2 R l ys.
Proof.
  induction l as [|x l IH]; intros Hf; simpl.
  - exists []. split; [reflexivity | constructor].
  - destruct (Hf x (or_introl eq_refl)) as (y & Ey & Ry). rewrite Ey.
    destruct IH as (ys & Eys & Rys); [intros; apply Hf; now right|].
    rewrite Eys. exists (y :: ys). split; [reflexivity | now constructor].
Qed.

(** The header cells: one per column, none of which can fail, since a
    column name is a string. *)
Lemma header_cells_spec (H : Host) (columnList : list jsstring) :
  header_cells H columnList
  = Normal (map (fun col => lit "<th>" ++ escape_text col ++ lit "</th>")
              columnList).
Proof.
  unfold header_cells.
  induction columnList as [|col cols IH]; [reflexivity|].
  cbn [mapC map]. rewrite IH. reflexivity.
Qed.

Lemma thead_of_spec (H : Host) (columnList : list jsstring) :
  thead_of H columnList
  = Normal (lit "<tr>"
              ++ join [] (map (fun col => lit "<th>" ++ escape_text col ++ lit "</th>")
                            columnList)
              ++ lit "</tr>").
Proof. unfold thead_of. now rewrite header_cells_spec. Qed.

Lemma row_cells_spec (H : Host) (columnList : list jsstring) (record : Json) :
  exists cells,
    row_cells H columnList record = Normal cells
    /\ Forall2
         (fun col cell =>
            exists html,
              formatValue H (cell_value record col) = Normal html
              /\ cell = lit "<td>" ++ html ++ lit "</td>")
         columnList cells.
Proof.
  unfold row_cells. apply mapC_Forall2. intros col _. unfold cell_html.
  destruct (formatValue_returns H (cell_value record col)) as (html & E).
  rewrite E. eexists; split; [reflexivity|]. now exists html.
Qed.

(** C4.  Every field value put into a cell, and every column name put into
    a header, goes through [escapeHtml] first: the escaped text has no angle
    bracket or quote and no ampersand other than those of the five
    references, and it reads back as the original text.  A cell is the
    placeholder, an escaped text, or an escaped text inside [<code>]; a
    string is escaped as it is, an array or an object as its compact JSON
    text. *)
Theorem rendered_values_are_escaped (H : Host) :
  (forall t, markup_safe (escape_text t) = true /\ shown_text (escape_text t) = t)
  /\ (forall v, exists html,
        formatValue H v = Normal html
        /\ (html = placeholder
            \/ escaped_fragment html
            \/ exists e, escaped_fragment e
                         /\ html = lit "<code>" ++ e ++ lit "</code>"))
  /\ (forall s, formatValue H (VJson (JStr s)) = Normal (escape_text s))
  /\ (forall items,
        formatValue H (VJson (JArr items))
        = Normal (lit "<code>" ++ escape_text (stringify [] [] (JArr items))
                    ++ lit "</code>"))
  /\ (forall fields,
        formatValue H (VJson (JObj fields))
        = Normal (lit "<code>" ++ escape_text (stringify [] [] (JObj fields))
                    ++ lit "</code>"))
  /\ (forall columnList,
        header_cells H columnList
        = Normal (map (fun col => lit "<th>" ++ escape_text col ++ lit "</th>")
                    columnList))
  /\ (forall columnList record, exists cells,
        row_cells H columnList record = Normal cells
        /\ Forall2
             (fun col cell =>
                exists html,
                  formatValue H (cell_value record col) = Normal html
                  /\ cell = lit "<td>" ++ html ++ lit "</td>")
             columnList cells).
Proof.
  split; [|split; [|split; [|split; [|split; [|split]]]]].
  - intros t. split; [apply markup_safe_escape | apply shown_escape].
  - apply formatValue_cases.
  - reflexivity.
  - reflexivity.
  - reflexivity.
  - apply header_cells_spec.
  - apply row_cells_spec.
Qed.

(** A [Date] handed to [formatValue] would not reach its date rule: its
    [typeof] is ['object'], so the object rule, which comes first, takes it
    and writes the compact JSON text of the date.  No cell holds a [Date],
    see [cells_follow_formatting_rules]. *)
Remark date_rule_is_shadowed (H : Host) (t : Z) :
  formatValue H (VDate (Some t))
  = Normal (lit "<code>" ++ escape_text (QuoteJSONString (toISOString t))
              ++ lit "</code>")
  /\ formatValue H (VDate None) = Normal (lit "<code>null</code>").
Proof. split; reflexivity. Qed.




(** ** The column list *)

Lemma str_leb_refl a : str_leb a a = true.
Proof.
  induction a as [|x a IH]; [reflexivity|]. simpl.
  now rewrite N.ltb_irrefl, N.eqb_refl.
Qed.

Lemma str_leb_total a b : str_leb a b = false -> str_leb b a = true.
Proof.
  revert b; induction a as [|x a IH]; intros [|y b]; simpl; try congruence.
  destruct (N.ltb_spec x y) as [Hlt|Hge]; [congruence|].
  destruct (N.eqb_spec x y) as [->|Hne].
  - rewrite N.ltb_irrefl, N.eqb_refl. apply IH.
  - intros _. destruct (N.ltb_spec y x); [reflexivity | lia].
Qed.

Lemma str_leb_antisym a b : str_leb a b = true -> str_leb b a = true -> a = b.
Proof.
  revert b; induction a as [|x a IH]; intros [|y b]; simpl; try congruence.
  destruct (N.ltb_spec x y) as [Hlt|Hge].
  - destruct (N.ltb_spec y x); [lia|].
    destruct (N.eqb_spec y x); [lia | congruence].
  - destruct (N.eqb_spec x y) as [->|Hne]; [|congruence].
    rewrite N.ltb_irrefl, N.eqb_refl. intros Hab Hba. f_equal. now apply IH.
Qed.

Lemma str_leb_trans a b c :
  str_leb a b = true -> str_leb b c = true -> str_leb a c = true.
Proof.
  revert b c; induction a as [|x a IH]; intros [|y b] [|z c]; simpl;
    try congruence.
  destruct (N.ltb_spec x y) as [Hxy|Hxy].
  - intros _. destruct (N.ltb_spec y z) as [Hyz|Hyz].
    + intros _. destruct (N.ltb_spec x z); [reflexivity | lia].
    + destruct (N.eqb_spec y z) as [->|]; [|congruence].
      intros _. destruct (N.ltb_spec x z); [reflexivity | lia].
  - destruct (N.eqb_spec x y) as [->|]; [|congruence].
    intros Hab. destruct (N.ltb_spec y z) as [Hyz|Hyz]; [reflexivity|].
    destruct (N.eqb_spec y z) as [->|]; [|congruence].
    now apply IH.
Qed.

Lemma insert_sorted_perm x l : Permutation (insert_sorted x l) (x :: l).
Proof.
  induction l as [|y l IH]; simpl; [reflexivity|].
  destruct (str_leb x y); [reflexivity|].
  rewrite IH. apply perm_swap.
Qed.

Lemma sort_strings_perm l : Permutation (sort_strings l) l.
Proof.
  induction l as [|x l IH]; simpl; [reflexivity|].
  now rewrite insert_sorted_perm, IH.
Qed.

Lemma insert_sorted_HdRel a x l :
  str_le a x -> HdRel str_le a l -> HdRel str_le a (insert_sorted x l).
Proof.
  intros Hax Hl. destruct l as [|y l]; simpl; [now constructor|].
  destruct (str_leb x y); constructor; [assumption|].
  now inversion Hl.
Qed.

Lemma insert_sorted_Sorted x l :
  Sorted str_le l -> Sorted str_le (insert_sorted x l).
Proof.
  induction 1 as [|y l Hl IH Hy]; simpl; [repeat constructor|].
  destruct (str_leb x y) eqn:Exy.
  - repeat constructor; assumption.
  - constructor; [assumption|].
    apply insert_sorted_HdRel; [|assumption].
    now apply str_leb_total.
Qed.

Lemma sort_strings_Sorted l : Sorted str_le (sort_strings l).
Proof.
  induction l as [|x l IH]; simpl; [constructor|].
  now apply insert_sorted_Sorted.
Qed.

Lemma strictly_sorted l :
  StronglySorted str_le l -> NoDup l -> StronglySorted str_lt l.
Proof.
  induction 1 as [|x l Hl IH Hx]; intros Hnd; [constructor|].
  inversion Hnd as [|? ? Hnotin Hnd']; subst.
  constructor; [now apply IH|].
  rewrite Forall_forall in *. intros y Hy. split; [now apply Hx|].
  intros ->. contradiction.
Qed.

Lemma mem_str_In k l : mem_str k l = true <-> In k l.
Proof.
  unfold mem_str. rewrite existsb_exists. split.
  - intros (x & Hx & E). now destruct (str_eqb_spec k x); subst.
  - intros Hk. exists k. split; [assumption | apply str_eqb_refl].
Qed.

Lemma set_add_In columns k x : In x (set_add columns k) <-> In x columns \/ x = k.
Proof.
  unfold set_add. destruct (mem_str k columns) eqn:E.
  - apply mem_str_In in E. split; [now left | intros [?| ->]; assumption].
  - rewrite in_app_iff. simpl. intuition.
Qed.

Lemma set_add_NoDup columns k : NoDup columns -> NoDup (set_add columns k).
Proof.
  intros Hnd. unfold set_add. destruct (mem_str k columns) eqn:E; [assumption|].
  apply NoDup_app; [assumption | repeat constructor; intros [] |].
  intros x Hx [<-|[]].
  apply mem_str_In in Hx. congruence.
Qed.

Lemma add_keys_In keys columns x :
  In x (fold_left set_add keys columns) <-> In x columns \/ In x keys.
Proof.
  revert columns; induction keys as [|k keys IH]; intros columns; simpl.
  - intuition.
  - rewrite IH, set_add_In. intuition.
Qed.

Lemma add_keys_NoDup keys columns :
  NoDup columns -> NoDup (fold_left set_add keys columns).
Proof.
  revert columns; induction keys as [|k keys IH]; intros columns Hnd; simpl;
    [assumption|].
  apply IH. now apply set_add_NoDup.
Qed.

Lemma is_plain_object_iff record :
  is_plain_object record = true <-> exists fields, record = JObj fields.
Proof.
  split.
  - destruct record as [|b|r|s|items|fields]; try discriminate.
    + destruct b; discriminate.
    + unfold is_plain_object. simpl.
      destruct (negb _); discriminate.
    + unfold is_plain_object. simpl. destruct s; discriminate.
    + now exists fields.
  - now intros [fields ->].
Qed.

Lemma collect_from_In records columns x :
  In x (fold_left add_record_columns records columns)
  <-> In x columns
      \/ exists fields, In (JObj fields) records /\ In x (map fst fields).
Proof.
  revert columns; induction records as [|r records IH]; intros columns; simpl.
  - split; [now left | intros [?|(f & [] & _)]; assumption].
  - rewrite IH. unfold add_record_columns.
    destruct (is_plain_object r) eqn:E.
    + apply is_plain_object_iff in E as [fields ->]. rewrite add_keys_In. simpl.
      split.
      * intros [[?|?]|(f & Hf & Hx)]; [now left | right | right].
        -- exists fields. split; [now left | assumption].
        -- exists f. split; [now right | assumption].
      * intros [?|(f & [Ef|Hf] & Hx)]; [now left; left | |].
        -- injection Ef as <-. now left; right.
        -- right. now exists f.
    + split.
      * intros [?|(f & Hf & Hx)]; [now left | right].
        exists f. split; [now right | assumption].
      * intros [?|(f & [Ef|Hf] & Hx)]; [now left | | right; now exists f].
        subst r. discriminate E.
Qed.

Lemma collect_from_NoDup records columns :
  NoDup columns -> NoDup (fold_left add_record_columns records columns).
Proof.
  revert columns; induction records as [|r records IH]; intros columns Hnd;
    simpl; [assumption|].
  apply IH. unfold add_record_columns.
  destruct (is_plain_object r); [now apply add_keys_NoDup | assumption].
Qed.

Lemma collect_from_plain records columns :
  fold_left add_record_columns (filter is_plain_object records) columns
  = fold_left add_record_columns records columns.
Proof.
  revert columns; induction records as [|r records IH]; intros columns;
    cbn [filter fold_left]; [reflexivity|].
  destruct (is_plain_object r) eqn:E; cbn [fold_left]; rewrite IH; [reflexivity|].
  replace (add_record_columns columns r) with columns; [reflexivity|].
  unfold add_record_columns. now rewrite E.
Qed.


(** ** The table *)

Ltac run :=
  cbn [bind read modify lift ret throw try_catch finally fst snd negb].

Lemma row_html_spec (H : Host) (columnList : list jsstring) (record : Json) :
  exists cells,
    row_cells H columnList record = Normal cells
    /\ row_html H columnList record
       = Normal (lit "<tr>" ++ join [] cells ++ lit "</tr>")
    /\ Forall2 (fun col cell => cell_html H record col = Normal cell)
         columnList cells.
Proof.
  unfold row_html, row_cells.
  destruct (mapC_Forall2 (cell_html H record)
              (fun col cell => cell_html H record col = Normal cell) columnList)
    as (cells & E & HF).
  - intros col _. unfold cell_html.
    destruct (formatValue_returns H (cell_value record col)) as (html & Eh).
    rewrite Eh. eexists; split; reflexivity.
  - exists cells. rewrite E. repeat split. exact HF.
Qed.

Lemma rowsHtml_spec (H : Host) (columnList : list jsstring) (records : list Json) :
  exists rows : list (list jsstring),
    rowsHtml H columnList records
    = Normal (map (fun cells => lit "<tr>" ++ join [] cells ++ lit "</tr>") rows)
    /\ Forall2
         (fun record cells =>
            Forall2 (fun col cell => cell_html H record col = Normal cell)
              columnList cells)
         records rows.
Proof.
  unfold rowsHtml. induction records as [|record records IH]; simpl.
  - exists []. split; [reflexivity | constructor].
  - destruct (row_html_spec H columnList record) as (cells & _ & E & HF).
    destruct IH as (rows & Er & HFr). rewrite E, Er.
    exists (cells :: rows). split; [reflexivity | now constructor].
Qed.

Lemma rowsHtml_returns (H : Host) columnList records :
  exists rows, rowsHtml H columnList records = Normal rows.
Proof.
  destruct (rowsHtml_spec H columnList records) as (rows & E & _).
  eexists; exact E.
Qed.

Lemma hasRecords_active s :
  records_of s (dataset s) <> [] -> hasRecords s = true.
Proof.
  unfold hasRecords, DATASETS.
  destruct s as [sm c h m d];
    cbn [existsb key records_of contacts chats messages dataset].
  destruct d; cbn; intros Hne.
  - destruct c; [congruence | reflexivity].
  - destruct h; [congruence|]. cbn. apply orb_true_r.
  - destruct m; [congruence|]. cbn. now rewrite !orb_true_r.
Qed.

Lemma active_meta_key k :
  key match find (fun d => key_eqb (key d) k) DATASETS with
      | Some d => d
      | None => mkMeta Contacts (lit "Contatos")
      end = k.
Proof. now destruct k. Qed.

Lemma updateDataTable_table (H : Host) (w : World) records header rows :
  records_of (state w) (dataset (state w)) = records ->
  records <> [] ->
  header_cells H (columnList_of records) = Normal header ->
  rowsHtml H (columnList_of records) records = Normal rows ->
  thead_html (tableCard (page (snd (updateDataTable H w))))
  = lit "<tr>" ++ join [] header ++ lit "</tr>"
  /\ tbody_html (tableCard (page (snd (updateDataTable H w)))) = join [] rows.
Proof.
  intros Hrec Hne Eh E. unfold updateDataTable. run.
  rewrite hasRecords_active by (rewrite Hrec; exact Hne).
  run. unfold updateDatasetButtons. run.
  rewrite active_meta_key, Hrec.
  destruct records as [|r records]; [congruence|]. run.
  unfold thead_of. rewrite Eh. run.
  rewrite E. run. split; reflexivity.
Qed.

Lemma updateDataTable_thead (H : Host) (w : World) records header :
  records_of (state w) (dataset (state w)) = records ->
  records <> [] ->
  header_cells H (columnList_of records) = Normal header ->
  thead_html (tableCard (page (snd (updateDataTable H w))))
  = lit "<tr>" ++ join [] header ++ lit "</tr>".
Proof.
  intros Hrec Hne Eh.
  destruct (rowsHtml_returns H (columnList_of records) records) as (rows & E).
  now destruct (updateDataTable_table H w Hrec Hne Eh E).
Qed.

Lemma inherited_from_Object col :
  ~ In col Object_prototype_keys ->
  inherited [] "Object" (VJson (JObj [])) col = VUndefined.
Proof.
  intros Hnot. unfold inherited. cbn [mem_str existsb].
  destruct (str_eqb_spec col (lit "constructor")) as [->|_].
  { exfalso. apply Hnot. now left. }
  destruct (str_eqb_spec col (lit "__proto__")) as [->|_].
  { exfalso. apply Hnot. right. now left. }
  destruct (mem_str col Object_prototype_methods) eqn:E; [|reflexivity].
  apply mem_str_In in E. exfalso. apply Hnot. right. now right.
Qed.

Lemma Forall2_length_eq {A B} (R : A -> B -> Prop) l l' :
  Forall2 R l l' -> length l = length l'.
Proof. induction 1; simpl; congruence. Qed.

(** C6.  The column list of a dataset is the union of the keys of its
    plain-object records, in strictly ascending order of the code units (so
    sorted and without repetition); records that are not plain objects add
    nothing; the header row has one cell per column, and it is what
    [updateDataTable] writes for the active dataset. *)
Theorem column_list_is_sorted_union (H : Host) (records : list Json) :
  let columnList := columnList_of records in
  StronglySorted str_lt columnList
  /\ (forall k, In k columnList
                <-> exists fields, In (JObj fields) records /\ In k (map fst fields))
  /\ columnList_of (filter is_plain_object records) = columnList
  /\ (forall record,
        is_plain_object record = true <-> exists fields, record = JObj fields)
  /\ exists header,
       header_cells H columnList = Normal header
       /\ length header = length columnList
       /\ (forall w,
             records_of (state w) (dataset (state w)) = records ->
             records <> [] ->
             thead_html (tableCard (page (snd (updateDataTable H w))))
             = lit "<tr>" ++ join [] header ++ lit "</tr>").
Proof.
  cbv zeta. split; [|split; [|split; [|split]]].
  - unfold columnList_of, collect_columns. apply strictly_sorted.
    + apply Sorted_StronglySorted; [|apply sort_strings_Sorted].
      intros a b c. apply str_leb_trans.
    + eapply Permutation_NoDup; [symmetry; apply sort_strings_perm|].
      apply collect_from_NoDup. constructor.
  - unfold columnList_of, collect_columns. intros k. split.
    + intros Hk.
      apply (Permutation_in _ (sort_strings_perm _)) in Hk.
      apply collect_from_In in Hk as [[]|Hk]. exact Hk.
    + intros Hk.
      apply (Permutation_in _ (Permutation_sym (sort_strings_perm _))).
      apply collect_from_In. now right.
  - unfold columnList_of, collect_columns. now rewrite collect_from_plain.
  - intros record. apply is_plain_object_iff.
  - eexists. split; [apply header_cells_spec|]. split; [apply length_map|].
    intros w Hrec Hne.
    eapply updateDataTable_thead; [exact Hrec | exact Hne|].
    apply header_cells_spec.
Qed.

Lemma column_list_witness :
  let records :=
    [JObj [(lit "b", JNum (lit "1"))]; JArr [JStr (lit "x")]; JNull;
     JObj [(lit "a", JBool true); (lit "b", JNull)]] in
  let w := Reference.world_of (mkState (VJson JNull) [] records [] Chats) in
  records_of (state w) (dataset (state w)) = records
  /\ records <> []
  /\ columnList_of records = [lit "a"; lit "b"]
  /\ thead_html (tableCard (page (snd (updateDataTable Reference.host w))))
     = lit "<tr><th>a</th><th>b</th></tr>".
Proof.
  cbv zeta. split; [reflexivity|]. split; [discriminate|]. split; [reflexivity|].
  destruct (column_list_is_sorted_union Reference.host
              [JObj [(lit "b", JNum (lit "1"))]; JArr [JStr (lit "x")]; JNull;
               JObj [(lit "a", JBool true); (lit "b", JNull)]])
    as (_ & _ & _ & _ & header & Eh & _ & Hw).
  rewrite Hw; [|reflexivity | discriminate].
  assert (Eh' : header_cells Reference.host [lit "a"; lit "b"]
                = Normal [lit "<th>a</th>"; lit "<th>b</th>"]) by reflexivity.
  change (columnList_of
            [JObj [(lit "b", JNum (lit "1"))]; JArr [JStr (lit "x")]; JNull;
             JObj [(lit "a", JBool true); (lit "b", JNull)]])
    with [lit "a"; lit "b"] in Eh.
  rewrite Eh in Eh'. injection Eh' as ->. reflexivity.
Defined.

(** C10 (as amended).  Every row of the table has exactly one cell per
    column of the header, whatever the record is, and no record is skipped.
    The cell is the placeholder whenever reading the column from the record
    gives nothing: for a record that is [null] or otherwise falsy, and for a
    plain object without the key, unless the key names a property that
    every object inherits.  This is what [updateDataTable] writes for the
    active dataset. *)
Theorem rows_have_one_cell_per_column (H : Host) (records : list Json) :
  let columnList := columnList_of records in
  exists rows : list (list jsstring),
    rowsHtml H columnList records
    = Normal (map (fun cells => lit "<tr>" ++ join [] cells ++ lit "</tr>") rows)
    /\ length rows = length records
    /\ (exists header,
          header_cells H columnList = Normal header
          /\ Forall (fun cells => length cells = length header) rows)
    /\ Forall2
         (fun record cells =>
            Forall2 (fun col cell => cell_html H record col = Normal cell)
              columnList cells)
         records rows
    /\ (forall record col,
          is_nullish (cell_value record col) = true ->
          cell_html H record col = Normal placeholder_cell)
    /\ (forall record col,
          truthy_json record = false ->
          cell_html H record col = Normal placeholder_cell)
    /\ (forall fields col,
          assoc col fields = None ->
          ~ In col Object_prototype_keys ->
          cell_html H (JObj fields) col = Normal placeholder_cell)
    /\ (forall w,
          records_of (state w) (dataset (state w)) = records ->
          records <> [] ->
          tbody_html (tableCard (page (snd (updateDataTable H w))))
          = join [] (map (fun cells => lit "<tr>" ++ join [] cells ++ lit "</tr>")
                       rows)).
Proof.
  cbv zeta.
  destruct (rowsHtml_spec H (columnList_of records) records) as (rows & E & HF).
  assert (Hnull : forall record col,
             is_nullish (cell_value record col) = true ->
             cell_html H record col = Normal placeholder_cell).
  { intros record col Hn. unfold cell_html, formatValue. now rewrite Hn. }
  exists rows. split; [exact E|]. split; [|split; [|split; [exact HF|]]].
  - symmetry. exact (Forall2_length_eq HF).
  - eexists. split; [apply header_cells_spec|].
    clear E Hnull. remember (columnList_of records) as cols eqn:Ec. clear Ec.
    induction HF as [|record cells rs rws Hc _ IH]; constructor.
    + rewrite length_map. symmetry. exact (Forall2_length_eq Hc).
    + exact IH.
  - split; [exact Hnull|]. split; [|split].
    + intros record col Hf. apply Hnull. unfold cell_value. now rewrite Hf.
    + intros fields col Ha Hnot. apply Hnull.
      unfold cell_value, get_property. cbn [truthy_json]. rewrite Ha.
      now rewrite inherited_from_Object.
    + intros w Hrec Hne.
      now destruct (updateDataTable_table H w Hrec Hne
                      (header_cells_spec H (columnList_of records)) E).
Qed.

Lemma rows_witness :
  let records := [JObj [(lit "a", JNum (lit "1"))]; JObj []; JNull] in
  let w := Reference.world_of (mkState (VJson JNull) records [] [] Contacts) in
  is_nullish (cell_value JNull (lit "a")) = true
  /\ truthy_json JNull = false
  /\ assoc (lit "a") [] = None
  /\ ~ In (lit "a") Object_prototype_keys
  /\ records_of (state w) (dataset (state w)) = records
  /\ records <> []
  /\ cell_html Reference.host JNull (lit "a") = Normal placeholder_cell
  /\ cell_html Reference.host (JObj []) (lit "a") = Normal placeholder_cell
  /\ tbody_html (tableCard (page (snd (updateDataTable Reference.host w))))
     = lit "<tr><td>1</td></tr>" ++ lit "<tr>" ++ placeholder_cell ++ lit "</tr>"
       ++ lit "<tr>" ++ placeholder_cell ++ lit "</tr>".
Proof.
  cbv zeta.
  assert (Hnot : ~ In (lit "a") Object_prototype_keys).
  { intros Hin. apply mem_str_In in Hin. discriminate Hin. }
  destruct (rows_have_one_cell_per_column Reference.host
              [JObj [(lit "a", JNum (lit "1"))]; JObj []; JNull])
    as (rows & E & _ & _ & _ & Hn & Hf & Ho & Hw).
  split; [reflexivity|]. split; [reflexivity|]. split; [reflexivity|].
  split; [exact Hnot|]. split; [reflexivity|]. split; [discriminate|].
  split; [apply Hf; reflexivity|].
  split; [apply Ho; [reflexivity | exact Hnot]|].
  rewrite Hw; [|reflexivity|discriminate].
  assert (E' : rowsHtml Reference.host
                 (columnList_of [JObj [(lit "a", JNum (lit "1"))]; JObj []; JNull])
                 [JObj [(lit "a", JNum (lit "1"))]; JObj []; JNull]
               = Normal [lit "<tr><td>1</td></tr>";
                         lit "<tr>" ++ placeholder_cell ++ lit "</tr>";
                         lit "<tr>" ++ placeholder_cell ++ lit "</tr>"])
    by reflexivity.
  rewrite E in E'. injection E' as E'.
  transitivity (join [] [lit "<tr><td>1</td></tr>";
                         lit "<tr>" ++ placeholder_cell ++ lit "</tr>";
                         lit "<tr>" ++ placeholder_cell ++ lit "</tr>"]);
    [apply (f_equal (join [])); exact E' | reflexivity].
Defined.

(** C10 as the claim has it fails: a record that is an array is not a plain
    object, yet under a column named ["0"] its row shows the first element
    of the array, not the placeholder. *)
Lemma array_record_cell_not_placeholder :
  let records := [JObj [(lit "0", JStr (lit "a"))]; JArr [JStr (lit "b")]] in
  columnList_of records = [lit "0"]
  /\ lacks_column (JArr [JStr (lit "b")]) (lit "0")
  /\ rowsHtml Reference.host (columnList_of records) records
     = Normal [lit "<tr><td>a</td></tr>"; lit "<tr><td>b</td></tr>"]
  /\ cell_html Reference.host (JArr [JStr (lit "b")]) (lit "0")
     <> Normal placeholder_cell.
Proof.
  cbv zeta. split; [reflexivity|]. split; [exact I|]. split; [reflexivity|].
  discriminate.
Qed.

(** The same for a plain object and an inherited name: a record without
    its own [toString] shows the built-in function under that column. *)
Lemma inherited_name_cell_not_placeholder :
  lacks_column (JObj []) (lit "toString")
  /\ cell_html Reference.host (JObj []) (lit "toString")
     = Normal (lit "<td>function toString() { [native code] }</td>")
  /\ cell_html Reference.host (JObj []) (lit "toString")
     <> Normal placeholder_cell.
Proof. split; [reflexivity|]. split; [reflexivity | discriminate]. Qed.

(** ** The log buffer *)

Lemma tl_skipn_snoc {A} (k : nat) (l : list A) (x : A) :
  k < length l -> tl (skipn k l ++ [x]) = skipn (S k) (l ++ [x]).
Proof.
  revert k; induction l as [|a l IH]; intros k Hk; simpl in Hk; [lia|].
  destruct k as [|k].
  - reflexivity.
  - cbn [skipn app]. rewrite IH by lia. reflexivity.
Qed.

Lemma push_shift_last_n (all : list jsstring) (x : jsstring) :
  push_shift (last_n LOG_LIMIT all) x = last_n LOG_LIMIT (all ++ [x]).
Proof.
  unfold push_shift, last_n. rewrite !length_app, length_skipn. cbn [length].
  destruct (Nat.ltb_spec LOG_LIMIT
              (length all - (length all - LOG_LIMIT) + 1)) as [Hfull|Hroom].
  - rewrite tl_skipn_snoc by (unfold LOG_LIMIT in *; lia).
    f_equal. unfold LOG_LIMIT in *; lia.
  - replace (length all - LOG_LIMIT) with 0 by (unfold LOG_LIMIT in *; lia).
    replace (length all + 1 - LOG_LIMIT) with 0 by (unfold LOG_LIMIT in *; lia).
    reflexivity.
Qed.

Lemma last_n_length {A} (n : nat) (l : list A) : length (last_n n l) <= n.
Proof. unfold last_n. rewrite length_skipn. lia. Qed.

Lemma push_shift_bounded lines x :
  length lines <= LOG_LIMIT -> length (push_shift lines x) <= LOG_LIMIT.
Proof.
  intros Hb. unfold push_shift.
  destruct (Nat.ltb_spec LOG_LIMIT (length (lines ++ [x]))) as [Hfull|Hroom];
    [|assumption].
  rewrite length_app in Hfull. cbn [length] in Hfull.
  destruct lines as [|l lines]; cbn [tl app length] in *; [lia|].
  rewrite length_app. cbn [length]. lia.
Qed.

Lemma pushLog_consistent (H : Host) message level details w :
  log_consistent w -> log_consistent (snd (pushLog H message level details w)).
Proof.
  unfold log_consistent. intros Hw. cbn [pushLog snd logLines logged].
  rewrite Hw, map_app. cbn [map log_line]. apply push_shift_last_n.
Qed.

Lemma push_all_consistent (H : Host) calls w :
  log_consistent w -> log_consistent (push_all H calls w).
Proof.
  revert w; induction calls as [|c calls IH]; intros w Hw; [exact Hw|].
  apply IH. now apply pushLog_consistent.
Qed.

Lemma push_all_logged (H : Host) calls w :
  map log_line (logged (push_all H calls w))
  = map log_line (logged w) ++ lines_from H (length (logged w)) calls.
Proof.
  revert w; induction calls as [|c calls IH]; intros w.
  - cbn. now rewrite app_nil_r.
  - change (push_all H (c :: calls) w)
      with (push_all H calls
              (snd (pushLog H (req_message c) (req_level c) (req_details c) w))).
    rewrite IH. cbn [pushLog snd logged lines_from].
    rewrite map_app, length_app, <- app_assoc. cbn [map log_line length app].
    now rewrite Nat.add_1_r.
Qed.

Lemma lines_from_length (H : Host) k calls :
  length (lines_from H k calls) = length calls.
Proof. revert k; induction calls; intros k; simpl; congruence. Qed.

(** C5.  After any run of [pushLog] calls from the empty log the buffer
    holds at most 400 lines, namely the last 400 of the lines written, in
    order; one call keeps a buffer of at most 400 lines within 400; and after
    401 calls the first line written is gone and the second is the oldest
    line of the buffer. *)
Theorem log_buffer_bounded_fifo (H : Host) (p : Page) (calls : list LogRequest) :
  let w := push_all H calls (initial_world p) in
  length (logLines w) <= 400
  /\ logLines w = last_n 400 (lines_from H 0 calls)
  /\ (forall w0 message level details,
        length (logLines w0) <= 400 ->
        length (logLines (snd (pushLog H message level details w0))) <= 400)
  /\ (forall first second rest,
        lines_from H 0 calls = first :: second :: rest ->
        length calls = 401 ->
        logLines w = second :: rest).
Proof.
  cbv zeta.
  assert (Hc : log_consistent (push_all H calls (initial_world p))).
  { apply push_all_consistent. reflexivity. }
  unfold log_consistent in Hc. rewrite push_all_logged in Hc.
  cbn [initial_world logged map app length] in Hc.
  split; [rewrite Hc; apply last_n_length|]. split; [exact Hc|]. split.
  - intros w0 message level details Hb. cbn [pushLog snd logLines].
    now apply push_shift_bounded.
  - intros first second rest Hl Hn. rewrite Hc. unfold last_n, LOG_LIMIT.
    rewrite lines_from_length, Hn, Hl. reflexivity.
Qed.

Lemma log_buffer_witness :
  let calls :=
    map (fun n => mkLogRequest (dec n) info None) (seq 1 401) in
  let w := push_all Reference.host calls Reference.start in
  length (logLines Reference.start) <= 400
  /\ length calls = 401
  /\ length (logLines w) = 400
  /\ hd [] (logLines w) = lit "[12:00:00] [INFO] 2"
  /\ ~ In (lit "[12:00:00] [INFO] 1") (logLines w)
  /\ length (logLines (snd (pushLog Reference.host (lit "x") warn None
                              Reference.start))) <= 400.
Proof.
  cbv zeta.
  destruct (log_buffer_bounded_fifo Reference.host Reference.blank_page
              (map (fun n => mkLogRequest (dec n) info None) (seq 1 401)))
    as (_ & _ & Hstep & Hfifo).
  split; [cbn; lia|]. split; [reflexivity|].
  assert (Hl : exists rest,
             lines_from Reference.host 0
               (map (fun n => mkLogRequest (dec n) info None) (seq 1 401))
             = lit "[12:00:00] [INFO] 1" :: lit "[12:00:00] [INFO] 2" :: rest
             /\ length rest = 399
             /\ existsb (str_eqb (lit "[12:00:00] [INFO] 1")) rest = false).
  { eexists. split; [vm_compute; reflexivity|]. split; vm_compute; reflexivity. }
  destruct Hl as (rest & Hl & Hlen & Hnot).
  unfold Reference.start.
  rewrite (Hfifo _ _ _ Hl eq_refl).
  split; [cbn [length]; now rewrite Hlen|]. split; [reflexivity|]. split.
  - intros [E|Hin]; [discriminate E|].
    apply mem_str_In in Hin. unfold mem_str in Hin. congruence.
  - apply Hstep. cbn; lia.
Defined.

(** ** parseNDJSON *)

Lemma trim_start_nil l : trim_start l = [] <-> forallb is_space l = true.
Proof.
  induction l as [|c l IH]; simpl; [tauto|].
  destruct (is_space c); simpl; [exact IH|].
  split; discriminate.
Qed.

Lemma forallb_trim_start l :
  forallb is_space (trim_start l) = forallb is_space l.
Proof.
  induction l as [|c l IH]; simpl; [reflexivity|].
  destruct (is_space c) eqn:E; simpl; [exact IH|].
  now rewrite E.
Qed.

Lemma forallb_rev_eq {A} (f : A -> bool) l : forallb f (rev l) = forallb f l.
Proof.
  induction l as [|x l IH]; simpl; [reflexivity|].
  rewrite forallb_app, IH. simpl. rewrite andb_true_r. apply andb_comm.
Qed.

(** [trim] leaves nothing exactly of the blank lines. *)
Lemma trim_nil_iff l : trim l = [] <-> is_blank l = true.
Proof.
  unfold trim, is_blank.
  rewrite <- forallb_trim_start, <- forallb_rev_eq, <- trim_start_nil.
  split.
  - intros E. apply (f_equal (@rev char16)) in E. now rewrite rev_involutive in E.
  - now intros ->.
Qed.

Lemma parse_lines_spec (H : Host) (label : option jsstring) (lines : list jsstring) :
  forall index out w,
  exists errs w',
    parse_lines H label lines index out w
    = (Normal (out ++ flat_map (decode_line H) lines), w')
    /\ logged w' = logged w ++ errs
    /\ Forall (fun c => log_level c = error) errs
    /\ length (flat_map (decode_line H) lines) + length errs
       = length (non_blank lines)
    /\ state w' = state w
    /\ requests w' = requests w
    /\ alerts w' = alerts w.
Proof.
  induction lines as [|line lines IH]; intros index out w.
  - exists [], w. cbn. rewrite !app_nil_r. repeat split. constructor.
  - cbn [parse_lines flat_map non_blank filter]. unfold decode_line at 1 3.
    destruct (trim line) as [|c t] eqn:Et.
    + apply trim_nil_iff in Et. rewrite Et. cbn [negb app].
      apply IH.
    + assert (Hb : is_blank line = false).
      { destruct (is_blank line) eqn:Eb; [|reflexivity].
        apply trim_nil_iff in Eb. congruence. }
      rewrite Hb. cbn [negb length].
      destruct (JSON_parse H (c :: t)) as [v|err].
      * destruct (IH (S index) (out ++ [v]) w)
          as (errs & w' & E & Hl & Hf & Hn & Hs & Hr & Ha).
        exists errs, w'. rewrite E, <- app_assoc.
        repeat split; try assumption.
        rewrite length_app. cbn [length]. fold (non_blank lines). lia.
      * cbn [bind pushLog fst snd app].
        match goal with
        | |- context [parse_lines H label lines (S index) out ?w1] =>
            destruct (IH (S index) out w1)
              as (errs & w' & E & Hl & Hf & Hn & Hs & Hr & Ha)
        end.
        rewrite E. cbn [logged state requests alerts] in Hl, Hs, Hr, Ha.
        eexists (_ :: errs), w'. cbn [app].
        rewrite Hl, <- app_assoc. cbn [app].
        repeat split; try assumption.
        -- constructor; [reflexivity | assumption].
        -- cbn [length]. fold (non_blank lines). lia.
Qed.

Lemma trim_start_blank a s :
  forallb is_space a = true -> trim_start (a ++ s) = trim_start s.
Proof.
  induction a as [|c a IH]; [reflexivity|]. cbn [forallb app trim_start].
  intros Hb. apply andb_prop in Hb as (Hc & Ha). rewrite Hc. now apply IH.
Qed.

Lemma trim_start_app s b :
  trim_start s <> [] -> trim_start (s ++ b) = trim_start s ++ b.
Proof.
  induction s as [|c s IH]; [intros Hn; now destruct Hn|]. cbn [app trim_start].
  destruct (is_space c); [exact IH | reflexivity].
Qed.

Lemma trim_start_all_blank s :
  forallb is_space s = true -> trim_start s = [].
Proof. apply trim_start_nil. Qed.

(** White space around a line does not change what [trim] leaves. *)
Lemma trim_padding a s b :
  forallb is_space a = true -> forallb is_space b = true ->
  trim (a ++ s ++ b) = trim s.
Proof.
  intros Ha Hb. unfold trim. rewrite (@trim_start_blank a (s ++ b) Ha). f_equal.
  destruct (trim_start s) as [|c s'] eqn:Es.
  - apply trim_start_nil in Es.
    rewrite (@trim_start_all_blank (s ++ b))
      by (rewrite forallb_app, Es, Hb; reflexivity).
    reflexivity.
  - rewrite trim_start_app by (rewrite Es; discriminate). rewrite Es, rev_app_distr.
    apply trim_start_blank. now rewrite forallb_rev_eq.
Qed.

Lemma chomp_cr_cases line : chomp_cr line = line \/ line = chomp_cr line ++ [13%N].
Proof.
  induction line as [|c [|d rest] IH].
  - now left.
  - cbn. destruct (N.eqb_spec c 13) as [->|_]; [now right | now left].
  - change (chomp_cr (c :: d :: rest)) with (c :: chomp_cr (d :: rest)).
    destruct IH as [->|E]; [now left|]. right. cbn [app]. now rewrite <- E.
Qed.

Lemma trim_chomp_cr line : trim (chomp_cr line) = trim line.
Proof.
  destruct (chomp_cr_cases line) as [->|E]; [reflexivity|].
  rewrite E at 2. symmetry.
  exact (@trim_padding [] (chomp_cr line) [13%N] eq_refl eq_refl).
Qed.

(** Up to the first line feed: the line, less a carriage return right
    before the line feed, and then the lines of the rest. *)
Lemma split_lines_first (x b : jsstring) :
  ~ In 10%N x ->
  split_lines (x ++ 10%N :: b) = chomp_cr x :: split_lines b.
Proof.
  induction x as [|c x IH]; intros Hx; [reflexivity|].
  assert (Hc : (c =? 10)%N = false).
  { apply N.eqb_neq. intros ->. apply Hx. now left. }
  assert (Hx' : ~ In 10%N x) by (intros Hin; apply Hx; now right).
  specialize (IH Hx').
  cbn [app split_lines]. rewrite Hc, IH.
  destruct x as [|d x].
  - cbn [app]. rewrite N.eqb_refl. cbn [chomp_cr].
    now destruct (c =? 13)%N.
  - assert (Hd : (d =? 10)%N = false).
    { apply N.eqb_neq. intros ->. apply Hx'. now left. }
    cbn [app]. rewrite Hd.
    change (chomp_cr (c :: d :: x)) with (c :: chomp_cr (d :: x)).
    now destruct (c =? 13)%N.
Qed.

Lemma split_lines_single (x : jsstring) : ~ In 10%N x -> split_lines x = [x].
Proof.
  induction x as [|c x IH]; intros Hx; [reflexivity|].
  assert (Hc : (c =? 10)%N = false).
  { apply N.eqb_neq. intros ->. apply Hx. now left. }
  assert (Hx' : ~ In 10%N x) by (intros Hin; apply Hx; now right).
  cbn [split_lines]. rewrite Hc, (IH Hx').
  destruct x as [|d x]; [now destruct (c =? 13)%N|].
  assert (Hd : (d =? 10)%N = false).
  { apply N.eqb_neq. intros ->. apply Hx'. now left. }
  rewrite Hd. now destruct (c =? 13)%N.
Qed.

Lemma decode_line_chomp (H : Host) line :
  decode_line H (chomp_cr line) = decode_line H line.
Proof. unfold decode_line. now rewrite trim_chomp_cr. Qed.

Lemma decode_line_padding (H : Host) (before line after : jsstring) :
  is_blank before = true -> is_blank after = true ->
  decode_line H (before ++ line ++ after) = decode_line H line.
Proof.
  intros Hb Ha. unfold decode_line.
  now rewrite (@trim_padding before line after Hb Ha).
Qed.

(** The lines that the reader finds in lines joined by line feeds, or by
    carriage returns and line feeds: the same lines, up to the white space
    around each. *)
Lemma lines_of_join (sep : jsstring) (lines : list jsstring) :
  (sep = [10%N] \/ sep = [13%N; 10%N]) ->
  Forall (fun line => ~ In 10%N line) lines ->
  lines <> [] ->
  Forall2 (fun found line => trim found = trim line)
    (split_lines (join sep lines)) lines.
Proof.
  intros Hsep Hlines.
  induction Hlines as [|line lines Hl Hrest IH]; intros Hne;
    [now destruct Hne|]. clear Hne.
  destruct lines as [|next lines].
  - cbn [join]. rewrite split_lines_single by exact Hl.
    constructor; [reflexivity | constructor].
  - change (join sep (line :: next :: lines))
      with (line ++ sep ++ join sep (next :: lines)).
    specialize (IH ltac:(discriminate)).
    destruct Hsep as [->| ->].
    + cbn [app]. rewrite (@split_lines_first line _ Hl).
      constructor; [apply trim_chomp_cr | exact IH].
    + match goal with
      | |- context [split_lines ?t] =>
          assert (E : t = (line ++ [13%N]) ++ 10%N :: join [13%N; 10%N] (next :: lines))
            by (now rewrite <- app_assoc);
          rewrite E
      end.
      rewrite split_lines_first.
      * constructor; [|exact IH]. rewrite trim_chomp_cr.
        exact (@trim_padding [] line [13%N] eq_refl eq_refl).
      * rewrite in_app_iff. intros [Hin|[Ec|[]]]; [now apply Hl | discriminate Ec].
Qed.

Lemma same_trim_records (H : Host) (found lines : list jsstring) :
  Forall2 (fun a b => trim a = trim b) found lines ->
  flat_map (decode_line H) found = flat_map (decode_line H) lines.
Proof.
  induction 1 as [|a b found lines Hab _ IH]; [reflexivity|].
  cbn [flat_map]. rewrite IH. f_equal. unfold decode_line. now rewrite Hab.
Qed.

Lemma same_trim_blank (a b : jsstring) :
  trim a = trim b -> is_blank a = is_blank b.
Proof.
  intros Hab.
  destruct (is_blank a) eqn:Ea, (is_blank b) eqn:Eb; try reflexivity.
  - apply trim_nil_iff in Ea. rewrite Hab in Ea. apply trim_nil_iff in Ea.
    congruence.
  - apply trim_nil_iff in Eb. rewrite <- Hab in Eb. apply trim_nil_iff in Eb.
    congruence.
Qed.

Lemma same_trim_non_blank (found lines : list jsstring) :
  Forall2 (fun a b => trim a = trim b) found lines ->
  length (non_blank found) = length (non_blank lines).
Proof.
  induction 1 as [|a b found lines Hab _ IH]; [reflexivity|].
  cbn [non_blank filter]. rewrite (same_trim_blank _ _ Hab).
  destruct (is_blank b); cbn [negb length]; fold (non_blank found);
    fold (non_blank lines); now rewrite IH.
Qed.

Lemma records_of_lines (H : Host) (sep : jsstring) (lines : list jsstring) :
  (sep = [10%N] \/ sep = [13%N; 10%N]) ->
  Forall (fun line => ~ In 10%N line) lines ->
  lines <> [] ->
  flat_map (decode_line H) (split_lines (join sep lines))
  = flat_map (decode_line H) lines.
Proof.
  intros Hsep Hlines Hne. apply same_trim_records. now apply lines_of_join.
Qed.

(** Every text is its lines joined by line feeds. *)
Lemma text_is_joined_lines (text : jsstring) :
  exists lines,
    Forall (fun line => ~ In 10%N line) lines /\ text = join [10%N] lines.
Proof.
  induction text as [|c text (lines & Hl & ->)].
  - exists []. split; [constructor | reflexivity].
  - destruct (N.eqb_spec c 10) as [->|Hc].
    + destruct lines as [|line lines].
      * exists [[]; []]. split; [|reflexivity].
        repeat constructor; intros [].
      * exists ([] :: line :: lines). split; [|reflexivity].
        constructor; [intros []|exact Hl].
    + destruct lines as [|line lines].
      * exists [[c]]. split; [|reflexivity].
        repeat constructor. intros [E|[]]. now apply Hc.
      * exists ((c :: line) :: lines). split.
        -- inversion Hl as [|? ? Hline Hrest]; subst.
           constructor; [|exact Hrest].
           intros [E|Hin]; [now apply Hc | now apply Hline].
        -- destruct lines; reflexivity.
Qed.

(** C2.  [parseNDJSON] always returns.  For a text made of lines joined
    by line feeds, or by carriage returns and line feeds -- and every text is
    one -- it returns the values of the non-blank lines that decode, in
    order; every line it logs is an error line, one per non-blank line that
    does not decode, so the length of the output plus the number of logged
    errors is the number of non-blank lines; an absent or empty text gives
    the empty sequence and changes nothing. *)
Theorem parseNDJSON_counts (H : Host) (sep : jsstring) (lines : list jsstring)
    (label : option jsstring) (w : World) :
  (sep = [10%N] \/ sep = [13%N; 10%N]) ->
  Forall (fun line => ~ In 10%N line) lines ->
  exists out errs w',
    parseNDJSON H (Some (join sep lines)) label w = (Normal out, w')
    /\ out = flat_map (decode_line H) lines
    /\ logged w' = logged w ++ errs
    /\ Forall (fun c => log_level c = error) errs
    /\ length out + length errs = length (non_blank lines)
    /\ (forall text, exists ls,
          Forall (fun line => ~ In 10%N line) ls /\ text = join [10%N] ls)
    /\ parseNDJSON H None label w = (Normal [], w)
    /\ parseNDJSON H (Some []) label w = (Normal [], w).
Proof.
  intros Hsep Hlines.
  assert (Hfound : flat_map (decode_line H) (split_lines (join sep lines))
                   = flat_map (decode_line H) lines
                   /\ length (non_blank (split_lines (join sep lines)))
                      = length (non_blank lines)).
  { destruct lines as [|line lines]; [split; reflexivity|].
    assert (Hj : Forall2 (fun found l => trim found = trim l)
                   (split_lines (join sep (line :: lines))) (line :: lines))
      by (apply lines_of_join; [assumption | assumption | discriminate]).
    split; [now apply same_trim_records | now apply same_trim_non_blank]. }
  destruct Hfound as (Hrec & Hcount).
  destruct (join sep lines) as [|c t].
  - exists [], [], w. rewrite app_nil_r.
    split; [reflexivity|]. split; [exact Hrec|]. split; [reflexivity|].
    split; [constructor|]. split; [exact Hcount|].
    split; [apply text_is_joined_lines|]. split; reflexivity.
  - unfold parseNDJSON. cbn [truthy_text negb].
    destruct (parse_lines_spec H label (split_lines (c :: t)) 0 [] w)
      as (errs & w' & E & Hl & Hf & Hn & _).
    exists (flat_map (decode_line H) (split_lines (c :: t))), errs, w'.
    rewrite E. split; [reflexivity|]. split; [exact Hrec|].
    split; [exact Hl|]. split; [exact Hf|].
    split; [now rewrite Hn, Hcount|].
    split; [apply text_is_joined_lines|]. split; reflexivity.
Qed.

(** The first scenario of the specification: of three lines, the second of
    which is not JSON, two records are read and one error is logged. *)
Lemma parseNDJSON_counts_witness :
  let lines := [Reference.json "{'a':1}"; lit "bad-json"; Reference.json "{'b':2}"] in
  ([10%N] = [10%N] \/ [10%N] = [13%N; 10%N])
  /\ Forall (fun line => ~ In 10%N line) lines
  /\ exists errs w',
       parseNDJSON Reference.host (Some (join [10%N] lines)) (Some (lit "Contatos"))
         Reference.start
       = (Normal [JObj [(lit "a", JNum (lit "1"))];
                  JObj [(lit "b", JNum (lit "2"))]], w')
       /\ logged w' = errs
       /\ length errs = 1.
Proof.
  cbv zeta.
  assert (Hsep : [10%N] = [10%N] \/ [10%N] = [13%N; 10%N]) by now left.
  assert (Hlines : Forall (fun line => ~ In 10%N line)
                     [Reference.json "{'a':1}"; lit "bad-json";
                      Reference.json "{'b':2}"]).
  { repeat constructor; intros Hin;
      repeat (destruct Hin as [E|Hin]; [discriminate E|]); exact Hin. }
  destruct (@parseNDJSON_counts Reference.host [10%N] _ (Some (lit "Contatos"))
              Reference.start Hsep Hlines)
    as (out & errs & w' & E & Hout & Hlog & _ & Hcount & _).
  split; [exact Hsep|]. split; [exact Hlines|].
  exists errs, w'.
  assert (Hout' : out = [JObj [(lit "a", JNum (lit "1"))];
                         JObj [(lit "b", JNum (lit "2"))]])
    by (rewrite Hout; vm_compute; reflexivity).
  rewrite Hout' in E, Hcount.
  split; [exact E|]. split; [exact Hlog|].
  assert (Hthree : length (non_blank [Reference.json "{'a':1}"; lit "bad-json";
                                      Reference.json "{'b':2}"]) = 3)
    by (vm_compute; reflexivity).
  rewrite Hthree in Hcount. cbn [length] in Hcount. lia.
Defined.

(** The first scenario of the specification: three lines, the second of
    which is not JSON. *)
Example parseNDJSON_scenario :
  let text := Reference.json "{'a':1}" ++ [10%N] ++ lit "bad-json" ++ [10%N]
              ++ Reference.json "{'b':2}" in
  let result := parseNDJSON Reference.host (Some text) (Some (lit "Contatos"))
                  Reference.start in
  fst result = Normal [JObj [(lit "a", JNum (lit "1"))];
                       JObj [(lit "b", JNum (lit "2"))]]
  /\ map log_line (logged (snd result))
     = [lit "[12:00:00] [ERROR] Não foi possível interpretar uma linha em Contatos"
          ++ [10%N] ++ lit "Linha 2: Unexpected token in JSON"].
Proof. split; reflexivity. Qed.

(** ** The store *)

Lemma keeps_ret {X A} (proj : World -> X) (a : A) : keeps proj (ret a).
Proof. intros w. reflexivity. Qed.

Lemma keeps_lift {X A} (proj : World -> X) (c : Completion A) : keeps proj (lift c).
Proof. intros w. reflexivity. Qed.

Lemma keeps_throw {X A} (proj : World -> X) (e : JsError) : keeps proj (@throw A e).
Proof. intros w. reflexivity. Qed.

Lemma keeps_read {X A} (proj : World -> X) (f : World -> A) : keeps proj (read f).
Proof. intros w. reflexivity. Qed.

Lemma keeps_modify {X} (proj : World -> X) (f : World -> World) :
  (forall w, proj (f w) = proj w) -> keeps proj (modify f).
Proof. intros Hf w. apply Hf. Qed.

Lemma keeps_bind {X A B} (proj : World -> X) (c : M A) (k : A -> M B) :
  keeps proj c -> (forall a, keeps proj (k a)) -> keeps proj (bind c k).
Proof.
  intros Hc Hk w. unfold bind. specialize (Hc w).
  destruct (c w) as [[a|e] w1]; cbn [snd] in *.
  - now rewrite Hk.
  - exact Hc.
Qed.

Lemma keeps_try_catch {X A} (proj : World -> X) (c : M A)
    (handler : JsError -> M A) :
  keeps proj c -> (forall e, keeps proj (handler e)) ->
  keeps proj (try_catch c handler).
Proof.
  intros Hc Hh w. unfold try_catch. specialize (Hc w).
  destruct (c w) as [[a|e] w1]; cbn [snd] in *.
  - exact Hc.
  - now rewrite Hh.
Qed.

Lemma keeps_finally {X A} (proj : World -> X) (c : M A) (f : World -> World) :
  keeps proj c -> (forall w, proj (f w) = proj w) -> keeps proj (finally c f).
Proof.
  intros Hc Hf w. unfold finally. specialize (Hc w).
  destruct (c w) as [r w1]; cbn [snd] in *. now rewrite Hf.
Qed.

(** Splits a script into its steps, closing with [leaf] those that change
    the world. *)
Ltac keep_steps leaf :=
  repeat first
    [ solve [leaf]
    | apply keeps_ret | apply keeps_lift | apply keeps_throw | apply keeps_read
    | apply keeps_bind; [|intros ?]
    | apply keeps_try_catch; [|intros ?]
    | match goal with
      | |- keeps _ (if ?b then _ else _) => destruct b
      | |- keeps _ (match ?x with _ => _ end) => destruct x
      end ].

(** What the log, the page and the alerts do not touch. *)
Section Keeps.

Context {X : Type} (proj : World -> X).

Hypothesis proj_stable :
  forall w lines trace p a,
    proj (mkWorld (state w) lines trace p a (requests w)) = proj w.

Lemma keeps_page (f : World -> Page -> Page) :
  keeps proj (modify (fun w => set_page (f w) w)).
Proof. intros w. apply proj_stable. Qed.

Lemma keeps_set_page (f : Page -> Page) : keeps proj (modify (set_page f)).
Proof. intros w. apply proj_stable. Qed.

Lemma keeps_pushLog (H : Host) message level details :
  keeps proj (pushLog H message level details).
Proof. intros w. apply proj_stable. Qed.

Lemma keeps_alert message : keeps proj (alert message).
Proof. intros w. apply proj_stable. Qed.

Lemma keeps_updateStatus text statusClass :
  keeps proj (updateStatus text statusClass).
Proof. apply keeps_set_page. Qed.

Ltac leaf :=
  first [ apply keeps_set_page | apply keeps_page | apply keeps_pushLog
        | apply keeps_alert | apply keeps_updateStatus ].

Lemma keeps_updateDatasetButtons : keeps proj updateDatasetButtons.
Proof. apply keeps_page. Qed.

Lemma keeps_updateSummaryCard : keeps proj updateSummaryCard.
Proof. unfold updateSummaryCard. keep_steps leaf. Qed.

Lemma keeps_updateMetricsCard (H : Host) : keeps proj (updateMetricsCard H).
Proof. unfold updateMetricsCard. keep_steps leaf. Qed.

Lemma keeps_updateSamplesCard : keeps proj updateSamplesCard.
Proof. unfold updateSamplesCard. keep_steps leaf. Qed.

Lemma keeps_updateDataTable (H : Host) : keeps proj (updateDataTable H).
Proof.
  unfold updateDataTable.
  keep_steps ltac:(first [leaf | apply keeps_updateDatasetButtons]).
Qed.

Lemma keeps_refreshUI (H : Host) : keeps proj (refreshUI H).
Proof.
  unfold refreshUI.
  keep_steps ltac:(first [ apply keeps_updateDatasetButtons
                         | apply keeps_updateSummaryCard
                         | apply keeps_updateMetricsCard
                         | apply keeps_updateDataTable
                         | apply keeps_updateSamplesCard ]).
Qed.

Lemma keeps_parse_lines (H : Host) label lines index out :
  keeps proj (parse_lines H label lines index out).
Proof.
  revert index out; induction lines as [|line lines IH]; intros index out.
  - apply keeps_ret.
  - cbn [parse_lines]. destruct (trim line) as [|c t]; [apply IH|].
    destruct (JSON_parse H (c :: t)); [apply IH|].
    apply keeps_bind; [apply keeps_pushLog | intros _; apply IH].
Qed.

Lemma keeps_parseNDJSON (H : Host) text label :
  keeps proj (parseNDJSON H text label).
Proof.
  unfold parseNDJSON.
  keep_steps ltac:(apply keeps_parse_lines).
Qed.

End Keeps.

Lemma set_state_requests f w : requests (set_state f w) = requests w.
Proof. reflexivity. Qed.

Lemma keeps_requests_applyData (H : Host) payload sourceLabel :
  keeps requests (applyData H payload sourceLabel).
Proof.
  unfold applyData.
  keep_steps ltac:(first [ apply keeps_modify; intros ?; reflexivity
                         | apply keeps_refreshUI; intros; reflexivity
                         | apply keeps_pushLog; intros; reflexivity ]).
Qed.

Lemma applyData_state (H : Host) payload sourceLabel w :
  state (snd (applyData H payload sourceLabel w))
  = reselect_dataset (replace_snapshot payload (state w)).
Proof.
  unfold applyData. run.
  match goal with
  | |- state (snd (?c ?w1)) = _ =>
      assert (Hk : keeps state c)
        by keep_steps ltac:(first [ apply keeps_refreshUI; intros; reflexivity
                                  | apply keeps_pushLog; intros; reflexivity ]);
      rewrite Hk
  end.
  reflexivity.
Qed.

Lemma reselect_keeps_records s k :
  records_of (reselect_dataset s) k = records_of s k.
Proof.
  unfold reselect_dataset. destruct (records_of s (dataset s)); [|reflexivity].
  now destruct k.
Qed.

Lemma reselect_keeps_summary s : summary (reselect_dataset s) = summary s.
Proof.
  unfold reselect_dataset. now destruct (records_of s (dataset s)).
Qed.

(** A key read by name is an own property of a plain object or nothing:
    no prototype has such a name, and it is no index or length. *)
Lemma data_key_read payload k :
  In k data_keys ->
  get_optional payload k
  = match own_field payload k with
    | Some v => VJson v
    | None => VUndefined
    end.
Proof.
  intros Hk. unfold get_optional, get_property, own_field.
  destruct payload as [|b|r|s|items|fields]; try reflexivity;
    cbn in Hk;
    repeat (destruct Hk as [<-|Hk]; [try reflexivity|]); try contradiction;
    match goal with
    | |- context [assoc ?key fields] => now destruct (assoc key fields)
    end.
Qed.

Lemma payload_array_read payload k :
  In k data_keys ->
  array_or_empty (get_optional payload k) = payload_array payload k.
Proof.
  intros Hk. rewrite data_key_read by exact Hk. unfold payload_array.
  destruct (own_field payload k) as [[| | | | |]|]; reflexivity.
Qed.

(** C1.  After [applyData] the summary and the three sequences are those
    of the payload: the summary is the payload's own [summary], or [null]
    when it has none; each sequence is the array the payload has under that
    key, or empty when it has none or has something else there.  Nothing of
    the store before the call enters: two calls with one payload on any two
    worlds leave the same four values. *)
Theorem applyData_replaces_snapshot (H : Host) (payload : Json)
    (sourceLabel : jsstring) (w : World) :
  let s' := state (snd (applyData H payload sourceLabel w)) in
  summary s'
  = VJson match own_field payload (lit "summary") with
          | Some v => v
          | None => JNull
          end
  /\ contacts s' = payload_array payload (lit "contacts")
  /\ chats s' = payload_array payload (lit "chats")
  /\ messages s' = payload_array payload (lit "messages")
  /\ (forall (w2 : World) (label2 : jsstring),
        let s2 := state (snd (applyData H payload label2 w2)) in
        summary s2 = summary s' /\ contacts s2 = contacts s'
        /\ chats s2 = chats s' /\ messages s2 = messages s').
Proof.
  cbv zeta. rewrite applyData_state, reselect_keeps_summary.
  rewrite <- !(payload_array_read payload) by (cbn; tauto).
  split.
  { cbn [replace_snapshot summary]. rewrite data_key_read by (cbn; tauto).
    now destruct (own_field payload (lit "summary")) as [[| | | | |]|]. }
  split; [exact (reselect_keeps_records (replace_snapshot payload (state w)) Contacts)|].
  split; [exact (reselect_keeps_records (replace_snapshot payload (state w)) Chats)|].
  split; [exact (reselect_keeps_records (replace_snapshot payload (state w)) Messages)|].
  intros w2 label2. rewrite applyData_state, reselect_keeps_summary.
  pose proof (reselect_keeps_records (replace_snapshot payload (state w))) as Hw.
  pose proof (reselect_keeps_records (replace_snapshot payload (state w2))) as Hw2.
  pose proof (Hw Contacts) as Hc. pose proof (Hw2 Contacts) as Hc2.
  pose proof (Hw Chats) as Hh. pose proof (Hw2 Chats) as Hh2.
  pose proof (Hw Messages) as Hm. pose proof (Hw2 Messages) as Hm2.
  cbn [records_of replace_snapshot contacts chats messages summary] in *.
  repeat split; congruence.
Qed.

Lemma reselect_dataset_spec s :
  (records_of s (dataset s) <> [] -> dataset (reselect_dataset s) = dataset s)
  /\ (records_of s (dataset s) = [] ->
      forall k before after,
        map key DATASETS = before ++ k :: after ->
        Forall (fun k' => records_of s k' = []) before ->
        records_of s k <> [] ->
        dataset (reselect_dataset s) = k)
  /\ (records_of s (dataset s) = [] ->
      (forall k, records_of s k = []) ->
      dataset (reselect_dataset s) = Contacts).
Proof.
  unfold reselect_dataset. split; [|split].
  - intros Hne. destruct (records_of s (dataset s)); [congruence | reflexivity].
  - intros -> k before after Hsplit Hbefore Hk.
    cbn [dataset find DATASETS key].
    destruct before as [|b1 [|b2 [|b3 [|b4 before]]]];
      cbn in Hsplit; try discriminate Hsplit;
      injection Hsplit as; subst;
      repeat match goal with
             | Hf : Forall _ (_ :: _) |- _ => inversion Hf; subst; clear Hf
             end;
      cbn [records_of] in *.
    + destruct (contacts s); [congruence | reflexivity].
    + match goal with Hc : contacts s = [] |- _ => rewrite Hc end. cbn.
      destruct (chats s); [congruence | reflexivity].
    + repeat match goal with
             | Hc : contacts s = [] |- _ => rewrite Hc; clear Hc
             | Hc : chats s = [] |- _ => rewrite Hc; clear Hc
             end. cbn.
      destruct (messages s); [congruence | reflexivity].
  - intros -> Hall. cbn [dataset find DATASETS key records_of].
    rewrite (Hall Contacts : contacts s = []), (Hall Chats : chats s = []),
      (Hall Messages : messages s = []).
    reflexivity.
Qed.

(** C3.  After [applyData]: an active dataset that has records stays
    active; one that is empty gives way to the first key, in the declared
    order contacts, chats, messages, whose dataset is not empty; and when
    all three are empty the active key is [contacts]. *)
Theorem applyData_reselects_dataset (H : Host) (payload : Json)
    (sourceLabel : jsstring) (w : World) :
  let old := dataset (state w) in
  let s' := state (snd (applyData H payload sourceLabel w)) in
  map key DATASETS = [Contacts; Chats; Messages]
  /\ (records_of s' old <> [] -> dataset s' = old)
  /\ (records_of s' old = [] ->
      forall k before after,
        map key DATASETS = before ++ k :: after ->
        Forall (fun k' => records_of s' k' = []) before ->
        records_of s' k <> [] ->
        dataset s' = k)
  /\ (records_of s' old = [] ->
      (forall k, records_of s' k = []) ->
      dataset s' = Contacts).
Proof.
  cbv zeta. rewrite applyData_state.
  set (s1 := replace_snapshot payload (state w)).
  assert (Hold : dataset s1 = dataset (state w)) by reflexivity.
  rewrite <- Hold.
  destruct (reselect_dataset_spec s1) as (Hkeep & Hfirst & Hnone).
  split; [reflexivity|]. split; [|split].
  - rewrite reselect_keeps_records. exact Hkeep.
  - rewrite reselect_keeps_records. intros Hempty k before after Hsplit Hb Hk.
    rewrite reselect_keeps_records in Hk.
    apply (Hfirst Hempty k before after Hsplit); [|exact Hk].
    rewrite Forall_forall in *. intros k' Hin.
    rewrite <- (reselect_keeps_records s1 k'). now apply Hb.
  - rewrite reselect_keeps_records. intros Hempty Hall.
    apply (Hnone Hempty). intros k. rewrite <- (reselect_keeps_records s1 k).
    apply Hall.
Qed.

(** The fifth scenario of the specification: [messages] is active and
    arrives empty, [contacts] is empty and [chats] has three records. *)
Lemma reselect_witness :
  let payload := JObj [(lit "chats", JArr [JObj []; JObj []; JObj []])] in
  let w := Reference.world_of (mkState (VJson JNull) [] [] [JNull] Messages) in
  let s' := state (snd (applyData Reference.host payload (lit "Teste") w)) in
  records_of s' Messages = []
  /\ map key DATASETS = [Contacts] ++ Chats :: [Messages]
  /\ Forall (fun k' => records_of s' k' = []) [Contacts]
  /\ records_of s' Chats <> []
  /\ dataset s' = Chats.
Proof.
  cbv zeta.
  destruct (applyData_reselects_dataset Reference.host
              (JObj [(lit "chats", JArr [JObj []; JObj []; JObj []])])
              (lit "Teste")
              (Reference.world_of (mkState (VJson JNull) [] [] [JNull] Messages)))
    as (_ & _ & Hfirst & _).
  assert (He : records_of
                 (state (snd (applyData Reference.host
                    (JObj [(lit "chats", JArr [JObj []; JObj []; JObj []])])
                    (lit "Teste")
                    (Reference.world_of
                       (mkState (VJson JNull) [] [] [JNull] Messages))))) Messages
               = []) by reflexivity.
  assert (Hb : Forall (fun k' => records_of
                 (state (snd (applyData Reference.host
                    (JObj [(lit "chats", JArr [JObj []; JObj []; JObj []])])
                    (lit "Teste")
                    (Reference.world_of
                       (mkState (VJson JNull) [] [] [JNull] Messages))))) k' = [])
                 [Contacts]) by (constructor; [reflexivity | constructor]).
  assert (Hc : records_of
                 (state (snd (applyData Reference.host
                    (JObj [(lit "chats", JArr [JObj []; JObj []; JObj []])])
                    (lit "Teste")
                    (Reference.world_of
                       (mkState (VJson JNull) [] [] [JNull] Messages))))) Chats
               <> []) by discriminate.
  split; [exact He|]. split; [reflexivity|]. split; [exact Hb|].
  split; [exact Hc|].
  exact (Hfirst He Chats [Contacts] [Messages] eq_refl Hb Hc).
Defined.

(** ** loadByPrefix *)

Lemma bind_returns {A B} (c : M A) (k : A -> M B) (w : World) (a : A) :
  fst (c w) = Normal a -> bind c k w = k a (snd (c w)).
Proof. unfold bind. destruct (c w) as [r w1]. cbn. now intros ->. Qed.

Lemma pushLog_returns (H : Host) message level details w :
  fst (pushLog H message level details w) = Normal tt.
Proof. reflexivity. Qed.

Lemma fetchText_returns (H : Host) (net : Net) url w :
  fst (fetchText H net url w) = Normal (fetched net url).
Proof.
  unfold fetchText, fetched, try_catch, bind, fetch.
  now destruct (net GET url) as [e|[|] [text|e]].
Qed.

Lemma fetchText_state (H : Host) (net : Net) url w :
  state (snd (fetchText H net url w)) = state w.
Proof.
  unfold fetchText, try_catch, bind, fetch.
  now destruct (net GET url) as [e|[|] [text|e]].
Qed.

Lemma fetchText_requests (H : Host) (net : Net) url w :
  requests (snd (fetchText H net url w)) = requests w ++ [(GET, url)].
Proof.
  unfold fetchText, try_catch, bind, fetch.
  now destruct (net GET url) as [e|[|] [text|e]].
Qed.

Lemma fetchJSON_returns (H : Host) (net : Net) url w :
  fst (fetchJSON H net url w) = Normal (fetched_json H net url).
Proof.
  unfold fetchJSON, fetched_json, fetched, try_catch, bind, fetch, resp_json, lift.
  destruct (net GET url) as [e|[|] [text|e]]; try reflexivity.
  cbn. now destruct (JSON_parse H text).
Qed.

Lemma fetchJSON_state (H : Host) (net : Net) url w :
  state (snd (fetchJSON H net url w)) = state w.
Proof.
  unfold fetchJSON, try_catch, bind, fetch, resp_json, lift.
  destruct (net GET url) as [e|[|] [text|e]]; try reflexivity.
  cbn. now destruct (JSON_parse H text).
Qed.

Lemma fetchJSON_requests (H : Host) (net : Net) url w :
  requests (snd (fetchJSON H net url w)) = requests w ++ [(GET, url)].
Proof.
  unfold fetchJSON, try_catch, bind, fetch, resp_json, lift.
  destruct (net GET url) as [e|[|] [text|e]]; try reflexivity.
  cbn. now destruct (JSON_parse H text).
Qed.

Lemma parseNDJSON_returns (H : Host) (text label : option jsstring) (w : World) :
  fst (parseNDJSON H text label w) = Normal (parsed_records H text).
Proof.
  destruct text as [[|c t]|]; try reflexivity.
  unfold parseNDJSON. cbn [truthy_text negb parsed_records].
  destruct (parse_lines_spec H label (split_lines (c :: t)) 0 [] w)
    as (errs & w' & E & _).
  now rewrite E.
Qed.

Lemma parseNDJSON_state (H : Host) text label w :
  state (snd (parseNDJSON H text label w)) = state w.
Proof. apply keeps_parseNDJSON. intros; reflexivity. Qed.

Lemma parseNDJSON_requests (H : Host) text label w :
  requests (snd (parseNDJSON H text label w)) = requests w.
Proof. apply keeps_parseNDJSON. intros; reflexivity. Qed.

(** The two requests for a dataset, the second only if the first text is
    [null] or empty. *)
Lemma dataset_text_bind (H : Host) (net : Net) (base : jsstring) (k : DatasetKey)
    {B} (rest : option jsstring -> M B) (w : World) :
  exists w1,
    (c0 <- fetchText H net (export_status_url base k) ;;
     text <- or_text c0 (fetchText H net (raw_url base k)) ;;
     rest text) w
    = rest (chosen_text net base k) w1
    /\ state w1 = state w
    /\ requests w1 = requests w ++ dataset_requests net base k.
Proof.
  rewrite (bind_returns _ _ _ (fetchText_returns H net _ w)).
  unfold or_text, chosen_text, dataset_requests.
  destruct (truthy_text (fetched net (export_status_url base k))).
  - eexists. split; [reflexivity|].
    split; [apply fetchText_state | apply fetchText_requests].
  - rewrite (bind_returns _ _ _ (fetchText_returns H net _ _)).
    eexists. split; [reflexivity|]. split.
    + now rewrite !fetchText_state.
    + now rewrite !fetchText_requests, <- app_assoc.
Qed.

Lemma summary_bind (H : Host) (net : Net) (base : jsstring)
    {B} (rest : Json -> M B) (w : World) :
  exists w1,
    (summary0 <- fetchJSON H net (base ++ lit "/summary.json") ;;
     summary1 <- (if negb (truthy_json summary0)
                  then fetchJSON H net (base ++ lit "/load_summary.json")
                  else ret summary0) ;;
     rest summary1) w
    = rest (chosen_summary H net base) w1
    /\ state w1 = state w
    /\ requests w1 = requests w ++ summary_requests H net base.
Proof.
  rewrite (bind_returns _ _ _ (fetchJSON_returns H net _ w)).
  unfold chosen_summary, summary_requests.
  destruct (truthy_json (fetched_json H net (base ++ lit "/summary.json")));
    cbn [negb].
  - eexists. split; [reflexivity|].
    split; [apply fetchJSON_state | apply fetchJSON_requests].
  - rewrite (bind_returns _ _ _ (fetchJSON_returns H net _ _)).
    eexists. split; [reflexivity|]. split.
    + now rewrite !fetchJSON_state.
    + now rewrite !fetchJSON_requests, <- app_assoc.
Qed.

Lemma try_catch_keeps {X A} (proj : World -> X) (c : M A)
    (handler : JsError -> M A) (w : World) :
  (forall e, keeps proj (handler e)) ->
  proj (snd (try_catch c handler w)) = proj (snd (c w)).
Proof.
  intros Hh. unfold try_catch. destruct (c w) as [[a|e] w1]; [reflexivity|].
  apply Hh.
Qed.

(** What a prefix load leaves: the store is the one [applyData] makes of
    the parsed texts, and the requests sent are those of the summary followed
    by those of the three datasets in turn. *)
Lemma loadByPrefix_spec (H : Host) (net : Net) (prefix : jsstring) (w : World) :
  trim prefix <> [] ->
  let base := lit "../data/" ++ trim prefix in
  let w' := snd (loadByPrefix H net prefix w) in
  state w' = reselect_dataset (replace_snapshot (prefix_payload H net base) (state w))
  /\ requests w'
     = requests w ++ summary_requests H net base
         ++ dataset_requests net base Contacts
         ++ dataset_requests net base Chats
         ++ dataset_requests net base Messages.
Proof.
  intros Hne. cbv zeta. unfold loadByPrefix.
  destruct (trim prefix) as [|c t]; [congruence|]. clear Hne.
  set (trimmed := c :: t). set (base := lit "../data/" ++ trimmed).
  rewrite (bind_returns _ _ _ (pushLog_returns H _ info None w)).
  match goal with
  | |- context [try_catch ?body ?hd ?wl] =>
      assert (Hbody : exists wn,
                 body wl = applyData H (prefix_payload H net base)
                             (lit "Prefixo " ++ trimmed) wn
                 /\ state wn = state w
                 /\ requests wn
                    = requests w ++ summary_requests H net base
                        ++ dataset_requests net base Contacts
                        ++ dataset_requests net base Chats
                        ++ dataset_requests net base Messages);
      [|destruct Hbody as (wn & Eb & Hs & Hr);
        assert (Hh : forall e, keeps state (hd e) /\ keeps requests (hd e))
          by (intros e; split;
              keep_steps ltac:(first [ apply keeps_pushLog; intros; reflexivity
                                     | apply keeps_alert; intros; reflexivity ]));
        rewrite (@try_catch_keeps _ _ state body hd wl (fun e => proj1 (Hh e))),
          (@try_catch_keeps _ _ requests body hd wl (fun e => proj2 (Hh e))), Eb]
  end.
  - match goal with
    | |- context [bind _ _ ?wl] =>
        assert (Hw0 : state wl = state w /\ requests wl = requests w)
          by (split; reflexivity);
        generalize dependent wl; intros w0 (Hs0 & Hr0)
    end.
    destruct (summary_bind H net base
                (fun summary1 =>
                   c0 <- fetchText H net (export_status_url base Contacts) ;;
                   contactsText <- or_text c0 (fetchText H net (raw_url base Contacts)) ;;
                   h0 <- fetchText H net (export_status_url base Chats) ;;
                   chatsText <- or_text h0 (fetchText H net (raw_url base Chats)) ;;
                   m0 <- fetchText H net (export_status_url base Messages) ;;
                   messagesText <- or_text m0 (fetchText H net (raw_url base Messages)) ;;
                   (if negb (truthy_json summary1) && negb (truthy_text contactsText)
                       && negb (truthy_text chatsText) && negb (truthy_text messagesText)
                    then pushLog H (lit "Nenhum arquivo encontrado em " ++ base) warn None
                    else ret tt) ;;
                   contacts' <- parseNDJSON H contactsText (Some (lit "Contatos (prefixo)")) ;;
                   chats' <- parseNDJSON H chatsText (Some (lit "Conversas (prefixo)")) ;;
                   messages' <- parseNDJSON H messagesText (Some (lit "Mensagens (prefixo)")) ;;
                   applyData H
                     (JObj [(lit "summary", summary1); (lit "contacts", JArr contacts');
                            (lit "chats", JArr chats'); (lit "messages", JArr messages')])
                     (lit "Prefixo " ++ trimmed)) w0)
      as (w1 & E1 & Hs1 & Hr1).
    destruct (dataset_text_bind H net base Contacts
                (fun contactsText =>
                   h0 <- fetchText H net (export_status_url base Chats) ;;
                   chatsText <- or_text h0 (fetchText H net (raw_url base Chats)) ;;
                   m0 <- fetchText H net (export_status_url base Messages) ;;
                   messagesText <- or_text m0 (fetchText H net (raw_url base Messages)) ;;
                   (if negb (truthy_json (chosen_summary H net base))
                       && negb (truthy_text contactsText)
                       && negb (truthy_text chatsText) && negb (truthy_text messagesText)
                    then pushLog H (lit "Nenhum arquivo encontrado em " ++ base) warn None
                    else ret tt) ;;
                   contacts' <- parseNDJSON H contactsText (Some (lit "Contatos (prefixo)")) ;;
                   chats' <- parseNDJSON H chatsText (Some (lit "Conversas (prefixo)")) ;;
                   messages' <- parseNDJSON H messagesText (Some (lit "Mensagens (prefixo)")) ;;
                   applyData H
                     (JObj [(lit "summary", chosen_summary H net base);
                            (lit "contacts", JArr contacts');
                            (lit "chats", JArr chats'); (lit "messages", JArr messages')])
                     (lit "Prefixo " ++ trimmed)) w1)
      as (w2 & E2 & Hs2 & Hr2).
    destruct (dataset_text_bind H net base Chats
                (fun chatsText =>
                   m0 <- fetchText H net (export_status_url base Messages) ;;
                   messagesText <- or_text m0 (fetchText H net (raw_url base Messages)) ;;
                   (if negb (truthy_json (chosen_summary H net base))
                       && negb (truthy_text (chosen_text net base Contacts))
                       && negb (truthy_text chatsText) && negb (truthy_text messagesText)
                    then pushLog H (lit "Nenhum arquivo encontrado em " ++ base) warn None
                    else ret tt) ;;
                   contacts' <- parseNDJSON H (chosen_text net base Contacts)
                                  (Some (lit "Contatos (prefixo)")) ;;
                   chats' <- parseNDJSON H chatsText (Some (lit "Conversas (prefixo)")) ;;
                   messages' <- parseNDJSON H messagesText (Some (lit "Mensagens (prefixo)")) ;;
                   applyData H
                     (JObj [(lit "summary", chosen_summary H net base);
                            (lit "contacts", JArr contacts');
                            (lit "chats", JArr chats'); (lit "messages", JArr messages')])
                     (lit "Prefixo " ++ trimmed)) w2)
      as (w3 & E3 & Hs3 & Hr3).
    destruct (dataset_text_bind H net base Messages
                (fun messagesText =>
                   (if negb (truthy_json (chosen_summary H net base))
                       && negb (truthy_text (chosen_text net base Contacts))
                       && negb (truthy_text (chosen_text net base Chats))
                       && negb (truthy_text messagesText)
                    then pushLog H (lit "Nenhum arquivo encontrado em " ++ base) warn None
                    else ret tt) ;;
                   contacts' <- parseNDJSON H (chosen_text net base Contacts)
                                  (Some (lit "Contatos (prefixo)")) ;;
                   chats' <- parseNDJSON H (chosen_text net base Chats)
                               (Some (lit "Conversas (prefixo)")) ;;
                   messages' <- parseNDJSON H messagesText (Some (lit "Mensagens (prefixo)")) ;;
                   applyData H
                     (JObj [(lit "summary", chosen_summary H net base);
                            (lit "contacts", JArr contacts');
                            (lit "chats", JArr chats'); (lit "messages", JArr messages')])
                     (lit "Prefixo " ++ trimmed)) w3)
      as (w4 & E4 & Hs4 & Hr4).
    cbv beta in E1, E2, E3, E4.
    assert (Hwarn : forall (b : bool) wa,
               fst ((if b
                     then pushLog H (lit "Nenhum arquivo encontrado em " ++ base)
                            warn None
                     else ret tt) wa) = Normal tt
               /\ state (snd ((if b
                     then pushLog H (lit "Nenhum arquivo encontrado em " ++ base)
                            warn None
                     else ret tt) wa)) = state wa
               /\ requests (snd ((if b
                     then pushLog H (lit "Nenhum arquivo encontrado em " ++ base)
                            warn None
                     else ret tt) wa)) = requests wa).
    { intros [|] wa; repeat split. }
    destruct (Hwarn (negb (truthy_json (chosen_summary H net base))
                     && negb (truthy_text (chosen_text net base Contacts))
                     && negb (truthy_text (chosen_text net base Chats))
                     && negb (truthy_text (chosen_text net base Messages))) w4)
      as (E5 & Hs5 & Hr5).
    rewrite (bind_returns _ _ _ E5) in E4.
    rewrite (bind_returns _ _ _ (parseNDJSON_returns H _ _ _)) in E4.
    rewrite (bind_returns _ _ _ (parseNDJSON_returns H _ _ _)) in E4.
    rewrite (bind_returns _ _ _ (parseNDJSON_returns H _ _ _)) in E4.
    eexists. split.
    + etransitivity; [exact E1|]. etransitivity; [exact E2|].
      etransitivity; [exact E3|]. exact E4.
    + rewrite !parseNDJSON_state, !parseNDJSON_requests.
      split; [congruence|].
      rewrite Hr5, Hr4, Hr3, Hr2, Hr1, Hr0, <- !app_assoc. reflexivity.
  - rewrite applyData_state, keeps_requests_applyData, Hs, Hr.
    split; reflexivity.
Qed.

Lemma prefix_records (H : Host) (net : Net) (base : jsstring) (s : State)
    (k : DatasetKey) :
  records_of (reselect_dataset (replace_snapshot (prefix_payload H net base) s)) k
  = parsed_records H (chosen_text net base k).
Proof. rewrite reselect_keeps_records. now destruct k. Qed.

(** Two addresses under one base differ when what follows the base does. *)
Ltac url_neq E :=
  injection E as E; apply app_inv_head in E; vm_compute in E; discriminate E.

Lemma raw_not_in_summary (H : Host) (net : Net) (base : jsstring) (k : DatasetKey) :
  ~ In (GET, raw_url base k) (summary_requests H net base).
Proof.
  unfold summary_requests, raw_url.
  destruct (truthy_json _); destruct k; cbn [In];
    intros Hin; repeat (destruct Hin as [E|Hin]; [url_neq E|]); exact Hin.
Qed.

Lemma raw_not_in_other (net : Net) (base : jsstring) (k k' : DatasetKey) :
  k <> k' -> ~ In (GET, raw_url base k) (dataset_requests net base k').
Proof.
  intros Hk. unfold dataset_requests, raw_url, export_status_url.
  destruct (truthy_text _); destruct k, k'; try congruence; cbn [In];
    intros Hin; repeat (destruct Hin as [E|Hin]; [url_neq E|]); exact Hin.
Qed.

Lemma raw_is_not_export (base : jsstring) (k : DatasetKey) :
  (GET, export_status_url base k) <> (GET, raw_url base k).
Proof.
  unfold raw_url, export_status_url. intros E. destruct k; url_neq E.
Qed.

(** C8 (as amended).  In a prefix load, for each dataset the export-status
    resource is requested first, before any request for the raw one.  When
    its text is neither [null] nor empty, that text is the one parsed and
    the raw resource is not requested at all; otherwise the raw resource is
    requested next and its text, if any, is the one parsed; when neither
    resource exists the dataset is empty. *)
Theorem prefix_load_prefers_export_status (H : Host) (net : Net)
    (prefix : jsstring) (w : World) (k : DatasetKey) :
  trim prefix <> [] ->
  let base := lit "../data/" ++ trim prefix in
  let exported := fetched net (export_status_url base k) in
  let raw := fetched net (raw_url base k) in
  let w' := snd (loadByPrefix H net prefix w) in
  exists before after,
    requests w' = requests w ++ before ++ (GET, export_status_url base k) :: after
    /\ ~ In (GET, raw_url base k) before
    /\ (truthy_text exported = true ->
        records_of (state w') k = parsed_records H exported
        /\ ~ In (GET, raw_url base k) after)
    /\ (truthy_text exported = false ->
        (exists after', after = (GET, raw_url base k) :: after')
        /\ records_of (state w') k = parsed_records H raw)
    /\ (exported = None -> raw = None -> records_of (state w') k = []).
Proof.
  intros Hne. cbv zeta.
  destruct (loadByPrefix_spec H net prefix w Hne) as (Hstate & Hreq).
  cbv zeta in Hstate, Hreq. rewrite Hstate, Hreq, prefix_records.
  set (base := lit "../data/" ++ trim prefix).
  assert (Hrec : forall t,
             truthy_text (fetched net (export_status_url base k)) = t ->
             parsed_records H (chosen_text net base k)
             = parsed_records H (if t then fetched net (export_status_url base k)
                                 else fetched net (raw_url base k))).
  { intros t <-. reflexivity. }
  assert (Hnone : fetched net (export_status_url base k) = None ->
                  fetched net (raw_url base k) = None ->
                  parsed_records H (chosen_text net base k) = []).
  { intros He Hr. unfold chosen_text. rewrite He, Hr. reflexivity. }
  destruct k.
  - exists (summary_requests H net base),
      ((if truthy_text (fetched net (export_status_url base Contacts))
        then [] else [(GET, raw_url base Contacts)])
       ++ dataset_requests net base Chats ++ dataset_requests net base Messages).
    split; [reflexivity|]. split; [apply raw_not_in_summary|].
    split; [|split; [|exact Hnone]].
    + intros Ht. split; [exact (Hrec true Ht)|]. rewrite Ht.
      cbn [app]. rewrite in_app_iff.
      intros [Hin|Hin]; eapply raw_not_in_other; try exact Hin; discriminate.
    + intros Ht. split; [|exact (Hrec false Ht)]. rewrite Ht.
      eexists. reflexivity.
  - exists (summary_requests H net base ++ dataset_requests net base Contacts),
      ((if truthy_text (fetched net (export_status_url base Chats))
        then [] else [(GET, raw_url base Chats)])
       ++ dataset_requests net base Messages).
    split; [now rewrite <- !app_assoc|]. split.
    { rewrite in_app_iff. intros [Hin|Hin].
      - now apply raw_not_in_summary in Hin.
      - eapply raw_not_in_other; try exact Hin; discriminate. }
    split; [|split; [|exact Hnone]].
    + intros Ht. split; [exact (Hrec true Ht)|]. rewrite Ht.
      cbn [app]. intros Hin.
      eapply raw_not_in_other; try exact Hin; discriminate.
    + intros Ht. split; [|exact (Hrec false Ht)]. rewrite Ht.
      eexists. reflexivity.
  - exists (summary_requests H net base ++ dataset_requests net base Contacts
            ++ dataset_requests net base Chats),
      (if truthy_text (fetched net (export_status_url base Messages))
       then [] else [(GET, raw_url base Messages)]).
    split; [now rewrite <- !app_assoc|]. split.
    { rewrite !in_app_iff. intros [Hin|[Hin|Hin]].
      - now apply raw_not_in_summary in Hin.
      - eapply raw_not_in_other; try exact Hin; discriminate.
      - eapply raw_not_in_other; try exact Hin; discriminate. }
    split; [|split; [|exact Hnone]].
    + intros Ht. split; [exact (Hrec true Ht)|]. rewrite Ht. intros [].
    + intros Ht. split; [|exact (Hrec false Ht)]. rewrite Ht.
      eexists. reflexivity.
Qed.

Lemma prefix_load_witness :
  let base := lit "../data/" ++ trim (lit " p ") in
  let w' := snd (loadByPrefix Reference.host export_net (lit " p ")
                   Reference.start) in
  trim (lit " p ") <> []
  /\ truthy_text (fetched export_net (export_status_url base Contacts)) = true
  /\ truthy_text (fetched export_net (export_status_url base Chats)) = false
  /\ fetched export_net (export_status_url base Chats) = None
  /\ fetched export_net (raw_url base Chats) = None
  /\ contacts (state w') = [JObj [(lit "e", JNum (lit "1"))]]
  /\ chats (state w') = []
  /\ ~ In (GET, lit "../data/p/contacts.ndjson") (requests w').
Proof.
  cbv zeta.
  assert (Hne : trim (lit " p ") <> []) by discriminate.
  assert (Ht : truthy_text
                 (fetched export_net
                    (export_status_url (lit "../data/" ++ trim (lit " p "))
                       Contacts)) = true) by reflexivity.
  assert (Hf : fetched export_net
                 (export_status_url (lit "../data/" ++ trim (lit " p ")) Chats)
               = None) by reflexivity.
  assert (Hr : fetched export_net
                 (raw_url (lit "../data/" ++ trim (lit " p ")) Chats)
               = None) by reflexivity.
  destruct (prefix_load_prefers_export_status Reference.host export_net
              (lit " p ") Reference.start Contacts Hne)
    as (before & after & Hreq & Hbefore & Htrue & _ & _).
  destruct (prefix_load_prefers_export_status Reference.host export_net
              (lit " p ") Reference.start Chats Hne)
    as (_ & _ & _ & _ & _ & _ & Hnone).
  destruct (Htrue Ht) as (Hrec & Hafter).
  split; [exact Hne|]. split; [exact Ht|]. split; [reflexivity|].
  split; [exact Hf|]. split; [exact Hr|].
  split; [exact Hrec|]. split; [exact (Hnone Hf Hr)|].
  rewrite Hreq. cbn [Reference.start initial_world requests app].
  rewrite in_app_iff. intros [Hin|[E|Hin]].
  - exact (Hbefore Hin).
  - discriminate E.
  - exact (Hafter Hin).
Defined.

(** C8 as the claim has it fails: the export-status file of the contacts
    exists and is empty, so its text is not [null]; the loader still asks
    for the raw file and shows the record of the raw file. *)
Lemma empty_export_status_falls_back :
  let base := lit "../data/" ++ trim (lit "p") in
  let w' := snd (loadByPrefix Reference.host empty_export_net (lit "p")
                   Reference.start) in
  fetched empty_export_net (export_status_url base Contacts) = Some []
  /\ parsed_records Reference.host (Some []) = []
  /\ contacts (state w') = [JObj [(lit "a", JNum (lit "1"))]]
  /\ In (GET, raw_url base Contacts) (requests w')
  /\ ~ export_status_wins Reference.host empty_export_net (lit "p")
        Reference.start Contacts.
Proof.
  cbv zeta. split; [reflexivity|]. split; [reflexivity|].
  split; [reflexivity|]. split.
  - vm_compute. tauto.
  - intros Hwins. destruct (Hwins [] eq_refl) as (Hrec & _).
    vm_compute in Hrec. discriminate Hrec.
Qed.

(** ** runTest *)

Lemma get_data_key (H : Host) payload k :
  In k data_keys ->
  payload <> JNull ->
  get H payload k
  = Normal match own_field payload k with
           | Some v => VJson v
           | None => VUndefined
           end.
Proof.
  intros Hk Hn. rewrite <- (data_key_read payload Hk).
  destruct payload; [congruence | reflexivity ..].
Qed.

Lemma includes_app_r needle a b : includes needle b -> includes needle (a ++ b).
Proof.
  intros (x & y & ->). exists (a ++ x), y. now rewrite <- app_assoc.
Qed.

Lemma includes_app_l needle a b : includes needle a -> includes needle (a ++ b).
Proof.
  intros (x & y & ->). exists x, (y ++ b). now rewrite <- !app_assoc.
Qed.

Lemma includes_refl a : includes a a.
Proof. exists [], []. now rewrite app_nil_r. Qed.

Lemma includes_nil a : includes [] a.
Proof. now exists [], a. Qed.

(** Without a stack the logged text of an error has its message. *)
Lemma text_includes_message (err : JsError) :
  truthy_text (err_stack err) = false ->
  includes (err_message err) (stack_or_text err).
Proof.
  intros Hs. unfold stack_or_text, Error_toString. rewrite Hs.
  destruct (err_name err) as [|n ns], (err_message err) as [|m ms].
  - apply includes_nil.
  - apply includes_refl.
  - apply includes_nil.
  - apply includes_app_r, includes_app_r, includes_refl.
Qed.

Lemma log_line_includes (H : Host) n message level details needle :
  includes needle details ->
  includes needle (log_line_text H n message level (Some details)).
Proof.
  intros Hi. unfold log_line_text. destruct details as [|c d].
  - destruct Hi as (x & y & E). symmetry in E.
    apply app_eq_nil in E as (_ & E). apply app_eq_nil in E as (-> & _).
    apply includes_nil.
  - apply includes_app_r. apply includes_app_r. exact Hi.
Qed.

(** The world after the request of the self-test. *)
Lemma runTest_fails (H : Host) (net : Net) (w : World) (err : JsError) :
  (forall w0,
     runTest_attempt H net w0
     = (Throw err,
        mkWorld (state w0) (logLines w0) (logged w0) (page w0) (alerts w0)
          (requests w0 ++ [(POST, test_endpoint)]))) ->
  fst (runTest H net w) = Normal tt
  /\ failure_report H w (snd (runTest H net w)) err.
Proof.
  intros Hbody. destruct (runTest H net w) as [r w'] eqn:E.
  unfold runTest in E.
  unfold bind at 1 in E. cbn [modify] in E.
  unfold bind at 1 in E. cbn [updateStatus modify] in E.
  unfold bind at 1 in E. cbn [pushLog] in E.
  unfold finally, try_catch in E. rewrite Hbody in E.
  cbn [bind updateStatus modify pushLog] in E.
  injection E as <- <-.
  split; [reflexivity|]. unfold failure_report.
  cbn [snd state set_page page testStatus set_testStatus set_btnTestRun logged
       btnTestRun requests truthy_text].
  repeat split.
  now rewrite length_app, Nat.add_1_r, <- app_assoc.
Qed.

Lemma attempt_network_error (H : Host) (net : Net) (e : JsError) (w0 : World) :
  net POST test_endpoint = NetworkError e ->
  runTest_attempt H net w0
  = (Throw e,
     mkWorld (state w0) (logLines w0) (logged w0) (page w0) (alerts w0)
       (requests w0 ++ [(POST, test_endpoint)])).
Proof.
  intros Hnet. unfold runTest_attempt, bind at 1, fetch. now rewrite Hnet.
Qed.

Lemma attempt_unreadable_body (H : Host) (net : Net) ok (e : JsError) (w0 : World) :
  net POST test_endpoint = Response ok (Throw e) ->
  runTest_attempt H net w0
  = (Throw e,
     mkWorld (state w0) (logLines w0) (logged w0) (page w0) (alerts w0)
       (requests w0 ++ [(POST, test_endpoint)])).
Proof.
  intros Hnet. unfold runTest_attempt, bind at 1, fetch. rewrite Hnet.
  reflexivity.
Qed.

Lemma attempt_malformed (H : Host) (net : Net) ok text (e : JsError) (w0 : World) :
  net POST test_endpoint = Response ok (Normal text) ->
  JSON_parse H (text_or_braces text) = Throw e ->
  runTest_attempt H net w0
  = (Throw (new_Error H (lit "Resposta inválida da função (JSON malformado).")),
     mkWorld (state w0) (logLines w0) (logged w0) (page w0) (alerts w0)
       (requests w0 ++ [(POST, test_endpoint)])).
Proof.
  intros Hnet Hparse. unfold runTest_attempt, bind at 1, fetch. rewrite Hnet.
  unfold bind at 1. cbn [lift resp_body]. unfold bind at 1, try_catch, lift.
  unfold text_or_braces in Hparse. rewrite Hparse. reflexivity.
Qed.

Lemma refusal_of_body (H : Host) (payload : Json) :
  payload <> JNull ->
  refusal H payload
  = match failure_message H payload with
    | Normal message => new_Error H message
    | Throw e => e
    end.
Proof. intros Hn. destruct payload; [congruence | reflexivity..]. Qed.

Lemma refusal_text (H : Host) (payload : Json) (w : World) :
  payload <> JNull ->
  (error_field <- lift (get H payload (lit "error")) ;;
   let errorMessage :=
     if truthy error_field then error_field
     else VJson (JStr (lit "Falha na função serverless")) in
   hint_field <- lift (get H payload (lit "hint")) ;;
   hint <- (if truthy hint_field
            then hint_text <- lift (String_ H hint_field) ;;
                 ret ([10%N] ++ lit "Dica: " ++ hint_text)
            else ret []) ;;
   message <- lift (String_ H errorMessage) ;;
   @throw unit (new_Error H (message ++ hint))) w
  = (Throw (refusal H payload), w).
Proof.
  intros Hn.
  assert (He : In (lit "error") data_keys) by (cbn; tauto).
  assert (Hh : In (lit "hint") data_keys) by (cbn; tauto).
  rewrite (refusal_of_body H Hn).
  unfold bind, lift, throw, ret.
  rewrite (get_data_key H He Hn), (get_data_key H Hh Hn).
  cbv zeta. unfold failure_message, field_text.
  destruct (own_field payload (lit "error")) as [ev|],
           (own_field payload (lit "hint")) as [hv|];
    cbn [truthy];
    try destruct (truthy_json ev); try destruct (truthy_json hv);
    cbn [String_ Json_toString];
    try destruct (Json_toString H hv); try destruct (Json_toString H ev);
    reflexivity.
Qed.

Lemma attempt_refused (H : Host) (net : Net) text payload (w0 : World) :
  net POST test_endpoint = Response false (Normal text) ->
  JSON_parse H (text_or_braces text) = Normal payload ->
  runTest_attempt H net w0
  = (Throw (refusal H payload),
     mkWorld (state w0) (logLines w0) (logged w0) (page w0) (alerts w0)
       (requests w0 ++ [(POST, test_endpoint)])).
Proof.
  intros Hnet Hparse. unfold runTest_attempt, bind at 1, fetch. rewrite Hnet.
  unfold bind at 1. cbn [lift resp_body]. unfold bind at 1, try_catch, lift at 1.
  unfold text_or_braces in Hparse. rewrite Hparse.
  cbn [resp_ok negb]. unfold bind at 1.
  destruct payload as [|b|r|s|items|fields]; [reflexivity|..];
    (rewrite refusal_text by discriminate); reflexivity.
Qed.

(** X1.  A self-test that fails -- the request or the reading of the body
    fails, the body is not JSON, or the status is not a success -- returns
    normally and leaves the store as it was: the status line shows the
    message of the error, the log gains the start line and an error line,
    and the button is usable again.  For a refusal the message is the
    [error] of the body followed, when the body has one, by its [hint]; an
    [error] that is an object with a [toString] of its own cannot be turned
    into text, and the message is then that of the TypeError. *)
Theorem failed_test_leaves_state (H : Host) (net : Net) (w : World) :
  let result := runTest H net w in
  (forall e,
     net POST test_endpoint = NetworkError e ->
     fst result = Normal tt /\ failure_report H w (snd result) e)
  /\ (forall ok e,
        net POST test_endpoint = Response ok (Throw e) ->
        fst result = Normal tt /\ failure_report H w (snd result) e)
  /\ (forall ok text e,
        net POST test_endpoint = Response ok (Normal text) ->
        JSON_parse H (text_or_braces text) = Throw e ->
        fst result = Normal tt
        /\ failure_report H w (snd result)
             (new_Error H (lit "Resposta inválida da função (JSON malformado).")))
  /\ (forall text payload,
        net POST test_endpoint = Response false (Normal text) ->
        JSON_parse H (text_or_braces text) = Normal payload ->
        fst result = Normal tt
        /\ failure_report H w (snd result) (refusal H payload))
  /\ (forall fields e h,
        own_field (JObj fields) (lit "error") = Some (JStr e) -> e <> [] ->
        own_field (JObj fields) (lit "hint") = Some (JStr h) -> h <> [] ->
        refusal H (JObj fields)
        = new_Error H (e ++ [10%N] ++ lit "Dica: " ++ h))
  /\ (forall fields e,
        own_field (JObj fields) (lit "error") = Some (JStr e) -> e <> [] ->
        own_field (JObj fields) (lit "hint") = None ->
        refusal H (JObj fields) = new_Error H e)
  /\ (forall fields own h,
        own_field (JObj fields) (lit "error") = Some (JObj own) ->
        assoc (lit "toString") own = None ->
        own_field (JObj fields) (lit "hint") = Some (JStr h) -> h <> [] ->
        refusal H (JObj fields)
        = new_Error H (lit "[object Object]" ++ [10%N] ++ lit "Dica: " ++ h))
  /\ (forall fields own x h,
        own_field (JObj fields) (lit "error") = Some (JObj own) ->
        assoc (lit "toString") own = Some x ->
        own_field (JObj fields) (lit "hint") = Some (JStr h) ->
        refusal H (JObj fields) = to_primitive_error H).
Proof.
  cbv zeta. split; [|split; [|split; [|split; [|split; [|split; [|split]]]]]].
  - intros e Hnet. apply runTest_fails. intros w0.
    now apply attempt_network_error.
  - intros ok e Hnet. apply runTest_fails. intros w0.
    now apply attempt_unreadable_body with (ok := ok).
  - intros ok text e Hnet Hparse. apply runTest_fails. intros w0.
    now apply attempt_malformed with (ok := ok) (text := text) (e := e).
  - intros text payload Hnet Hparse. apply runTest_fails. intros w0.
    now apply attempt_refused with (text := text).
  - intros fields e h He Hne Hh Hnh. unfold refusal, failure_message, field_text.
    rewrite He, Hh. cbn [truthy_json Json_toString].
    destruct e; [congruence|]. destruct h; [congruence|]. reflexivity.
  - intros fields e He Hne Hh. unfold refusal, failure_message, field_text.
    rewrite He, Hh. cbn [truthy_json Json_toString].
    destruct e; [congruence|]. now rewrite app_nil_r.
  - intros fields own h He Hown Hh Hnh. unfold refusal, failure_message, field_text.
    rewrite He, Hh. cbn [truthy_json Json_toString]. rewrite Hown.
    destruct h; [congruence|]. reflexivity.
  - intros fields own x h He Hown Hh. unfold refusal, failure_message, field_text.
    rewrite He, Hh. cbn [truthy_json Json_toString]. rewrite Hown.
    now destruct h.
Qed.

(** The third scenario of the specification, a network that cannot be
    reached, an answer that is not JSON, and a refusal whose [error] is an
    object with a [toString] of its own. *)
Lemma failed_test_witness :
  let w := Reference.world_of
             (mkState (VJson (JObj [])) [JObj []] [] [] Contacts) in
  let refused := runTest Reference.host refusing_net w in
  let offline := runTest Reference.host offline_net w in
  let garbled := runTest Reference.host garbled_net w in
  let opaque := runTest Reference.host opaque_error_net w in
  refusing_net POST test_endpoint
  = Response false
      (Normal (Reference.json "{'error':'auth failed','hint':'rotate token'}"))
  /\ state (snd refused) = state w
  /\ status_text (testStatus (page (snd refused)))
     = lit "Erro: auth failed" ++ [10%N] ++ lit "Dica: rotate token"
  /\ state (snd offline) = state w
  /\ status_text (testStatus (page (snd offline))) = lit "Erro: Failed to fetch"
  /\ state (snd garbled) = state w
  /\ status_text (testStatus (page (snd garbled)))
     = lit "Erro: Resposta inválida da função (JSON malformado)."
  /\ state (snd opaque) = state w
  /\ status_text (testStatus (page (snd opaque)))
     = lit "Erro: Cannot convert object to primitive value".
Proof.
  cbv zeta.
  set (w := Reference.world_of
              (mkState (VJson (JObj [])) [JObj []] [] [] Contacts)).
  destruct (failed_test_leaves_state Reference.host refusing_net w)
    as (_ & _ & _ & Hrefused & Hmsg & _).
  destruct (failed_test_leaves_state Reference.host offline_net w)
    as (Hoffline & _).
  destruct (failed_test_leaves_state Reference.host garbled_net w)
    as (_ & _ & Hgarbled & _).
  destruct (failed_test_leaves_state Reference.host opaque_error_net w)
    as (_ & _ & _ & Hopaque & _ & _ & _ & Hthrown).
  assert (Hp1 : JSON_parse Reference.host
                  (text_or_braces
                     (Reference.json "{'error':'auth failed','hint':'rotate token'}"))
                = Normal (JObj [(lit "error", JStr (lit "auth failed"));
                                (lit "hint", JStr (lit "rotate token"))]))
    by (vm_compute; reflexivity).
  assert (Hp3 : JSON_parse Reference.host (text_or_braces (lit "<html>oops</html>"))
                = Throw Reference.syntax_error)
    by (vm_compute; reflexivity).
  assert (Hp4 : JSON_parse Reference.host
                  (text_or_braces
                     (Reference.json
                        "{'error':{'toString':1},'hint':'rotate token'}"))
                = Normal (JObj [(lit "error",
                                 JObj [(lit "toString", JNum (lit "1"))]);
                                (lit "hint", JStr (lit "rotate token"))]))
    by (vm_compute; reflexivity).
  destruct (Hrefused _ _ eq_refl Hp1) as (_ & Hs1 & Ht1 & _).
  destruct (Hoffline (mkError (lit "TypeError") (lit "Failed to fetch") None)
              eq_refl)
    as (_ & Hs2 & Ht2 & _).
  destruct (Hgarbled true _ _ eq_refl Hp3) as (_ & Hs3 & Ht3 & _).
  destruct (Hopaque _ _ eq_refl Hp4) as (_ & Hs4 & Ht4 & _).
  split; [reflexivity|]. split; [exact Hs1|]. split.
  { rewrite Ht1. cbn [status_text].
    assert (Hm : refusal Reference.host
                   (JObj [(lit "error", JStr (lit "auth failed"));
                          (lit "hint", JStr (lit "rotate token"))])
                 = new_Error Reference.host
                     (lit "auth failed" ++ [10%N] ++ lit "Dica: "
                        ++ lit "rotate token")).
    { apply Hmsg; [reflexivity | discriminate | reflexivity | discriminate]. }
    rewrite Hm. reflexivity. }
  split; [exact Hs2|]. split; [rewrite Ht2; reflexivity|].
  split; [exact Hs3|]. split; [rewrite Ht3; vm_compute; reflexivity|].
  split; [exact Hs4|]. rewrite Ht4. cbn [status_text].
  assert (Hm : refusal Reference.host
                 (JObj [(lit "error", JObj [(lit "toString", JNum (lit "1"))]);
                        (lit "hint", JStr (lit "rotate token"))])
               = to_primitive_error Reference.host).
  { apply (Hthrown _ [(lit "toString", JNum (lit "1"))] (JNum (lit "1"))
             (lit "rotate token")); reflexivity. }
  rewrite Hm. vm_compute. reflexivity.
Defined.

(** ** runTest, whatever happens *)

Lemma attempt_requests (H : Host) (net : Net) (w0 : World) :
  requests (snd (runTest_attempt H net w0))
  = requests w0 ++ [(POST, test_endpoint)].
Proof.
  unfold runTest_attempt, bind at 1, fetch.
  destruct (net POST test_endpoint) as [e|ok body]; [reflexivity|].
  match goal with
  | |- requests (snd (?c ?w1)) = _ =>
      assert (Hk : keeps requests c)
        by keep_steps ltac:(first
             [ apply keeps_requests_applyData
             | apply keeps_updateStatus; intros; reflexivity
             | apply keeps_pushLog; intros; reflexivity ]);
      rewrite Hk
  end.
  reflexivity.
Qed.

(** X2.  Whatever the network answers and whatever the payload holds,
    [runTest] returns normally, sends exactly one request, the POST to the
    self-test endpoint, and leaves the button enabled and not loading. *)
Theorem runTest_always_ends (H : Host) (net : Net) (w : World) :
  fst (runTest H net w) = Normal tt
  /\ btnTestRun (page (snd (runTest H net w))) = mkTestButton false false
  /\ requests (snd (runTest H net w)) = requests w ++ [(POST, test_endpoint)].
Proof.
  destruct (runTest H net w) as [r w'] eqn:E.
  unfold runTest in E.
  unfold bind at 1 in E. cbn [modify] in E.
  unfold bind at 1 in E. cbn [updateStatus modify] in E.
  unfold bind at 1 in E. cbn [pushLog] in E.
  unfold finally, try_catch in E.
  match type of E with
  | context [runTest_attempt H net ?w0] =>
      pose proof (attempt_requests H net w0) as Hr;
      destruct (runTest_attempt H net w0) as [[[]|err] w1]
  end.
  - injection E as <- <-. cbn [snd requests] in Hr.
    split; [reflexivity|]. split; [reflexivity|]. exact Hr.
  - cbn [bind updateStatus modify pushLog] in E. injection E as <- <-.
    cbn [snd requests] in Hr.
    split; [reflexivity|]. split; [reflexivity|]. exact Hr.
Qed.

(** ** What the views leave alone *)

Section KeepsOffPage.

Context {X : Type} (proj : World -> X).

Hypothesis proj_off_page :
  forall w p,
    proj (mkWorld (state w) (logLines w) (logged w) p (alerts w) (requests w))
    = proj w.

Lemma off_page_modify (f : World -> Page -> Page) :
  keeps proj (modify (fun w => set_page (f w) w)).
Proof. intros w. apply proj_off_page. Qed.

Lemma off_page_set_page (f : Page -> Page) : keeps proj (modify (set_page f)).
Proof. intros w. apply proj_off_page. Qed.

Lemma off_page_updateStatus text statusClass :
  keeps proj (updateStatus text statusClass).
Proof. apply off_page_set_page. Qed.

Lemma off_page_updateDatasetButtons : keeps proj updateDatasetButtons.
Proof. apply off_page_modify. Qed.

Lemma off_page_updateSummaryCard : keeps proj updateSummaryCard.
Proof.
  unfold updateSummaryCard.
  keep_steps ltac:(first [apply off_page_set_page | apply off_page_modify]).
Qed.

Lemma off_page_updateMetricsCard (H : Host) : keeps proj (updateMetricsCard H).
Proof.
  unfold updateMetricsCard.
  keep_steps ltac:(first [apply off_page_set_page | apply off_page_modify]).
Qed.

Lemma off_page_updateSamplesCard : keeps proj updateSamplesCard.
Proof.
  unfold updateSamplesCard.
  keep_steps ltac:(first [apply off_page_set_page | apply off_page_modify]).
Qed.

Lemma off_page_updateDataTable (H : Host) : keeps proj (updateDataTable H).
Proof.
  unfold updateDataTable.
  keep_steps ltac:(first [ apply off_page_set_page | apply off_page_modify
                         | apply off_page_updateDatasetButtons ]).
Qed.

Lemma off_page_refreshUI (H : Host) : keeps proj (refreshUI H).
Proof.
  unfold refreshUI.
  keep_steps ltac:(first [ apply off_page_updateDatasetButtons
                         | apply off_page_updateSummaryCard
                         | apply off_page_updateMetricsCard
                         | apply off_page_updateDataTable
                         | apply off_page_updateSamplesCard ]).
Qed.

End KeepsOffPage.

(** ** The metrics and null records *)

Lemma get_exported_flag (H : Host) (record : Json) :
  record <> JNull ->
  exists v,
    get H record (lit "exported_to_chatwoot") = Normal v
    /\ is_true v = marked_exported record.
Proof.
  intros Hn.
  assert (Hk : In (lit "exported_to_chatwoot") data_keys) by (cbn; tauto).
  rewrite (get_data_key H Hk Hn). eexists. split; [reflexivity|].
  unfold marked_exported.
  now destruct (own_field record (lit "exported_to_chatwoot")) as [[|[|]| | | |]|].
Qed.

Lemma count_exported_clean (H : Host) (items : list Json) :
  ~ In JNull items ->
  count_exported H items = Normal (length (filter marked_exported items)).
Proof.
  induction items as [|item items IH]; intros Hnot; [reflexivity|].
  cbn [count_exported filter].
  destruct (@get_exported_flag H item) as (v & Ev & Hv).
  { intros ->. apply Hnot. now left. }
  rewrite Ev, IH by (intros Hin; apply Hnot; now right).
  rewrite Hv. now destruct (marked_exported item).
Qed.

Lemma count_exported_null (H : Host) (items : list Json) :
  In JNull items -> count_exported H items = Throw (null_record_error H).
Proof.
  induction items as [|item items IH]; intros Hin; [destruct Hin|].
  cbn [count_exported].
  destruct item as [|b|r|s|its|fields]; try reflexivity;
    (destruct Hin as [Hin|Hin]; [discriminate Hin|]);
    rewrite (IH Hin); reflexivity.
Qed.

(** X3.  The count of exported records: a [null] record makes it throw;
    otherwise it counts the records that carry the literal [true], and no
    others (not the text ["true"], not a record without the key). *)
Theorem count_exported_spec (H : Host) (items : list Json) :
  (~ In JNull items ->
   count_exported H items = Normal (length (filter marked_exported items)))
  /\ (In JNull items -> count_exported H items = Throw (null_record_error H))
  /\ (forall v fields,
        marked_exported (JObj ((lit "exported_to_chatwoot", v) :: fields))
        = match v with JBool true => true | _ => false end)
  /\ (forall fields,
        assoc (lit "exported_to_chatwoot") fields = None ->
        marked_exported (JObj fields) = false).
Proof.
  split; [apply count_exported_clean|]. split; [apply count_exported_null|].
  split.
  - intros v fields. unfold marked_exported. cbn.
    now destruct v as [|[|]| | | |].
  - intros fields Hnone. unfold marked_exported. cbn [own_field].
    now rewrite Hnone.
Qed.

Lemma count_exported_witness :
  let items := [JObj [(lit "exported_to_chatwoot", JBool true)];
                JObj [(lit "exported_to_chatwoot", JStr (lit "true"))];
                JObj []] in
  ~ In JNull items
  /\ In JNull (items ++ [JNull])
  /\ count_exported Reference.host items = Normal 1
  /\ count_exported Reference.host (items ++ [JNull])
     = Throw (null_record_error Reference.host).
Proof.
  cbv zeta.
  assert (Hnot : ~ In JNull
                   [JObj [(lit "exported_to_chatwoot", JBool true)];
                    JObj [(lit "exported_to_chatwoot", JStr (lit "true"))];
                    JObj []]).
  { intros [E|[E|[E|[]]]]; discriminate E. }
  assert (Hin : In JNull
                  ([JObj [(lit "exported_to_chatwoot", JBool true)];
                    JObj [(lit "exported_to_chatwoot", JStr (lit "true"))];
                    JObj []] ++ [JNull])).
  { apply in_or_app. right. now left. }
  split; [exact Hnot|]. split; [exact Hin|]. split.
  - destruct (count_exported_spec Reference.host
                [JObj [(lit "exported_to_chatwoot", JBool true)];
                 JObj [(lit "exported_to_chatwoot", JStr (lit "true"))];
                 JObj []]) as (Hcount & _).
    rewrite (Hcount Hnot). reflexivity.
  - destruct (count_exported_spec Reference.host
                ([JObj [(lit "exported_to_chatwoot", JBool true)];
                  JObj [(lit "exported_to_chatwoot", JStr (lit "true"))];
                  JObj []] ++ [JNull])) as (_ & Hthrow & _).
    exact (Hthrow Hin).
Defined.

(** ** How a refresh ends *)

Lemma fst_bind_throw {A B} (c : M A) (k : A -> M B) (w : World) (e : JsError) :
  fst (c w) = Throw e -> fst (bind c k w) = Throw e.
Proof. unfold bind. destruct (c w) as [r w1]. cbn. now intros ->. Qed.

Lemma snd_bind_throw {A B} (c : M A) (k : A -> M B) (w : World) (e : JsError) :
  fst (c w) = Throw e -> snd (bind c k w) = snd (c w).
Proof. unfold bind. destruct (c w) as [r w1]. cbn. now intros ->. Qed.

Lemma JSON_stringify_normal gap v : exists t, JSON_stringify gap v = Normal t.
Proof. destruct v as [|j|name|[t|]|p]; eexists; reflexivity. Qed.

Lemma updateSummaryCard_returns w : fst (updateSummaryCard w) = Normal tt.
Proof.
  unfold updateSummaryCard, bind, read.
  destruct (negb (truthy (summary (state w))) && negb (hasRecords (state w)));
    [reflexivity|].
  unfold lift.
  destruct (JSON_stringify_normal two_spaces
              (if truthy (summary (state w)) then summary (state w)
               else VJson no_summary_notice)) as (t & ->).
  reflexivity.
Qed.

Lemma updateDataTable_returns (H : Host) w : fst (updateDataTable H w) = Normal tt.
Proof.
  unfold updateDataTable, bind, read.
  destruct (negb (hasRecords (state w))); [reflexivity|].
  cbn [modify updateDatasetButtons].
  match goal with
  | |- context [match ?recs with [] => _ | _ :: _ => _ end] =>
      destruct recs as [|r records] eqn:Er
  end; [reflexivity|].
  cbn [modify]. unfold lift. rewrite thead_of_spec.
  match goal with
  | |- context [rowsHtml H ?cols ?recs] =>
      destruct (rowsHtml_returns H cols recs) as (rows & ->)
  end.
  reflexivity.
Qed.

Lemma updateSamplesCard_returns w : fst (updateSamplesCard w) = Normal tt.
Proof.
  unfold updateSamplesCard, bind, read.
  now destruct (negb (hasRecords (state w))).
Qed.

Lemma no_records_no_null s :
  existsb (fun value => 0 <? value)
    [length (contacts s); length (chats s); length (messages s)] = false ->
  all_records s = [].
Proof.
  unfold all_records.
  destruct (contacts s), (chats s), (messages s); cbn; try discriminate.
  reflexivity.
Qed.

Lemma has_null_In (items : list Json) :
  existsb is_null items = true <-> In JNull items.
Proof.
  rewrite existsb_exists. split.
  - intros (x & Hx & Ex). now destruct x.
  - intros Hin. now exists JNull.
Qed.

Lemma null_or_clean (H : Host) (items : list Json) :
  (In JNull items /\ count_exported H items = Throw (null_record_error H))
  \/ (~ In JNull items
      /\ count_exported H items = Normal (length (filter marked_exported items))).
Proof.
  destruct (existsb is_null items) eqn:E.
  - apply has_null_In in E. left. split; [exact E|].
    now apply count_exported_null.
  - right. assert (Hnot : ~ In JNull items).
    { intros Hin. apply has_null_In in Hin. congruence. }
    split; [exact Hnot|]. now apply count_exported_clean.
Qed.

Lemma updateMetricsCard_outcome (H : Host) w :
  (~ In JNull (all_records (state w)) -> fst (updateMetricsCard H w) = Normal tt)
  /\ (In JNull (all_records (state w)) ->
      fst (updateMetricsCard H w) = Throw (null_record_error H)).
Proof.
  unfold updateMetricsCard, bind, read.
  destruct (existsb (fun value => 0 <? value)
              [length (contacts (state w)); length (chats (state w));
               length (messages (state w))]) eqn:Eany; cbn [negb].
  - unfold all_records. cbn [modify]. unfold lift. rewrite !in_app_iff.
    destruct (null_or_clean H (contacts (state w))) as [(Hc & ->)|(Hc & ->)];
      [split; [tauto | reflexivity]|].
    destruct (null_or_clean H (chats (state w))) as [(Hh & ->)|(Hh & ->)];
      [split; [tauto | reflexivity]|].
    destruct (null_or_clean H (messages (state w))) as [(Hm & ->)|(Hm & ->)];
      [split; [tauto | reflexivity]|].
    split; [reflexivity | tauto].
  - apply no_records_no_null in Eany. rewrite Eany.
    split; [reflexivity | intros []].
Qed.

Lemma refreshUI_outcome (H : Host) w :
  (~ In JNull (all_records (state w)) -> fst (refreshUI H w) = Normal tt)
  /\ (In JNull (all_records (state w)) ->
      fst (refreshUI H w) = Throw (null_record_error H)).
Proof.
  unfold refreshUI.
  rewrite (@bind_returns _ _ updateDatasetButtons _ w tt eq_refl).
  set (w1 := snd (updateDatasetButtons w)).
  rewrite (@bind_returns _ _ updateSummaryCard _ w1 tt (updateSummaryCard_returns w1)).
  set (w2 := snd (updateSummaryCard w1)).
  assert (Hs : state w2 = state w).
  { unfold w2.
    exact (@keeps_updateSummaryCard _ state (fun _ _ _ _ _ => eq_refl) w1). }
  destruct (updateMetricsCard_outcome H w2) as (Hok & Hnull).
  rewrite Hs in Hok, Hnull. split.
  - intros Hnot.
    rewrite (@bind_returns _ _ (updateMetricsCard H) _ w2 tt (Hok Hnot)).
    rewrite (@bind_returns _ _ (updateDataTable H) _ _ tt
               (updateDataTable_returns H _)).
    apply updateSamplesCard_returns.
  - intros Hin. apply fst_bind_throw. exact (Hnull Hin).
Qed.

Lemma all_records_after (payload : Json) (s : State) :
  all_records (reselect_dataset (replace_snapshot payload s))
  = payload_array payload (lit "contacts") ++ payload_array payload (lit "chats")
    ++ payload_array payload (lit "messages").
Proof.
  unfold all_records.
  pose proof (reselect_keeps_records (replace_snapshot payload s)) as Hr.
  pose proof (Hr Contacts) as Hc. pose proof (Hr Chats) as Hh.
  pose proof (Hr Messages) as Hm.
  cbn [records_of replace_snapshot contacts chats messages] in Hc, Hh, Hm.
  rewrite Hc, Hh, Hm.
  now rewrite !payload_array_read by (cbn; tauto).
Qed.

Lemma applyData_unfold (H : Host) payload sourceLabel w :
  applyData H payload sourceLabel w
  = (refreshUI H ;;
     s <- read state ;;
     pushLog H (sourceLabel ++ lit ": dados atualizados") success
       (Some (counts_text s)))
      (set_state reselect_dataset (set_state (replace_snapshot payload) w)).
Proof. reflexivity. Qed.

(** X4.  [applyData] and null records.  With no [null] among the records of
    the payload, [applyData] returns normally and logs one success line
    with the three counts.  With a [null] record it throws the TypeError of
    reading [exported_to_chatwoot] from [null], raised by the metrics, and
    logs nothing; the store has been replaced all the same. *)
Theorem applyData_outcome (H : Host) (payload : Json) (sourceLabel : jsstring)
    (w : World) :
  let records := payload_array payload (lit "contacts")
                 ++ payload_array payload (lit "chats")
                 ++ payload_array payload (lit "messages") in
  let result := applyData H payload sourceLabel w in
  (~ In JNull records ->
   fst result = Normal tt
   /\ logged (snd result)
      = logged w
        ++ [mkLogCall success
              (log_line_text H (length (logged w))
                 (sourceLabel ++ lit ": dados atualizados") success
                 (Some (lit "Contatos: "
                          ++ dec (length (payload_array payload (lit "contacts")))
                          ++ lit " | Conversas: "
                          ++ dec (length (payload_array payload (lit "chats")))
                          ++ lit " | Mensagens: "
                          ++ dec (length (payload_array payload (lit "messages"))))))])
  /\ (In JNull records ->
      fst result = Throw (null_record_error H)
      /\ logged (snd result) = logged w
      /\ all_records (state (snd result)) = records).
Proof.
  cbv zeta. rewrite applyData_unfold.
  set (w1 := set_state reselect_dataset (set_state (replace_snapshot payload) w)).
  assert (Hs1 : state w1 = reselect_dataset (replace_snapshot payload (state w)))
    by reflexivity.
  assert (Hl1 : logged w1 = logged w) by reflexivity.
  destruct (refreshUI_outcome H w1) as (Hok & Hnull).
  rewrite Hs1, all_records_after in Hok, Hnull.
  pose proof (@off_page_refreshUI _ logged (fun _ _ => eq_refl) H w1) as Hl2.
  pose proof (@keeps_refreshUI _ state (fun _ _ _ _ _ => eq_refl) H w1) as Hs2.
  split.
  - intros Hnot. rewrite (bind_returns _ _ _ (Hok Hnot)).
    unfold bind, read. cbn [pushLog fst snd logged].
    split; [reflexivity|].
    rewrite Hl2, Hl1, Hs2, Hs1. do 3 f_equal.
    pose proof (reselect_keeps_records (replace_snapshot payload (state w))) as Hr.
    pose proof (Hr Contacts) as Hc. pose proof (Hr Chats) as Hh.
    pose proof (Hr Messages) as Hm.
    cbn [records_of replace_snapshot contacts chats messages] in Hc, Hh, Hm.
    unfold counts_text. cbn [map DATASETS key label records_of join].
    rewrite Hc, Hh, Hm, !payload_array_read by (cbn; tauto).
    reflexivity.
  - intros Hin.
    split; [apply fst_bind_throw; exact (Hnull Hin)|].
    rewrite (snd_bind_throw _ _ _ (Hnull Hin)).
    split; [now rewrite Hl2|].
    now rewrite Hs2, Hs1, all_records_after.
Qed.

Lemma applyData_outcome_witness :
  let clean := JObj [(lit "contacts", JArr [JObj []; JObj []])] in
  let broken := JObj [(lit "contacts", JArr [JObj []; JNull])] in
  ~ In JNull (payload_array clean (lit "contacts")
              ++ payload_array clean (lit "chats")
              ++ payload_array clean (lit "messages"))
  /\ In JNull (payload_array broken (lit "contacts")
               ++ payload_array broken (lit "chats")
               ++ payload_array broken (lit "messages"))
  /\ fst (applyData Reference.host clean (lit "Teste") Reference.start) = Normal tt
  /\ fst (applyData Reference.host broken (lit "Teste") Reference.start)
     = Throw (null_record_error Reference.host)
  /\ logged (snd (applyData Reference.host broken (lit "Teste") Reference.start))
     = [].
Proof.
  cbv zeta.
  assert (Hnot : ~ In JNull
                   (payload_array (JObj [(lit "contacts", JArr [JObj []; JObj []])])
                      (lit "contacts")
                    ++ payload_array (JObj [(lit "contacts", JArr [JObj []; JObj []])])
                         (lit "chats")
                    ++ payload_array (JObj [(lit "contacts", JArr [JObj []; JObj []])])
                         (lit "messages"))).
  { intros [E|[E|[]]]; discriminate E. }
  assert (Hin : In JNull
                  (payload_array (JObj [(lit "contacts", JArr [JObj []; JNull])])
                     (lit "contacts")
                   ++ payload_array (JObj [(lit "contacts", JArr [JObj []; JNull])])
                        (lit "chats")
                   ++ payload_array (JObj [(lit "contacts", JArr [JObj []; JNull])])
                        (lit "messages"))).
  { right. now left. }
  destruct (applyData_outcome Reference.host
              (JObj [(lit "contacts", JArr [JObj []; JObj []])]) (lit "Teste")
              Reference.start) as (Hok & _).
  destruct (applyData_outcome Reference.host
              (JObj [(lit "contacts", JArr [JObj []; JNull])]) (lit "Teste")
              Reference.start) as (_ & Hnull).
  destruct (Hok Hnot) as (Hr & _). destruct (Hnull Hin) as (Ht & Hl & _).
  split; [exact Hnot|]. split; [exact Hin|]. split; [exact Hr|].
  split; [exact Ht | exact Hl].
Defined.

(** ** setActiveDataset *)

(** X5.  [setActiveDataset] changes the active key only for one of the three
    dataset keys.  Any other key, the empty one included, leaves the world
    as it is.  A dataset key becomes the active one, the loaded data stay as
    they are, and one info line is logged. *)
Theorem setActiveDataset_spec (H : Host) (k : jsstring) (w : World) :
  ((forall d, In d DATASETS -> key_text (key d) <> k) ->
   setActiveDataset H k w = (Normal tt, w))
  /\ (forall d,
        let result := setActiveDataset H (key_text d) w in
        fst result = Normal tt
        /\ dataset (state (snd result)) = d
        /\ summary (state (snd result)) = summary (state w)
        /\ (forall k', records_of (state (snd result)) k' = records_of (state w) k')
        /\ logged (snd result)
           = logged w
             ++ [mkLogCall info
                   (log_line_text H (length (logged w))
                      (lit "Visualização alterada para " ++ key_text d) info None)]).
Proof.
  split.
  - intros Hnot. unfold setActiveDataset. destruct k as [|c k]; [reflexivity|].
    cbn [find DATASETS key].
    destruct (str_eqb_spec (key_text Contacts) (c :: k)) as [E|_].
    { exfalso. apply (Hnot (mkMeta Contacts (lit "Contatos"))); [now left | exact E]. }
    destruct (str_eqb_spec (key_text Chats) (c :: k)) as [E|_].
    { exfalso. apply (Hnot (mkMeta Chats (lit "Conversas")));
        [right; now left | exact E]. }
    destruct (str_eqb_spec (key_text Messages) (c :: k)) as [E|_].
    { exfalso. apply (Hnot (mkMeta Messages (lit "Mensagens")));
        [right; right; now left | exact E]. }
    reflexivity.
  - intros d. cbv zeta.
    assert (E : forall w0,
               setActiveDataset H (key_text d) w0
               = (modify (set_state (fun s =>
                    mkState (summary s) (contacts s) (chats s) (messages s) d)) ;;
                  pushLog H (lit "Visualização alterada para " ++ key_text d)
                    info None ;;
                  updateDataTable H) w0).
    { intros w0. now destruct d. }
    rewrite E. clear E.
    rewrite (bind_returns _ _ _ (eq_refl : fst (modify _ w) = Normal tt)).
    match goal with
    | |- context [bind (pushLog H ?m ?l ?d0) ?k0 ?w1] =>
        rewrite (bind_returns (pushLog H m l d0) k0 w1 (eq_refl : _ = Normal tt));
        set (w2 := snd (pushLog H m l d0 w1))
    end.
    pose proof (@off_page_updateDataTable _ logged (fun _ _ => eq_refl) H w2) as Hl.
    pose proof (@keeps_updateDataTable _ state (fun _ _ _ _ _ => eq_refl) H w2) as Hs.
    rewrite updateDataTable_returns, Hl, Hs.
    split; [reflexivity|]. split; [reflexivity|]. split; [reflexivity|].
    split; [now intros [] | reflexivity].
Qed.

Lemma setActiveDataset_witness :
  (forall d, In d DATASETS -> key_text (key d) <> lit "summary")
  /\ setActiveDataset Reference.host (lit "summary") Reference.start
     = (Normal tt, Reference.start)
  /\ setActiveDataset Reference.host [] Reference.start
     = (Normal tt, Reference.start)
  /\ dataset (state (snd (setActiveDataset Reference.host (lit "chats")
                            Reference.start))) = Chats.
Proof.
  assert (Hs : forall d, In d DATASETS -> key_text (key d) <> lit "summary").
  { intros d [<-|[<-|[<-|[]]]]; discriminate. }
  assert (He : forall d, In d DATASETS -> key_text (key d) <> []).
  { intros d [<-|[<-|[<-|[]]]]; discriminate. }
  destruct (setActiveDataset_spec Reference.host (lit "summary") Reference.start)
    as (Hnoop & _).
  destruct (setActiveDataset_spec Reference.host [] Reference.start)
    as (Hempty & Hkey).
  destruct (Hkey Chats) as (_ & Hd & _).
  split; [exact Hs|]. split; [exact (Hnoop Hs)|]. split; [exact (Hempty He)|].
  exact Hd.
Defined.

(** ** loadByPrefix: blank prefixes and failures *)

Lemma try_catch_unit_returns (c : M unit) (handler : JsError -> M unit) (w : World) :
  (forall e w0, fst (handler e w0) = Normal tt) ->
  fst (try_catch c handler w) = Normal tt.
Proof.
  intros Hh. unfold try_catch. destruct (c w) as [[[]|e] w1]; [reflexivity|].
  apply Hh.
Qed.

(** X6.  [loadByPrefix] never raises, whatever the network answers and whatever
    the files hold: what goes wrong inside is caught.  A prefix that is
    blank gives the alert and nothing else: no request, no log line, the
    store untouched. *)
Theorem loadByPrefix_guards (H : Host) (net : Net) (prefix : jsstring) (w : World) :
  fst (loadByPrefix H net prefix w) = Normal tt
  /\ (is_blank prefix = true ->
      snd (loadByPrefix H net prefix w)
      = mkWorld (state w) (logLines w) (logged w) (page w)
          (alerts w ++ [lit "Informe um prefixo"]) (requests w)).
Proof.
  unfold loadByPrefix. split.
  - destruct (trim prefix) as [|c t]; [reflexivity|].
    rewrite (bind_returns _ _ _ (pushLog_returns H _ info None w)).
    apply try_catch_unit_returns. intros e w0. reflexivity.
  - intros Hb. apply trim_nil_iff in Hb. rewrite Hb. reflexivity.
Qed.

Lemma loadByPrefix_guards_witness :
  is_blank (lit "   ") = true
  /\ snd (loadByPrefix Reference.host offline_net (lit "   ") Reference.start)
     = mkWorld initial_state [] [] Reference.blank_page
         [lit "Informe um prefixo"] [].
Proof.
  destruct (loadByPrefix_guards Reference.host offline_net (lit "   ")
              Reference.start) as (_ & Hb).
  split; [reflexivity|]. rewrite (Hb eq_refl). reflexivity.
Defined.

(** ** fetchText and fetchJSON *)

(** X7.  [fetchText] and [fetchJSON] never raise.  [fetchText] returns the body
    of a successful answer and [null] otherwise; [fetchJSON] returns the
    decoded body of a successful answer and [null] otherwise.  A warning is
    logged exactly when the request fails, the body cannot be read or, for
    [fetchJSON], does not decode; an answer that is not a success is passed
    over in silence.  Each sends its one request and leaves the store
    alone. *)
Theorem fetch_helpers_absorb_failures (H : Host) (net : Net) (url : jsstring)
    (w : World) :
  (fst (fetchText H net url w) = Normal (fetched net url)
   /\ logged (snd (fetchText H net url w))
      = logged w ++ fetch_warning H w (lit "Falha ao buscar texto em ") url
                      (fetch_failure net url)
   /\ requests (snd (fetchText H net url w)) = requests w ++ [(GET, url)]
   /\ state (snd (fetchText H net url w)) = state w)
  /\ (fst (fetchJSON H net url w) = Normal (fetched_json H net url)
      /\ logged (snd (fetchJSON H net url w))
         = logged w ++ fetch_warning H w (lit "Falha ao buscar JSON em ") url
                         (json_failure H net url)
      /\ requests (snd (fetchJSON H net url w)) = requests w ++ [(GET, url)]
      /\ state (snd (fetchJSON H net url w)) = state w)
  /\ (forall ok body,
        net GET url = Response ok body -> ok = false ->
        fetchText H net url w
        = (Normal None,
           mkWorld (state w) (logLines w) (logged w) (page w) (alerts w)
             (requests w ++ [(GET, url)]))).
Proof.
  split; [|split].
  - unfold fetchText, fetched, fetch_failure, fetch_warning, try_catch, bind, fetch.
    destruct (net GET url) as [e|[|] [text|e]]; cbn;
      rewrite ?app_nil_r; repeat split.
  - unfold fetchJSON, fetched_json, fetched, json_failure, fetch_warning,
      try_catch, bind, fetch, resp_json, lift.
    destruct (net GET url) as [e|[|] [text|e]]; cbn;
      rewrite ?app_nil_r; repeat split;
      destruct (JSON_parse H text); cbn; rewrite ?app_nil_r; reflexivity.
  - intros ok body Hnet ->. unfold fetchText, try_catch, bind, fetch.
    rewrite Hnet. reflexivity.
Qed.

Lemma fetch_helpers_witness :
  offline_net GET (lit "x") = NetworkError
                                (mkError (lit "TypeError") (lit "Failed to fetch") None)
  /\ export_net GET (lit "x") = Response false (Normal (lit "Not Found"))
  /\ fetchText Reference.host export_net (lit "x") Reference.start
     = (Normal None,
        mkWorld initial_state [] [] Reference.blank_page [] [(GET, lit "x")])
  /\ map log_line
       (logged (snd (fetchText Reference.host offline_net (lit "x") Reference.start)))
     = [lit "[12:00:00] [WARN] Falha ao buscar texto em x" ++ [10%N]
          ++ lit "Failed to fetch"].
Proof.
  destruct (fetch_helpers_absorb_failures Reference.host export_net (lit "x")
              Reference.start) as (_ & _ & Hsilent).
  destruct (fetch_helpers_absorb_failures Reference.host offline_net (lit "x")
              Reference.start) as ((_ & Hlog & _) & _).
  split; [reflexivity|]. split; [reflexivity|].
  split; [exact (Hsilent false _ eq_refl eq_refl)|].
  rewrite Hlog. reflexivity.
Defined.

(** ** Lines, white space and line endings *)

(** X8.  One record per line, with either line ending.  For lines joined by
    line feeds, or by carriage return and line feed, [parseNDJSON] returns
    the values of the lines that decode, in order; and white space around a
    line does not change its value. *)
Theorem parseNDJSON_line_endings (H : Host) (lines : list jsstring)
    (label : option jsstring) (w : World) :
  Forall (fun line => ~ In 10%N line) lines ->
  join [10%N] lines <> [] ->
  fst (parseNDJSON H (Some (join [10%N] lines)) label w)
  = Normal (flat_map (decode_line H) lines)
  /\ fst (parseNDJSON H (Some (join [13%N; 10%N] lines)) label w)
     = Normal (flat_map (decode_line H) lines)
  /\ (forall before line after,
        is_blank before = true -> is_blank after = true ->
        decode_line H (before ++ line ++ after) = decode_line H line).
Proof.
  intros Hlines Hne.
  assert (Hl : lines <> []) by (intros ->; now apply Hne).
  split; [|split].
  - rewrite parseNDJSON_returns. unfold parsed_records. f_equal.
    apply records_of_lines; [now left | assumption | assumption].
  - rewrite parseNDJSON_returns. unfold parsed_records. f_equal.
    apply records_of_lines; [now right | assumption | assumption].
  - intros before line after. apply decode_line_padding.
Qed.

Lemma parseNDJSON_line_endings_witness :
  let lines := [Reference.json "{'a':1}"; lit "  "; lit "oops";
                lit "  " ++ Reference.json "{'b':2}" ++ [9%N]] in
  Forall (fun line => ~ In 10%N line) lines
  /\ join [10%N] lines <> []
  /\ fst (parseNDJSON Reference.host (Some (join [13%N; 10%N] lines)) None
            Reference.start)
     = Normal [JObj [(lit "a", JNum (lit "1"))]; JObj [(lit "b", JNum (lit "2"))]].
Proof.
  cbv zeta.
  assert (Hlines : Forall (fun line => ~ In 10%N line)
                     [Reference.json "{'a':1}"; lit "  "; lit "oops";
                      lit "  " ++ Reference.json "{'b':2}" ++ [9%N]]).
  { repeat constructor; intros Hin;
      apply (in_dec N.eq_dec) in Hin || idtac;
      repeat (destruct Hin as [E|Hin]; [discriminate E|]); exact Hin. }
  assert (Hne : join [10%N]
                  [Reference.json "{'a':1}"; lit "  "; lit "oops";
                   lit "  " ++ Reference.json "{'b':2}" ++ [9%N]] <> [])
    by discriminate.
  destruct (@parseNDJSON_line_endings Reference.host _ None Reference.start
              Hlines Hne) as (_ & Hcrlf & _).
  split; [exact Hlines|]. split; [exact Hne|].
  rewrite Hcrlf. vm_compute. reflexivity.
Defined.

(** ** The earlier reader *)

Lemma legacy_fold (H : Host) (lines : list jsstring) (out : list Json) :
  fold_left
    (fun out line =>
       let trimmed := trim line in
       match trimmed with
       | [] => out
       | _ =>
           match JSON_parse H trimmed with
           | Normal v => out ++ [v]
           | Throw _ => out
           end
       end)
    lines out
  = out ++ flat_map (decode_line H) lines.
Proof.
  revert out; induction lines as [|line lines IH]; intros out.
  - cbn. now rewrite app_nil_r.
  - cbn [fold_left flat_map]. rewrite IH. unfold decode_line at 2. cbv zeta.
    destruct (trim line) as [|c t]; [reflexivity|].
    destruct (JSON_parse H (c :: t)); [now rewrite <- app_assoc | reflexivity].
Qed.

(** X9.  The reader of the script returns exactly the records its earlier,
    silent version returns: logging the lines that do not decode changed
    nothing in what is read. *)
Theorem parseNDJSON_agrees_with_legacy (H : Host) (text label : option jsstring)
    (w : World) :
  fst (parseNDJSON H text label w) = Normal (legacy_parseNDJSON H text).
Proof.
  rewrite parseNDJSON_returns. f_equal. unfold legacy_parseNDJSON, parsed_records.
  destruct text as [[|c t]|]; try reflexivity.
  cbn [truthy_text negb]. now rewrite legacy_fold.
Qed.

(** ** Local files *)

Lemma read_dataset_file_returns (H : Host) (file : option (Completion jsstring))
    (sourceLabel failure : jsstring) (w : World) :
  fst (read_dataset_file H file sourceLabel failure w)
  = Normal (parsed_records H (file_text file)).
Proof.
  destruct file as [[text|e]|]; try reflexivity.
  unfold read_dataset_file, try_catch, bind, lift. cbn [file_text].
  pose proof (parseNDJSON_returns H (Some text) (Some sourceLabel) w) as E.
  destruct (parseNDJSON H (Some text) (Some sourceLabel) w) as [r w1].
  cbn [fst] in E. now rewrite E.
Qed.

Lemma keeps_read_dataset_file {X} (proj : World -> X) (H : Host)
    (file : option (Completion jsstring)) (sourceLabel failure : jsstring) :
  (forall w lines trace p a,
     proj (mkWorld (state w) lines trace p a (requests w)) = proj w) ->
  keeps proj (read_dataset_file H file sourceLabel failure).
Proof.
  intros Hp. unfold read_dataset_file.
  destruct file as [content|]; [|apply keeps_ret].
  apply keeps_try_catch.
  - apply keeps_bind; [apply keeps_lift|intros text].
    now apply keeps_parseNDJSON.
  - intros e. apply keeps_bind; [now apply keeps_pushLog | intros ?; apply keeps_ret].
Qed.

(** Reading the summary file: its decoded text, or [null] with one error
    line in the log. *)
Lemma read_summary_file_returns (H : Host) (file : option (Completion jsstring))
    (w : World) :
  fst (match file with
       | Some content =>
           try_catch
             (text <- lift content ;; lift (JSON_parse H text))
             (fun err =>
                pushLog H (lit "Não foi possível ler o arquivo de resumo")
                  error (Some (err_message err)) ;;
                ret JNull)
       | None => ret JNull
       end w)
  = Normal (file_summary H file).
Proof.
  destruct file as [[text|e]|]; try reflexivity.
  unfold file_summary, try_catch, bind, lift. cbn [file_text].
  now destruct (JSON_parse H text).
Qed.

Lemma keeps_read_summary_file {X} (proj : World -> X) (H : Host)
    (file : option (Completion jsstring)) :
  (forall w lines trace p a,
     proj (mkWorld (state w) lines trace p a (requests w)) = proj w) ->
  keeps proj (match file with
              | Some content =>
                  try_catch
                    (text <- lift content ;; lift (JSON_parse H text))
                    (fun err =>
                       pushLog H (lit "Não foi possível ler o arquivo de resumo")
                         error (Some (err_message err)) ;;
                       ret JNull)
              | None => ret JNull
              end).
Proof.
  intros Hp. destruct file as [content|]; [|apply keeps_ret].
  apply keeps_try_catch.
  - apply keeps_bind; [apply keeps_lift | intros text; apply keeps_lift].
  - intros e. apply keeps_bind; [now apply keeps_pushLog | intros ?; apply keeps_ret].
Qed.

(** The load, once one file at least is selected. *)
Lemma loadFromFiles_selected (H : Host)
    (summaryFile contactsFile chatsFile messagesFile : option (Completion jsstring))
    (w : World) :
  exists wn,
    (pushLog H (lit "Carregando arquivos locais selecionados") info None ;;
     summary' <- match summaryFile with
                 | Some content =>
                     try_catch
                       (text <- lift content ;; lift (JSON_parse H text))
                       (fun err =>
                          pushLog H (lit "Não foi possível ler o arquivo de resumo")
                            error (Some (err_message err)) ;;
                          ret JNull)
                 | None => ret JNull
                 end ;;
     contacts' <- read_dataset_file H contactsFile
                    (lit "Contatos (arquivo local)")
                    (lit "Falha ao ler contatos locais") ;;
     chats' <- read_dataset_file H chatsFile
                 (lit "Conversas (arquivo local)")
                 (lit "Falha ao ler conversas locais") ;;
     messages' <- read_dataset_file H messagesFile
                    (lit "Mensagens (arquivo local)")
                    (lit "Falha ao ler mensagens locais") ;;
     applyData H
       (JObj [(lit "summary", summary'); (lit "contacts", JArr contacts');
              (lit "chats", JArr chats'); (lit "messages", JArr messages')])
       (lit "Arquivos locais")) w
    = applyData H (files_payload H summaryFile contactsFile chatsFile messagesFile)
        (lit "Arquivos locais") wn
    /\ state wn = state w /\ requests wn = requests w.
Proof.
  rewrite (bind_returns _ _ _ (pushLog_returns H _ info None w)).
  set (w1 := snd (pushLog H _ info None w)).
  rewrite (bind_returns _ _ _ (read_summary_file_returns H summaryFile w1)).
  match goal with
  | |- context [bind _ _ (snd (?c w1))] => set (w2 := snd (c w1))
  end.
  rewrite (bind_returns _ _ _ (read_dataset_file_returns H contactsFile _ _ w2)).
  set (w3 := snd (read_dataset_file H contactsFile _ _ w2)).
  rewrite (bind_returns _ _ _ (read_dataset_file_returns H chatsFile _ _ w3)).
  set (w4 := snd (read_dataset_file H chatsFile _ _ w3)).
  rewrite (bind_returns _ _ _ (read_dataset_file_returns H messagesFile _ _ w4)).
  set (w5 := snd (read_dataset_file H messagesFile _ _ w4)).
  exists w5. split; [reflexivity|].
  assert (Hall : forall X (proj : World -> X),
            (forall w lines trace p a,
               proj (mkWorld (state w) lines trace p a (requests w)) = proj w) ->
            proj w5 = proj w).
  { intros X proj Hp. unfold w5, w4, w3, w2, w1.
    rewrite !(keeps_read_dataset_file proj H _ _ _ Hp).
    rewrite (keeps_read_summary_file proj H summaryFile Hp).
    now apply keeps_pushLog. }
  split.
  - apply (Hall _ state). reflexivity.
  - apply (Hall _ requests). reflexivity.
Qed.

(** X10.  Loading local files.  With no file selected the script only raises an
    alert: the store and the log stay as they were.  With a file selected,
    the store is the one [applyData] leaves for what the files give, where a
    file that is missing, cannot be read or (for the summary) does not
    decode counts as empty; no request is sent either way. *)
Theorem loadFromFiles_spec (H : Host)
    (summaryFile contactsFile chatsFile messagesFile : option (Completion jsstring))
    (w : World) :
  let result := loadFromFiles H summaryFile contactsFile chatsFile messagesFile w in
  requests (snd result) = requests w
  /\ (if no_file_selected summaryFile contactsFile chatsFile messagesFile
      then fst result = Normal tt
           /\ state (snd result) = state w
           /\ logLines (snd result) = logLines w
           /\ alerts (snd result)
              = alerts w ++ [lit "Selecione ao menos um arquivo para carregar."]
      else state (snd result)
           = reselect_dataset
               (replace_snapshot
                  (files_payload H summaryFile contactsFile chatsFile messagesFile)
                  (state w))).
Proof.
  cbv zeta.
  destruct (loadFromFiles_selected H summaryFile contactsFile chatsFile
              messagesFile w) as (wn & E & Hs & Hr).
  destruct summaryFile as [s|], contactsFile as [c|], chatsFile as [ch|],
    messagesFile as [m|];
    try solve
      [ cbn [no_file_selected];
        match goal with
        | |- context [loadFromFiles ?h ?a ?b ?c ?d ?w0] =>
            assert (E' : loadFromFiles h a b c d w0
                         = applyData h (files_payload h a b c d)
                             (lit "Arquivos locais") wn) by exact E
        end;
        rewrite E', applyData_state, Hs, (keeps_requests_applyData H _ _ wn), Hr;
        split; reflexivity ].
  cbn [no_file_selected]. repeat split; reflexivity.
Qed.

(** ** The table card *)

Lemma hasRecords_none s : hasRecords s = false -> forall k, records_of s k = [].
Proof.
  unfold hasRecords, DATASETS. destruct s as [sm c h m d].
  cbn [existsb key records_of contacts chats messages].
  intros E k. destruct c, h, m; cbn in E; try discriminate E; now destruct k.
Qed.

Lemma updateDataTable_card (H : Host) (w : World) :
  let s := state w in
  let c := tableCard (page (snd (updateDataTable H w))) in
  card_hidden c = negb (hasRecords s)
  /\ table_hidden c = (length (records_of s (dataset s)) =? 0)
  /\ empty_hidden c = negb (table_hidden c)
  /\ (table_hidden c = true -> thead_html c = [] /\ tbody_html c = [])
  /\ (hasRecords s = true -> records_of s (dataset s) = [] ->
      exists d, In d DATASETS /\ key d = dataset s
                /\ empty_text c
                   = lit "Nenhum registro carregado para " ++ label d ++ lit ".").
Proof.
  cbv zeta. unfold updateDataTable. run.
  destruct (hasRecords (state w)) eqn:Eh; run.
  - unfold updateDatasetButtons. run. rewrite active_meta_key.
    destruct (records_of (state w) (dataset (state w))) as [|r rs] eqn:Er; run.
    + split; [reflexivity|]. split; [reflexivity|]. split; [reflexivity|].
      split; [intros _; split; reflexivity|]. intros _ _.
      destruct (dataset (state w));
        [ exists (mkMeta Contacts (lit "Contatos"))
        | exists (mkMeta Chats (lit "Conversas"))
        | exists (mkMeta Messages (lit "Mensagens")) ];
        (split; [cbn; tauto | split; reflexivity]).
    + destruct (rowsHtml_returns H (columnList_of (r :: rs)) (r :: rs))
        as (rows & E).
      rewrite thead_of_spec. run. rewrite E. run.
      split; [reflexivity|]. split; [reflexivity|]. split; [reflexivity|].
      split; [intros E'; discriminate E' | intros _ E'; discriminate E'].
  - rewrite (hasRecords_none _ Eh).
    split; [reflexivity|]. split; [reflexivity|]. split; [reflexivity|].
    split; [intros _; split; reflexivity | intros E'; discriminate E'].
Qed.

Lemma reselect_active s :
  hasRecords s = true ->
  records_of (reselect_dataset s) (dataset (reselect_dataset s)) <> [].
Proof.
  unfold hasRecords, reselect_dataset, DATASETS. destruct s as [sm c h m d].
  cbn [existsb key records_of contacts chats messages dataset].
  destruct d, c, h, m; cbn; intros E; discriminate.
Qed.

Lemma hasRecords_reselect s : hasRecords (reselect_dataset s) = hasRecords s.
Proof.
  unfold hasRecords, DATASETS. cbn [existsb key].
  now rewrite !reselect_keeps_records.
Qed.

Lemma refreshUI_table (H : Host) (w : World) :
  fst (refreshUI H w) = Normal tt ->
  exists w3, state w3 = state w
             /\ tableCard (page (snd (refreshUI H w)))
                = tableCard (page (snd (updateDataTable H w3))).
Proof.
  unfold refreshUI.
  rewrite (@bind_returns _ _ updateDatasetButtons _ w tt eq_refl).
  set (w1 := snd (updateDatasetButtons w)).
  rewrite (@bind_returns _ _ updateSummaryCard _ w1 tt (updateSummaryCard_returns w1)).
  set (w2 := snd (updateSummaryCard w1)).
  assert (Hs : state w2 = state w).
  { unfold w2.
    exact (@keeps_updateSummaryCard _ state (fun _ _ _ _ _ => eq_refl) w1). }
  destruct (fst (updateMetricsCard H w2)) as [[]|e] eqn:Em.
  - rewrite (@bind_returns _ _ (updateMetricsCard H) _ w2 tt Em).
    set (w3 := snd (updateMetricsCard H w2)). intros _.
    exists w3. split.
    + unfold w3.
      now rewrite (@keeps_updateMetricsCard _ state (fun _ _ _ _ _ => eq_refl) H w2).
    + rewrite (@bind_returns _ _ (updateDataTable H) _ w3 tt
                 (updateDataTable_returns H w3)).
      unfold updateSamplesCard, bind, read.
      now destruct (negb (hasRecords (state (snd (updateDataTable H w3))))).
  - rewrite (fst_bind_throw _ _ _ Em). discriminate.
Qed.

(** X11.  The three looks of the table card.  After [updateDataTable] the card is
    hidden exactly when no dataset has a record; the table is hidden exactly
    when the active dataset has none; of the table and the notice that
    stands for it, one is shown and the other hidden; and a hidden table has
    neither header nor rows left. *)
Theorem updateDataTable_modes (H : Host) (w : World) :
  let s := state w in
  let c := tableCard (page (snd (updateDataTable H w))) in
  card_hidden c = negb (hasRecords s)
  /\ table_hidden c = (length (records_of s (dataset s)) =? 0)
  /\ empty_hidden c = negb (table_hidden c)
  /\ (table_hidden c = true -> thead_html c = [] /\ tbody_html c = [])
  /\ (hasRecords s = true -> records_of s (dataset s) = [] ->
      exists d, In d DATASETS /\ key d = dataset s
                /\ empty_text c
                   = lit "Nenhum registro carregado para " ++ label d ++ lit ".").
Proof. exact (updateDataTable_card H w). Qed.

(** X12.  What a load leaves of the table card.  After an [applyData] whose
    payload has no [null] record, the card is hidden exactly when the
    payload brought no record at all, and otherwise the table itself is
    shown: the notice of an empty active dataset never stands after a load,
    since an empty active dataset has given way to one with records. *)
Theorem applyData_shows_a_table (H : Host) (payload : Json) (sourceLabel : jsstring)
    (w : World) :
  ~ In JNull (payload_array payload (lit "contacts")
              ++ payload_array payload (lit "chats")
              ++ payload_array payload (lit "messages")) ->
  let w' := snd (applyData H payload sourceLabel w) in
  let c := tableCard (page w') in
  card_hidden c = negb (hasRecords (state w'))
  /\ table_hidden c = card_hidden c
  /\ empty_hidden c = negb (card_hidden c)
  /\ records_of (state w') (dataset (state w'))
     = payload_array payload (key_text (dataset (state w'))).
Proof.
  intros Hnot. cbv zeta. rewrite applyData_state.
  rewrite applyData_unfold.
  set (w1 := set_state reselect_dataset (set_state (replace_snapshot payload) w)).
  destruct (refreshUI_outcome H w1) as (Hok & _).
  assert (Hs0 : state w1 = reselect_dataset (replace_snapshot payload (state w)))
    by reflexivity.
  rewrite Hs0, all_records_after in Hok. specialize (Hok Hnot). clear Hs0.
  set (s0 := replace_snapshot payload (state w)).
  assert (Hs1 : state w1 = reselect_dataset s0) by reflexivity.
  rewrite (bind_returns _ _ _ Hok).
  destruct (refreshUI_table H w1 Hok) as (w3 & Hs3 & Ht).
  change (tableCard (page (snd ((s <- read state ;;
                                 pushLog H (sourceLabel ++ lit ": dados atualizados")
                                   success (Some (counts_text s)))
                                (snd (refreshUI H w1))))))
    with (tableCard (page (snd (refreshUI H w1)))).
  rewrite Ht.
  destruct (updateDataTable_card H w3) as (Hc & Hv & He & _).
  cbv zeta in Hc, Hv, He. rewrite Hs3, Hs1 in Hc, Hv.
  rewrite Hc, He, Hv.
  assert (Hlen : (length (records_of (reselect_dataset s0)
                            (dataset (reselect_dataset s0))) =? 0)
                 = negb (hasRecords (reselect_dataset s0))).
  { destruct (hasRecords (reselect_dataset s0)) eqn:Eh.
    - rewrite hasRecords_reselect in Eh. apply reselect_active in Eh.
      now destruct (records_of (reselect_dataset s0) (dataset (reselect_dataset s0))).
    - now rewrite (hasRecords_none _ Eh). }
  rewrite Hlen.
  split; [reflexivity|]. split; [reflexivity|]. split; [reflexivity|].
  rewrite reselect_keeps_records. unfold s0.
  destruct (dataset (reselect_dataset (replace_snapshot payload (state w))));
    cbn [records_of replace_snapshot contacts chats messages key_text];
    now rewrite payload_array_read by (cbn; tauto).
Qed.

Lemma applyData_shows_a_table_witness :
  let payload := JObj [(lit "chats", JArr [JObj []; JObj []; JObj []])] in
  let w := Reference.world_of (mkState (VJson JNull) [] [] [JNull] Messages) in
  let w' := snd (applyData Reference.host payload (lit "Teste") w) in
  ~ In JNull (payload_array payload (lit "contacts")
              ++ payload_array payload (lit "chats")
              ++ payload_array payload (lit "messages"))
  /\ card_hidden (tableCard (page w')) = false
  /\ table_hidden (tableCard (page w')) = false
  /\ empty_hidden (tableCard (page w')) = true.
Proof.
  cbv zeta.
  assert (Hnot : ~ In JNull
                   (payload_array (JObj [(lit "chats", JArr [JObj []; JObj []; JObj []])])
                      (lit "contacts")
                    ++ payload_array
                         (JObj [(lit "chats", JArr [JObj []; JObj []; JObj []])])
                         (lit "chats")
                    ++ payload_array
                         (JObj [(lit "chats", JArr [JObj []; JObj []; JObj []])])
                         (lit "messages"))).
  { intros [E|[E|[E|[]]]]; discriminate E. }
  destruct (@applyData_shows_a_table Reference.host
              (JObj [(lit "chats", JArr [JObj []; JObj []; JObj []])]) (lit "Teste")
              (Reference.world_of (mkState (VJson JNull) [] [] [JNull] Messages))
              Hnot) as (Hc & Hv & He & _).
  assert (Hh : hasRecords
                 (state (snd (applyData Reference.host
                                (JObj [(lit "chats", JArr [JObj []; JObj []; JObj []])])
                                (lit "Teste")
                                (Reference.world_of
                                   (mkState (VJson JNull) [] [] [JNull] Messages)))))
               = true).
  { rewrite applyData_state. vm_compute. reflexivity. }
  split; [exact Hnot|].
  rewrite He, Hv, Hc, Hh. repeat split; reflexivity.
Defined.

(** ** The cards after a refresh *)

Ltac frame_steps :=
  keep_steps ltac:(first [ apply keeps_modify; intros ?; reflexivity ]).

Lemma updateSummaryCard_hidden w :
  summary_hidden (summaryCard (page (snd (updateSummaryCard w))))
  = negb (truthy (summary (state w))) && negb (hasRecords (state w)).
Proof.
  unfold updateSummaryCard, bind, read.
  destruct (negb (truthy (summary (state w))) && negb (hasRecords (state w)));
    [reflexivity|].
  unfold lift.
  destruct (JSON_stringify_normal two_spaces
              (if truthy (summary (state w)) then summary (state w)
               else VJson no_summary_notice)) as (t & ->).
  reflexivity.
Qed.

Lemma summaryCard_after_metrics (H : Host) :
  keeps (fun w => summaryCard (page w)) (updateMetricsCard H).
Proof. unfold updateMetricsCard. frame_steps. Qed.

Lemma summaryCard_after_table (H : Host) :
  keeps (fun w => summaryCard (page w)) (updateDataTable H).
Proof. unfold updateDataTable, updateDatasetButtons. frame_steps. Qed.

Lemma summaryCard_after_samples :
  keeps (fun w => summaryCard (page w)) updateSamplesCard.
Proof. unfold updateSamplesCard. frame_steps. Qed.

Lemma statsCard_after_table (H : Host) :
  keeps (fun w => statsCard (page w)) (updateDataTable H).
Proof. unfold updateDataTable, updateDatasetButtons. frame_steps. Qed.

Lemma statsCard_after_samples :
  keeps (fun w => statsCard (page w)) updateSamplesCard.
Proof. unfold updateSamplesCard. frame_steps. Qed.

Lemma tableCard_after_samples :
  keeps (fun w => tableCard (page w)) updateSamplesCard.
Proof. unfold updateSamplesCard. frame_steps. Qed.

Lemma updateMetricsCard_hidden (H : Host) w :
  fst (updateMetricsCard H w) = Normal tt ->
  stats_hidden (statsCard (page (snd (updateMetricsCard H w))))
  = negb (hasRecords (state w)).
Proof.
  unfold updateMetricsCard, bind, read.
  change (existsb (fun value => 0 <? value)
            [length (contacts (state w)); length (chats (state w));
             length (messages (state w))])
    with (hasRecords (state w)).
  destruct (hasRecords (state w)); cbn [negb]; [|reflexivity].
  cbn [modify]. unfold lift.
  destruct (count_exported H (contacts (state w))); [|discriminate].
  destruct (count_exported H (chats (state w))); [|discriminate].
  destruct (count_exported H (messages (state w))); [|discriminate].
  reflexivity.
Qed.

Lemma updateSamplesCard_hidden w :
  samples_hidden (samplesCard (page (snd (updateSamplesCard w))))
  = negb (hasRecords (state w)).
Proof.
  unfold updateSamplesCard, bind, read.
  now destruct (hasRecords (state w)).
Qed.

(** X13.  The cards go together.  After a refresh that ends normally, the
    metrics, the samples and the table card are all hidden when the store
    has no record and all shown when it has one; the summary card is hidden
    only when there is no summary either. *)
Theorem refreshUI_cards (H : Host) (w : World) :
  fst (refreshUI H w) = Normal tt ->
  let s := state w in
  let p := page (snd (refreshUI H w)) in
  stats_hidden (statsCard p) = negb (hasRecords s)
  /\ samples_hidden (samplesCard p) = negb (hasRecords s)
  /\ card_hidden (tableCard p) = negb (hasRecords s)
  /\ summary_hidden (summaryCard p) = negb (truthy (summary s)) && negb (hasRecords s).
Proof.
  intros Hok. cbv zeta. revert Hok. unfold refreshUI.
  rewrite (@bind_returns _ _ updateDatasetButtons _ w tt eq_refl).
  set (w1 := snd (updateDatasetButtons w)).
  assert (Hs1 : state w1 = state w) by reflexivity.
  rewrite (@bind_returns _ _ updateSummaryCard _ w1 tt (updateSummaryCard_returns w1)).
  set (w2 := snd (updateSummaryCard w1)).
  assert (Hs2 : state w2 = state w).
  { unfold w2.
    now rewrite (@keeps_updateSummaryCard _ state (fun _ _ _ _ _ => eq_refl) w1). }
  destruct (fst (updateMetricsCard H w2)) as [[]|e] eqn:Em;
    [|rewrite (fst_bind_throw _ _ _ Em); discriminate].
  rewrite (@bind_returns _ _ (updateMetricsCard H) _ w2 tt Em).
  set (w3 := snd (updateMetricsCard H w2)).
  assert (Hs3 : state w3 = state w).
  { unfold w3.
    now rewrite (@keeps_updateMetricsCard _ state (fun _ _ _ _ _ => eq_refl) H w2). }
  rewrite (@bind_returns _ _ (updateDataTable H) _ w3 tt
             (updateDataTable_returns H w3)).
  set (w4 := snd (updateDataTable H w3)).
  assert (Hs4 : state w4 = state w).
  { unfold w4.
    now rewrite (@keeps_updateDataTable _ state (fun _ _ _ _ _ => eq_refl) H w3). }
  intros _. split; [|split; [|split]].
  - rewrite (statsCard_after_samples w4). unfold w4.
    rewrite (statsCard_after_table H w3). unfold w3.
    now rewrite (updateMetricsCard_hidden H w2 Em), Hs2.
  - now rewrite updateSamplesCard_hidden, Hs4.
  - rewrite (tableCard_after_samples w4). unfold w4.
    destruct (updateDataTable_card H w3) as (Hc & _). cbv zeta in Hc.
    now rewrite Hc, Hs3.
  - rewrite (summaryCard_after_samples w4). unfold w4.
    rewrite (summaryCard_after_table H w3). unfold w3.
    rewrite (summaryCard_after_metrics H w2). unfold w2.
    now rewrite updateSummaryCard_hidden, Hs1.
Qed.

Lemma refreshUI_cards_witness :
  let w := Reference.world_of
             (mkState (VJson JNull) [] [JObj []] [] Contacts) in
  fst (refreshUI Reference.host w) = Normal tt
  /\ card_hidden (tableCard (page (snd (refreshUI Reference.host w)))) = false
  /\ summary_hidden (summaryCard (page (snd (refreshUI Reference.host w)))) = false.
Proof.
  cbv zeta.
  assert (Hok : fst (refreshUI Reference.host
                       (Reference.world_of
                          (mkState (VJson JNull) [] [JObj []] [] Contacts)))
                = Normal tt) by (vm_compute; reflexivity).
  destruct (@refreshUI_cards Reference.host
              (Reference.world_of (mkState (VJson JNull) [] [JObj []] [] Contacts))
              Hok) as (_ & _ & Hc & Hs).
  split; [exact Hok|]. split; [exact Hc | exact Hs].
Defined.
